(** * Claude Voice Assistant: license gate, CLI bridge, STT and TTS engines

    A shallow embedding of the stateful cores of the application
    ([core/license_manager.py], [core/claude_bridge.py],
    [core/stt_engine.py], [core/tts_engine.py]) and the properties that the
    specification states about them.

    Conventions of the embedding.
    - A Python [str] is a [string].  In the license manager and in JSON
      documents it is the UTF-8 text of the [str]; where the engines
      strip or split a text, every character is one code point in the
      range 0..255.  The bridge, whose texts are arbitrary Unicode, uses
      lists of code points instead.
    - A Python [float] is an IEEE 754 binary64 number, with the
      conversions from and to decimal digits of the interpreter.
    - A Python [int] is a [Z].
    - A method of an object is a function from the object (a record) to a
      result and the object after the call.  An exception leaves the
      object as it was when the exception was raised.
    - Calls into the outside world (HTTP server, clock, child process,
      audio libraries) take their outcome from an explicit environment and
      are recorded, where a property speaks about them, in a trace of
      events. *)

From Stdlib Require Import ZArith NArith List String Ascii Bool Lia.
From Stdlib Require DecimalString DecimalN DecimalPos DecimalFacts.
Import ListNotations.

#[local] Open Scope string_scope.
#[local] Open Scope Z_scope.

(* ===================================================================== *)
(** * Python values: exceptions and results                               *)
(* ===================================================================== *)

Module Py.

(** The exception classes that the embedded code can meet.
    [RequestException] stands for [requests.RequestException] raised by a
    request that does not complete (connection error, timeout);
    [JSONDecodeError] for [requests.exceptions.JSONDecodeError], raised by
    [response.json()] on a body that is not JSON and, in requests 2.27 and
    later, a subclass of [RequestException]. *)
Inductive exn : Type :=
| TypeError
| ValueError
| AttributeError
| OverflowError
| RequestException
| JSONDecodeError
| OSError.

(** [except requests.RequestException] *)
Definition is_RequestException (e : exn) : bool :=
  match e with
  | RequestException | JSONDecodeError => true
  | _ => false
  end.

Inductive result (A : Type) : Type :=
| Ok (a : A)
| Raise (e : exn).
Arguments Ok {A} a.
Arguments Raise {A} e.

Definition rbind {A B} (r : result A) (k : A -> result B) : result B :=
  match r with
  | Ok a => k a
  | Raise e => Raise e
  end.

(** Computations over an object of type [S]: the object is threaded
    through and survives an exception. *)
Definition M (S A : Type) : Type := S -> result A * S.

Definition ret {S A} (a : A) : M S A := fun s => (Ok a, s).

Definition raise {S A} (e : exn) : M S A := fun s => (Raise e, s).

Definition bind {S A B} (c : M S A) (k : A -> M S B) : M S B :=
  fun s =>
    match c s with
    | (Ok a, s') => k a s'
    | (Raise e, s') => (Raise e, s')
    end.

Definition get {S} : M S S := fun s => (Ok s, s).

Definition modify {S} (f : S -> S) : M S unit := fun s => (Ok tt, f s).

(** A pure, possibly raising, computation run inside [M]. *)
Definition lift {S A} (r : result A) : M S A := fun s => (r, s).

(** [try: body except <cls>: handler]: the handler runs on the object as
    the raising body left it; other exceptions propagate. *)
Definition try_except {S A} (body : M S A) (cls : exn -> bool)
    (handler : exn -> M S A) : M S A :=
  fun s =>
    match body s with
    | (Ok a, s') => (Ok a, s')
    | (Raise e, s') => if cls e then handler e s' else (Raise e, s')
    end.

Module Notations.
  Declare Scope py_scope.
  Delimit Scope py_scope with py.
  Notation "x <- c ;; k" := (bind c (fun x => k))
    (at level 61, c at next level, right associativity) : py_scope.
  Notation "c ;;; k" := (bind c (fun _ => k))
    (at level 61, right associativity) : py_scope.
End Notations.

End Py.

(* ===================================================================== *)
(** * Python floats                                                       *)
(* ===================================================================== *)

Module Float.

(** A Python [float], an IEEE 754 binary64 number: [Finite neg m e] is
    [(-1)^neg * m * 2^e], zero when [m] is 0. *)
Inductive float : Type :=
| Finite (neg : bool) (m e : Z)
| Inf (neg : bool)
| NaN.

(** The representation that the hardware has: 53 bits of mantissa, the
    exponent between -1074 and 971, and the mantissa below [2^52] only
    at the smallest exponent. *)
Definition canonical (x : float) : bool :=
  match x with
  | Finite _ m e =>
      (0 <=? m) && (m <? 2 ^ 53) && (-1074 <=? e) && (e <=? 971) &&
      ((2 ^ 52 <=? m) || (e =? -1074))
  | _ => true
  end.

Definition eqb (x y : float) : bool :=
  match x, y with
  | Finite s m e, Finite s' m' e' => Bool.eqb s s' && (m =? m') && (e =? e')
  | Inf s, Inf s' => Bool.eqb s s'
  | NaN, NaN => true
  | _, _ => false
  end.

Definition zero (neg : bool) : float := Finite neg 0 (-1074).

(** The fraction [N / (D * b^k)], for any sign of [k]. *)
Definition scale (b N D k : Z) : Z * Z :=
  if 0 <=? k then (N, D * b ^ k) else (N * b ^ (- k), D).

(** [N / D] rounded to the nearest integer, to the even one of two that
    are equally near. *)
Definition round_half_even (N D : Z) : Z :=
  let q := N / D in
  let r := N mod D in
  if 2 * r <? D then q
  else if D <? 2 * r then q + 1
  else if Z.even q then q else q + 1.

(** The float nearest to [N / D], for [N >= 0] and [D > 0]: what the
    correctly rounded conversions of the interpreter give. *)
Definition nearest (neg : bool) (N D : Z) : float :=
  if N =? 0 then zero neg
  else
    let l0 := Z.log2 N - Z.log2 D in
    let '(n0, d0) := scale 2 N D l0 in
    let l := if n0 <? d0 then l0 - 1 else l0 in
    let e := Z.max (l - 52) (-1074) in
    let '(n, d) := scale 2 N D e in
    let m := round_half_even n d in
    let '(m, e) := if m =? 2 ^ 53 then (2 ^ 52, e + 1) else (m, e) in
    if 971 <? e then Inf neg else Finite neg m e.

(** The float nearest to [digits * 10^exp10], as [float(s)] gives it for
    a decimal literal.  Beyond [10^400] the result is infinite and below
    [10^-400] it is zero, whatever the digits. *)
Definition of_decimal (neg : bool) (digits exp10 : Z) : float :=
  if digits <=? 0 then zero neg
  else if 400 <? exp10 then Inf neg
  else if exp10 + Z.log2 digits / 3 + 2 <? -400 then zero neg
  else
    let '(N, D) := scale 10 digits 1 (- exp10) in
    nearest neg N D.

(** [N / D >= 10^k] *)
Definition ge_pow10 (N D k : Z) : bool :=
  let '(n, d) := scale 10 N D k in d <=? n.

Fixpoint log10_up (fuel : nat) (N D d : Z) : Z :=
  match fuel with
  | O => d
  | S f => if ge_pow10 N D (d + 1) then log10_up f N D (d + 1) else d
  end.

(** The exponent of the first decimal digit of [N / D]. *)
Definition log10_floor (N D : Z) : Z :=
  log10_up 8 N D ((Z.log2 N - Z.log2 D) * 1233 / 4096 - 2).

(** The shortest decimal [c * 10^s] that [of_decimal] reads as the
    float [m * 2^e]; of two of the same length the nearer one, and the
    even one of two that are equally near: [n] digits are tried, then
    [n + 1]. *)
Fixpoint shortest_from (fuel : nat) (n : Z) (x : float) (N D d : Z)
    : Z * Z :=
  let s := d - n + 1 in
  let '(n', d') := scale 10 N D s in
  let lo := n' / d' in
  let r := n' mod d' in
  match fuel with
  | O => (if 2 * r <? d' then lo else lo + 1, s)
  | S f =>
      if r =? 0 then (lo, s)
      else
        match eqb (of_decimal false lo s) x,
              eqb (of_decimal false (lo + 1) s) x with
        | true, true =>
            (if 2 * r <? d' then lo
             else if d' <? 2 * r then lo + 1
             else if Z.even lo then lo else lo + 1, s)
        | true, false => (lo, s)
        | false, true => (lo + 1, s)
        | false, false => shortest_from f (n + 1) x N D d
        end
  end.

Definition shortest (m e : Z) : Z * Z :=
  let '(N, D) := scale 2 m 1 (- e) in
  shortest_from 16 1 (Finite false m e) N D (log10_floor N D).

(** The decimal digits of a natural number, and the digits without the
    zeros at the end. *)
Definition digits_of (c : Z) : string :=
  DecimalString.NilEmpty.string_of_uint (N.to_uint (Z.to_N c)).

Fixpoint strip_zeros_rev (l : list ascii) : list ascii :=
  match l with
  | "0"%char :: l' => strip_zeros_rev l'
  | _ => l
  end.

Definition strip_zeros (s : string) : string :=
  string_of_list_ascii (rev (strip_zeros_rev (rev (list_ascii_of_string s)))).

Fixpoint zeros (n : nat) : string :=
  match n with O => "" | S n' => String "0" (zeros n') end.

Fixpoint take (n : nat) (s : string) : string :=
  match n, s with
  | S n', String c s' => String c (take n' s')
  | _, _ => ""
  end.

Fixpoint drop (n : nat) (s : string) : string :=
  match n, s with
  | S n', String _ s' => drop n' s'
  | _, _ => s
  end.

(** The exponent of the exponential notation: a sign and at least two
    digits. *)
Definition exponent (x : Z) : string :=
  let a := digits_of (Z.abs x) in
  (if x <? 0 then "-" else "+") ++
  (if Z.abs x <? 10 then "0" ++ a else a).

(** [float.__repr__]: the shortest digits, in positional notation when
    the decimal point lies from three zeros before the digits to sixteen
    digits after their start, in exponential notation otherwise. *)
Definition repr (x : float) : string :=
  match x with
  | NaN => "nan"
  | Inf neg => if neg then "-inf" else "inf"
  | Finite neg m e =>
      (if neg then "-" else "") ++
      (if m <=? 0 then "0.0"
       else
         let '(c, s) := shortest m e in
         let all := digits_of c in
         let ds := strip_zeros all in
         let n := Z.of_nat (String.length ds) in
         let decpt := Z.of_nat (String.length all) + s in
         if (decpt <=? -4) || (16 <? decpt) then
           take 1 ds ++
           (if 1 <? n then "." ++ drop 1 ds else "") ++
           "e" ++ exponent (decpt - 1)
         else if decpt <=? 0 then
           "0." ++ zeros (Z.to_nat (- decpt)) ++ ds
         else if n <=? decpt then
           ds ++ zeros (Z.to_nat (decpt - n)) ++ ".0"
         else
           take (Z.to_nat decpt) ds ++ "." ++ drop (Z.to_nat decpt) ds)
  end.

(** [x == y] on two numbers [(-1)^s * m * 2^e], compared by value. *)
Definition same_value (s : bool) (m e : Z) (s' : bool) (m' e' : Z) : bool :=
  let k := Z.min e e' in
  (if s then - m else m) * 2 ^ (e - k) =?
  (if s' then - m' else m') * 2 ^ (e' - k).

(** [x == y] on floats: a NaN is equal to nothing, itself included, and
    the two zeros are equal. *)
Definition py_eq (x y : float) : bool :=
  match x, y with
  | Finite s m e, Finite s' m' e' => same_value s m e s' m' e'
  | Inf s, Inf s' => Bool.eqb s s'
  | _, _ => false
  end.

(** [x == z] for an [int] [z]: the comparison is exact. *)
Definition eq_int (x : float) (z : Z) : bool :=
  match x with
  | Finite s m e => same_value s m e false z 0
  | _ => false
  end.

End Float.

(* ===================================================================== *)
(** * UTF-8                                                               *)
(* ===================================================================== *)

(** A [str] of the license manager is held as its UTF-8 text, the form
    in which the source of this development writes a string literal. *)
Module Utf8.
#[local] Open Scope N_scope.

(** The bytes of a code point; a surrogate, which a [str] can hold but
    UTF-8 cannot, takes the three bytes that its value asks for. *)
Definition encode_cp (n : N) : string :=
  if n <? 128 then String (ascii_of_N n) ""
  else if n <? 2048 then
    String (ascii_of_N (192 + n / 64))
      (String (ascii_of_N (128 + n mod 64)) "")
  else if n <? 65536 then
    String (ascii_of_N (224 + n / 4096))
      (String (ascii_of_N (128 + (n / 64) mod 64))
         (String (ascii_of_N (128 + n mod 64)) ""))
  else
    String (ascii_of_N (240 + n / 262144))
      (String (ascii_of_N (128 + (n / 4096) mod 64))
         (String (ascii_of_N (128 + (n / 64) mod 64))
            (String (ascii_of_N (128 + n mod 64)) ""))).

Fixpoint encode (l : list N) : string :=
  match l with
  | [] => ""
  | n :: l' => encode_cp n ++ encode l'
  end.

(** The six bits of a continuation byte. *)
Definition continuation (c : ascii) : option N :=
  let n := N_of_ascii c in
  if (128 <=? n) && (n <? 192) then Some (n - 128) else None.

(** The code point of a sequence of two, three or four bytes that starts
    with the byte [n], when the sequence is the one that [encode_cp]
    writes for it. *)
Definition seq2 (n : N) (c2 : ascii) : option N :=
  if (194 <=? n) && (n <? 224) then
    match continuation c2 with
    | Some a => Some ((n - 192) * 64 + a)
    | None => None
    end
  else None.

Definition seq3 (n : N) (c2 c3 : ascii) : option N :=
  if (224 <=? n) && (n <? 240) then
    match continuation c2, continuation c3 with
    | Some a, Some b =>
        let cp := ((n - 224) * 64 + a) * 64 + b in
        if 2048 <=? cp then Some cp else None
    | _, _ => None
    end
  else None.

Definition seq4 (n : N) (c2 c3 c4 : ascii) : option N :=
  if (240 <=? n) && (n <? 245) then
    match continuation c2, continuation c3, continuation c4 with
    | Some a, Some b, Some c =>
        let cp := (((n - 240) * 64 + a) * 64 + b) * 64 + c in
        if (65536 <=? cp) && (cp <? 1114112) then Some cp else None
    | _, _, _ => None
    end
  else None.

(** The code points of a text.  A byte that starts no sequence is taken
    for the code point of its value; [valid] tells such texts apart. *)
Fixpoint decode (s : string) : list N :=
  match s with
  | "" => []
  | String c s1 =>
      let n := N_of_ascii c in
      if n <? 128 then n :: decode s1
      else
        match s1 with
        | "" => [n]
        | String c2 s2 =>
            match seq2 n c2 with
            | Some cp => cp :: decode s2
            | None =>
                match s2 with
                | "" => n :: decode s1
                | String c3 s3 =>
                    match seq3 n c2 c3 with
                    | Some cp => cp :: decode s3
                    | None =>
                        match s3 with
                        | "" => n :: decode s1
                        | String c4 s4 =>
                            match seq4 n c2 c3 c4 with
                            | Some cp => cp :: decode s4
                            | None => n :: decode s1
                            end
                        end
                    end
                end
            end
        end
  end.

Definition high_surrogate (n : N) : bool := (55296 <=? n) && (n <? 56320).
Definition low_surrogate (n : N) : bool := (56320 <=? n) && (n <? 57344).

(** A code point that is no surrogate. *)
Definition scalar (n : N) : bool :=
  (n <? 55296) || ((57344 <=? n) && (n <? 1114112)).

(** The text is the UTF-8 encoding of a [str] without surrogates: it is
    what [encode] writes for its code points. *)
Definition valid (s : string) : bool :=
  String.eqb (encode (decode s)) s && forallb scalar (decode s).

End Utf8.

(* ===================================================================== *)
(** * JSON documents and Python dictionaries                              *)
(* ===================================================================== *)

Module Json.

(** The values that [json.load] builds and [json.dump] writes without
    calling [default]: [None], [bool], [int], [float], [str], [list] and
    [dict] with [str] keys.  A dictionary keeps its keys in insertion
    order, as a Python [dict] does. *)
#[local] Set Warnings "-register-all".
Inductive json : Type :=
| JNull
| JBool (b : bool)
| JInt (z : Z)
| JFloat (x : Float.float)
| JStr (s : string)
| JList (l : list json)
| JObj (d : list (string * json)).

Definition dict : Type := list (string * json).

(** [d.get(k)] as an option; [k in d] is [dict_mem]. *)
Fixpoint dict_lookup (d : dict) (k : string) : option json :=
  match d with
  | [] => None
  | (k', v) :: d' => if String.eqb k k' then Some v else dict_lookup d' k
  end.

Definition dict_mem (d : dict) (k : string) : bool :=
  match dict_lookup d k with Some _ => true | None => false end.

(** [d.get(k, default)] *)
Definition dict_get (d : dict) (k : string) (default : json) : json :=
  match dict_lookup d k with Some v => v | None => default end.

(** [d[k] = v]: an existing key keeps its place, a new key goes last. *)
Fixpoint dict_set (d : dict) (k : string) (v : json) : dict :=
  match d with
  | [] => [(k, v)]
  | (k', v') :: d' =>
      if String.eqb k k' then (k', v) :: d' else (k', v') :: dict_set d' k v
  end.

(** [d.update(other)] and [dict(pairs)] *)
Definition dict_update (d : dict) (other : list (string * json)) : dict :=
  fold_left (fun acc kv => dict_set acc (fst kv) (snd kv)) other d.

Definition dict_of_pairs (pairs : list (string * json)) : dict :=
  dict_update [] pairs.

(** Truth value of a Python object, as tested by [if v:] and [not v]. *)
Definition truthy (v : json) : bool :=
  match v with
  | JNull => false
  | JBool b => b
  | JInt z => negb (z =? 0)
  | JFloat (Float.Finite _ m _) => negb (m =? 0)
  | JFloat _ => true
  | JStr s => negb (String.eqb s "")
  | JList l => match l with [] => false | _ => true end
  | JObj d => match d with [] => false | _ => true end
  end.

(** [v == s] for a [str] literal [s]: only a string can be equal to it. *)
Definition eq_str (v : json) (s : string) : bool :=
  match v with
  | JStr s' => String.eqb s' s
  | _ => false
  end.

(** [v.get(k)] and [v.get(k, default)] on a value decoded from a
    response body: only a [dict] has a [get] method. *)
Definition obj_lookup (v : json) (k : string) : Py.result (option json) :=
  match v with
  | JObj d => Py.Ok (dict_lookup d k)
  | _ => Py.Raise Py.AttributeError
  end.

Definition obj_get (v : json) (k : string) (default : json)
    : Py.result json :=
  match v with
  | JObj d => Py.Ok (dict_get d k default)
  | _ => Py.Raise Py.AttributeError
  end.

(** Two lists are equal when their items are, in order; two
    dictionaries when they have as many keys and every key of the one
    has an equal value in the other.  [eq] compares two items. *)
Fixpoint items_eq (eq : json -> json -> bool) (l l' : list json) : bool :=
  match l, l' with
  | [], [] => true
  | x :: l, y :: l' => eq x y && items_eq eq l l'
  | _, _ => false
  end.

Fixpoint members_eq (eq : json -> json -> bool) (d' d : dict) : bool :=
  match d with
  | [] => true
  | (k, x) :: d =>
      match dict_lookup d' k with
      | Some y => eq x y
      | None => false
      end && members_eq eq d' d
  end.

(** [a == b].  A [bool], an [int] and a [float] are compared by value,
    a container by its items. *)
Fixpoint py_eq (a b : json) {struct a} : bool :=
  match a, b with
  | JNull, JNull => true
  | JStr s, JStr s' => String.eqb s s'
  | JList l, JList l' => items_eq py_eq l l'
  | JObj d, JObj d' =>
      Nat.eqb (List.length d) (List.length d') && members_eq py_eq d' d
  | JBool b, JBool b' => Bool.eqb b b'
  | JBool b, JInt z' => (if b then 1 else 0) =? z'
  | JBool b, JFloat x' => Float.eq_int x' (if b then 1 else 0)
  | JInt z, JBool b' => z =? (if b' then 1 else 0)
  | JInt z, JInt z' => z =? z'
  | JInt z, JFloat x' => Float.eq_int x' z
  | JFloat x, JBool b' => Float.eq_int x (if b' then 1 else 0)
  | JFloat x, JInt z' => Float.eq_int x z'
  | JFloat x, JFloat x' => Float.py_eq x x'
  | _, _ => false
  end.

(** ** [json.dumps(v, indent=2)] *)

Definition dquote : ascii := "034"%char.
Definition newline : ascii := "010"%char.

(** A hexadecimal digit, lower case, as ['{0:04x}'.format] writes it. *)
Definition hex_digit (n : N) : ascii :=
  if (n <? 10)%N then ascii_of_N (48 + n) else ascii_of_N (87 + n).

(** [py_encode_basestring_ascii] on one character: the two-character
    escapes of [ESCAPE_DCT], the printable ASCII characters unchanged, any
    other code point as [\u00XX]. *)
Definition escape_char (c : ascii) : string :=
  match c with
  | "034"%char => String "\" (String dquote "")
  | "\"%char => "\\"
  | "008"%char => "\b"
  | "012"%char => "\f"
  | "010"%char => "\n"
  | "013"%char => "\r"
  | "009"%char => "\t"
  | _ =>
      let n := N_of_ascii c in
      if ((32 <=? n) && (n <=? 126))%N then String c ""
      else "\u00" ++ String (hex_digit (n / 16)) (String (hex_digit (n mod 16)) "")
  end.

(** ['{0:04x}'.format(n)] for [n] below 65536. *)
Definition hex4_of (n : N) : string :=
  String (hex_digit (n / 4096))
    (String (hex_digit ((n / 256) mod 16))
       (String (hex_digit ((n / 16) mod 16))
          (String (hex_digit (n mod 16)) ""))).

(** [py_encode_basestring_ascii] on one code point: an ASCII character
    as [escape_char] writes it, another character of the basic plane as
    [\uXXXX], a character beyond it as the two escapes of its surrogate
    pair. *)
Definition escape_cp (n : N) : string :=
  if (n <? 128)%N then escape_char (ascii_of_N n)
  else if (n <? 65536)%N then "\u" ++ hex4_of n
  else
    let v := (n - 65536)%N in
    "\u" ++ hex4_of (55296 + v / 1024) ++
    "\u" ++ hex4_of (56320 + v mod 1024).

Fixpoint escape_cps (l : list N) : string :=
  match l with
  | [] => ""
  | n :: l' => escape_cp n ++ escape_cps l'
  end.

Definition escape (s : string) : string := escape_cps (Utf8.decode s).

Definition dump_str (s : string) : string :=
  String dquote (escape s ++ String dquote "").

(** [int.__repr__] *)
Definition dump_int (z : Z) : string :=
  if z <? 0 then String "-" (DecimalString.NilEmpty.string_of_uint (N.to_uint (Z.to_N (- z))))
  else DecimalString.NilEmpty.string_of_uint (N.to_uint (Z.to_N z)).

(** [floatstr] of the encoder: [float.__repr__], and the three names
    that [allow_nan] lets through. *)
Definition dump_float (x : Float.float) : string :=
  match x with
  | Float.NaN => "NaN"
  | Float.Inf false => "Infinity"
  | Float.Inf true => "-Infinity"
  | Float.Finite _ _ _ => Float.repr x
  end.

Fixpoint spaces (n : nat) : string :=
  match n with O => "" | S n' => String " " (spaces n') end.

(** [newline_indent] of [_make_iterencode] at nesting level [lvl] with
    [indent=2]. *)
Definition newline_indent (lvl : nat) : string :=
  String newline (spaces (2 * lvl)).

(** The items of a non-empty list after the first one, then the closing
    bracket; [enc] writes one item. *)
Fixpoint dump_items (enc : json -> string) (lvl : nat) (l : list json)
    : string :=
  match l with
  | [] => newline_indent lvl ++ "]"
  | y :: l' => "," ++ newline_indent (S lvl) ++ enc y ++ dump_items enc lvl l'
  end.

Fixpoint dump_members (enc : json -> string) (lvl : nat) (d : dict)
    : string :=
  match d with
  | [] => newline_indent lvl ++ "}"
  | (k, y) :: d' =>
      "," ++ newline_indent (S lvl) ++ dump_str k ++ ": " ++ enc y ++
      dump_members enc lvl d'
  end.

(** [_iterencode]: containers put each item on its own line, separated by
    [","], a key and its value by [": "]; empty containers are [[]] and
    [{}]. *)
Fixpoint dump (lvl : nat) (v : json) {struct v} : string :=
  match v with
  | JNull => "null"
  | JBool true => "true"
  | JBool false => "false"
  | JInt z => dump_int z
  | JFloat x => dump_float x
  | JStr s => dump_str s
  | JList [] => "[]"
  | JList (x :: l) =>
      "[" ++ newline_indent (S lvl) ++ dump (S lvl) x ++
      dump_items (dump (S lvl)) lvl l
  | JObj [] => "{}"
  | JObj ((k, x) :: d) =>
      "{" ++ newline_indent (S lvl) ++ dump_str k ++ ": " ++ dump (S lvl) x ++
      dump_members (dump (S lvl)) lvl d
  end.

Definition dumps (v : json) : string := dump 0 v.

(** ** [json.loads] *)

(** [WHITESPACE] of [json.decoder]: space, tab, line feed, carriage
    return. *)
Definition is_ws (c : ascii) : bool :=
  match c with
  | " "%char | "009"%char | "010"%char | "013"%char => true
  | _ => false
  end.

Fixpoint skip_ws (s : string) : string :=
  match s with
  | String c s' => if is_ws c then skip_ws s' else s
  | "" => ""
  end.

Definition hex_value (c : ascii) : option N :=
  let n := N_of_ascii c in
  if ((48 <=? n) && (n <=? 57))%N then Some (n - 48)%N
  else if ((97 <=? n) && (n <=? 102))%N then Some (n - 87)%N
  else if ((65 <=? n) && (n <=? 70))%N then Some (n - 55)%N
  else None.

Definition hex4 (a b c d : ascii) : option N :=
  match hex_value a, hex_value b, hex_value c, hex_value d with
  | Some x, Some y, Some z, Some w => Some (((x * 16 + y) * 16 + z) * 16 + w)%N
  | _, _, _, _ => None
  end.

Definition cons_char (c : ascii) (r : option (string * string))
    : option (string * string) :=
  match r with
  | Some (s, rest) => Some (String c s, rest)
  | None => None
  end.

(** The character of a code point put in front of the string read. *)
Definition cons_cp (n : N) (r : option (string * string))
    : option (string * string) :=
  match r with
  | Some (s, rest) => Some (Utf8.encode_cp n ++ s, rest)
  | None => None
  end.

(** The code point of a surrogate pair: [0x10000 + (((hi - 0xd800) <<
    10) | (lo - 0xdc00))], where the bits of the two parts do not
    overlap. *)
Definition join_surrogates (hi lo : N) : N :=
  (65536 + (hi - 55296) * 1024 + (lo - 56320))%N.

(** [scanstring] in strict mode, after the opening quote: the string up
    to the closing quote and the text after it.  A [\uXXXX] escape gives
    its code point; the escape of a high surrogate followed by the
    escape of a low one gives the code point of the pair.  [None] is a
    [JSONDecodeError]. *)
Fixpoint scanstring (s : string) : option (string * string) :=
  match s with
  | "" => None
  | String c r =>
      if Ascii.eqb c dquote then Some ("", r)
      else if Ascii.eqb c "\" then
        match r with
        | String e r' =>
            match e with
            | "034"%char => cons_char dquote (scanstring r')
            | "\"%char => cons_char "\" (scanstring r')
            | "/"%char => cons_char "/" (scanstring r')
            | "b"%char => cons_char "008" (scanstring r')
            | "f"%char => cons_char "012" (scanstring r')
            | "n"%char => cons_char "010" (scanstring r')
            | "r"%char => cons_char "013" (scanstring r')
            | "t"%char => cons_char "009" (scanstring r')
            | "u"%char =>
                match r' with
                | String h1 (String h2 (String h3 (String h4 r''))) =>
                    match hex4 h1 h2 h3 h4 with
                    | Some n =>
                        if Utf8.high_surrogate n then
                          match r'' with
                          | String "\" (String "u"
                              (String l1 (String l2 (String l3 (String l4 r3))))) =>
                              match hex4 l1 l2 l3 l4 with
                              | Some m =>
                                  if Utf8.low_surrogate m
                                  then cons_cp (join_surrogates n m)
                                         (scanstring r3)
                                  else cons_cp n (scanstring r'')
                              | None => None
                              end
                          | _ => cons_cp n (scanstring r'')
                          end
                        else cons_cp n (scanstring r'')
                    | None => None
                    end
                | _ => None
                end
            | _ => None
            end
        | "" => None
        end
      else if (N_of_ascii c <? 32)%N then None
      else cons_char c (scanstring r)
  end.

Definition digit_of (c : ascii) : option (Decimal.uint -> Decimal.uint) :=
  match c with
  | "0"%char => Some Decimal.D0
  | "1"%char => Some Decimal.D1
  | "2"%char => Some Decimal.D2
  | "3"%char => Some Decimal.D3
  | "4"%char => Some Decimal.D4
  | "5"%char => Some Decimal.D5
  | "6"%char => Some Decimal.D6
  | "7"%char => Some Decimal.D7
  | "8"%char => Some Decimal.D8
  | "9"%char => Some Decimal.D9
  | _ => None
  end.

(** The longest prefix of decimal digits and the text after it. *)
Fixpoint scan_digits (s : string) : Decimal.uint * string :=
  match s with
  | String c r =>
      match digit_of c with
      | Some d => let (u, r') := scan_digits r in (d u, r')
      | None => (Decimal.Nil, s)
      end
  | "" => (Decimal.Nil, "")
  end.

(** The three parts of [NUMBER_RE].  The integer part is a single zero,
    or a digit that is not zero followed by digits. *)
Definition scan_intpart (s : string) : option (Decimal.uint * string) :=
  match s with
  | String c r =>
      if Ascii.eqb c "0" then Some (Decimal.D0 Decimal.Nil, r)
      else
        match digit_of c with
        | Some d => let (u, r') := scan_digits r in Some (d u, r')
        | None => None
        end
  | "" => None
  end.

(** At least one digit. *)
Definition some_digits (s : string) : option (Decimal.uint * string) :=
  match scan_digits s with
  | (Decimal.Nil, _) => None
  | (u, r) => Some (u, r)
  end.

(** The fraction: a point and at least one digit. *)
Definition scan_frac (s : string) : option (Decimal.uint * string) :=
  match s with
  | String c r => if Ascii.eqb c "." then some_digits r else None
  | "" => None
  end.

(** The exponent: [e] or [E], a sign or none, and at least one digit. *)
Definition scan_exp (s : string) : option (Z * string) :=
  match s with
  | String c r =>
      if Ascii.eqb c "e" || Ascii.eqb c "E" then
        match r with
        | String c' r1 =>
            if Ascii.eqb c' "-" then
              match some_digits r1 with
              | Some (u, r2) => Some (- Z.of_N (N.of_uint u), r2)
              | None => None
              end
            else if Ascii.eqb c' "+" then
              match some_digits r1 with
              | Some (u, r2) => Some (Z.of_N (N.of_uint u), r2)
              | None => None
              end
            else
              match some_digits r with
              | Some (u, r2) => Some (Z.of_N (N.of_uint u), r2)
              | None => None
              end
        | "" => None
        end
      else None
  | "" => None
  end.

(** The number that starts the text, after its sign: an [int] when it
    has neither fraction nor exponent, [float(text)] otherwise. *)
Definition scan_unsigned (neg : bool) (s : string) : option (json * string) :=
  match scan_intpart s with
  | None => None
  | Some (i, r) =>
      match scan_frac r with
      | Some (f, r1) =>
          let digits := Z.of_N (N.of_uint (Decimal.app i f)) in
          let places := Z.of_nat (Decimal.nb_digits f) in
          match scan_exp r1 with
          | Some (x, r2) =>
              Some (JFloat (Float.of_decimal neg digits (x - places)), r2)
          | None => Some (JFloat (Float.of_decimal neg digits (- places)), r1)
          end
      | None =>
          let digits := Z.of_N (N.of_uint i) in
          match scan_exp r with
          | Some (x, r2) => Some (JFloat (Float.of_decimal neg digits x), r2)
          | None => Some (JInt (if neg then - digits else digits), r)
          end
      end
  end.

(** [match_number], then [parse_int] or [parse_float]. *)
Definition scan_number (s : string) : option (json * string) :=
  match s with
  | String c r =>
      if Ascii.eqb c "-" then scan_unsigned true r else scan_unsigned false s
  | "" => None
  end.

(** [s] starts with [lit]: the text after it. *)
Fixpoint expect (lit s : string) : option string :=
  match lit with
  | "" => Some s
  | String c lit' =>
      match s with
      | String c' s' => if Ascii.eqb c c' then expect lit' s' else None
      | "" => None
      end
  end.

Definition with_rest {A B} (f : A -> B) (r : option (A * string))
    : option (B * string) :=
  match r with
  | Some (a, rest) => Some (f a, rest)
  | None => None
  end.

(** The value [v] when the text starts with [lit]. *)
Definition constant (lit : string) (v : json) (s : string)
    : option (json * string) :=
  match expect lit s with
  | Some rest => Some (v, rest)
  | None => None
  end.

(** The text after the character [c], when [s] starts with it. *)
Definition closes (c : ascii) (s : string) : option string :=
  match s with
  | String c' r => if Ascii.eqb c' c then Some r else None
  | "" => None
  end.

(** [scan_once], [JSONArray] and [JSONObject].  The recursion of the
    decoder is bounded by [fuel]; [loads] gives it more than the length of
    the text, which is never used up.  [None] is a [JSONDecodeError]. *)
Fixpoint parse_value (fuel : nat) (s : string) {struct fuel}
    : option (json * string) :=
  match fuel with
  | O => None
  | S n =>
      match skip_ws s with
      | "" => None
      | String c r as s' =>
          if Ascii.eqb c dquote then with_rest JStr (scanstring r)
          else if Ascii.eqb c "[" then
            match closes "]" (skip_ws r) with
            | Some r' => Some (JList [], r')
            | None => with_rest JList (parse_elements n r)
            end
          else if Ascii.eqb c "{" then
            match closes "}" (skip_ws r) with
            | Some r' => Some (JObj [], r')
            | None =>
                with_rest (fun p => JObj (dict_of_pairs p)) (parse_members n r)
            end
          else if Ascii.eqb c "n" then constant "ull" JNull r
          else if Ascii.eqb c "t" then constant "rue" (JBool true) r
          else if Ascii.eqb c "f" then constant "alse" (JBool false) r
          else
            match scan_number s' with
            | Some found => Some found
            | None =>
                if Ascii.eqb c "N" then constant "aN" (JFloat Float.NaN) r
                else if Ascii.eqb c "I" then
                  constant "nfinity" (JFloat (Float.Inf false)) r
                else if Ascii.eqb c "-" then
                  constant "Infinity" (JFloat (Float.Inf true)) r
                else None
            end
      end
  end

with parse_elements (fuel : nat) (s : string) {struct fuel}
    : option (list json * string) :=
  match fuel with
  | O => None
  | S n =>
      match parse_value n s with
      | Some (v, r) =>
          match closes "," (skip_ws r) with
          | Some r' => with_rest (cons v) (parse_elements n r')
          | None =>
              match closes "]" (skip_ws r) with
              | Some r' => Some ([v], r')
              | None => None
              end
          end
      | None => None
      end
  end

with parse_members (fuel : nat) (s : string) {struct fuel}
    : option (list (string * json) * string) :=
  match fuel with
  | O => None
  | S n =>
      match closes dquote (skip_ws s) with
      | Some r =>
          match scanstring r with
          | Some (k, r1) =>
              match closes ":" (skip_ws r1) with
              | Some r2 =>
                  match parse_value n r2 with
                  | Some (v, r3) =>
                      match closes "," (skip_ws r3) with
                      | Some r4 => with_rest (cons (k, v)) (parse_members n r4)
                      | None =>
                          match closes "}" (skip_ws r3) with
                          | Some r4 => Some ([(k, v)], r4)
                          | None => None
                          end
                      end
                  | None => None
                  end
              | None => None
              end
          | None => None
          end
      | None => None
      end
  end.

(** [JSONDecoder.decode]: one value, then nothing but whitespace. *)
Definition loads (s : string) : option json :=
  match parse_value (S (String.length s)) s with
  | Some (v, rest) => match skip_ws rest with "" => Some v | _ => None end
  | None => None
  end.

(** ** Notions used to state that [loads] inverts [dumps] *)

(** [float(repr(x)) == x] for a float that is no NaN: the digits that
    [repr] writes are a number of the JSON grammar which is read back as
    [x].  The interpreter promises it of every such float; here it is
    computed for the float at hand. *)
Definition reads_back (x : Float.float) : bool :=
  match x with
  | Float.NaN => false
  | Float.Inf _ => true
  | Float.Finite _ _ _ =>
      match scan_number (Float.repr x) with
      | Some (JFloat y, "") => Float.eqb x y
      | _ => false
      end
  end.

(** The values that come back from a file as they were: every
    dictionary inside the value has pairwise distinct keys, as every
    Python [dict] has, every string is the UTF-8 text of a [str] without
    surrogates, and no float is a NaN. *)
Fixpoint wf (v : json) : Prop :=
  match v with
  | JFloat x => reads_back x = true
  | JStr s => Utf8.valid s = true
  | JList l => (fix all (l : list json) : Prop :=
                  match l with [] => True | x :: l' => wf x /\ all l' end) l
  | JObj d => NoDup (map fst d) /\
              (fix all (d : dict) : Prop :=
                 match d with
                 | [] => True
                 | (k, x) :: d' => (Utf8.valid k = true /\ wf x) /\ all d'
                 end) d
  | _ => True
  end.

(** What follows a value in a document written by [dump]: nothing, the
    comma before the next item, or the line break before a closing
    bracket. *)
Definition follows (rest : string) : bool :=
  match rest with
  | "" => true
  | String c _ => Ascii.eqb c "," || Ascii.eqb c newline
  end.

Definition starts_digit (rest : string) : bool :=
  match rest with
  | String c _ => match digit_of c with Some _ => true | None => false end
  | "" => false
  end.

(** The first character of a number is a minus sign or a digit. *)
Definition starts_number (s : string) : bool :=
  match s with
  | String c _ =>
      Ascii.eqb c "-" ||
      match digit_of c with Some _ => true | None => false end
  | "" => false
  end.

(** The text read, with [rest] put after what remains. *)
Definition before {A} (rest : string) (r : option (A * string))
    : option (A * string) :=
  match r with
  | Some (a, tail) => Some (a, tail ++ rest)
  | None => None
  end.

(** Induction on a value, with the property in hand for the items of a
    list and the values of a dictionary. *)
Section Induction.
Variable P : json -> Prop.
Hypothesis HNull : P JNull.
Hypothesis HBool : forall b, P (JBool b).
Hypothesis HInt : forall z, P (JInt z).
Hypothesis HFloat : forall x, P (JFloat x).
Hypothesis HStr : forall s, P (JStr s).
Hypothesis HList : forall l, Forall P l -> P (JList l).
Hypothesis HObj : forall d, Forall (fun kv => P (snd kv)) d -> P (JObj d).

Fixpoint json_induction (v : json) : P v :=
  match v with
  | JNull => HNull
  | JBool b => HBool b
  | JInt z => HInt z
  | JFloat x => HFloat x
  | JStr s => HStr s
  | JList l =>
      HList l
        ((fix items (l : list json) : Forall P l :=
            match l with
            | [] => Forall_nil P
            | x :: l' => Forall_cons x (json_induction x) (items l')
            end) l)
  | JObj d =>
      HObj d
        ((fix members (d : dict) : Forall (fun kv => P (snd kv)) d :=
            match d with
            | [] => Forall_nil _
            | kv :: d' =>
                Forall_cons kv (json_induction (snd kv)) (members d')
            end) d)
  end.
End Induction.

(** The fuel that decoding a value takes. *)
Fixpoint size (v : json) : nat :=
  match v with
  | JList l => S (fold_right (fun x n => S (size x + n)) O l)
  | JObj d => S (fold_right (fun kv n => S (size (snd kv) + n)) O d)
  | _ => 1
  end.

Definition items_size (l : list json) : nat :=
  fold_right (fun x n => S (size x + n)) O l.

Definition members_size (d : dict) : nat :=
  fold_right (fun kv n => S (size (snd kv) + n)) O d.

(** The first character of a dumped value: not whitespace, and none of
    the characters that close a container or separate its items. *)
Definition opens (s : string) : Prop :=
  exists c t, s = String c t /\ is_ws c = false /\
              Ascii.eqb c "]" = false /\ Ascii.eqb c "}" = false.

(** Decoding the text of a value, followed by [rest], gives the value
    back and stops at [rest]. *)
Definition decodes (v : json) : Prop :=
  forall lvl rest fuel,
    follows rest = true ->
    (size v <= fuel)%nat ->
    parse_value fuel (dump lvl v ++ rest) = Some (v, rest).

(** The text of the value starts as a value does and is decoded. *)
Definition readable (v : json) : Prop :=
  (forall lvl rest, opens (dump lvl v ++ rest)) /\ decodes v.

End Json.

(* ===================================================================== *)
(** * [datetime]                                                          *)
(* ===================================================================== *)

Module DateTime.
Import Py.

(** A naive [datetime] is the number of microseconds since
    0001-01-01T00:00:00; a [timedelta] is a number of microseconds. *)
Definition usec_per_day : Z := 86400000000.

(** [datetime.max] is 9999-12-31T23:59:59.999999, the last microsecond of
    day 3652059. *)
Definition datetime_max : Z := 3652059 * usec_per_day - 1.

(** [timedelta(days=n)]: at most 999999999 days either way. *)
Definition timedelta_days (n : Z) : result Z :=
  if Z.abs n <=? 999999999 then Ok (n * usec_per_day) else Raise OverflowError.

(** [t + delta]: the sum has to be a date between year 1 and year 9999. *)
Definition add (t delta : Z) : result Z :=
  let r := t + delta in
  if (0 <=? r) && (r <=? datetime_max) then Ok r else Raise OverflowError.

(** [(a - b).days]: a [timedelta] is normalised with non-negative seconds
    and microseconds, so [days] rounds towards minus infinity. *)
Definition days_between (a b : Z) : Z := (a - b) / usec_per_day.

(** The two string conversions of the standard library that the license
    manager calls.  [fromisoformat] answers [None] where the library
    raises [ValueError]. *)
Class Lib : Type := {
  isoformat : Z -> string;
  fromisoformat : string -> option Z
}.

(** [datetime.fromisoformat(v)] on a value taken from a dictionary: a
    value that is not a [str] is a [TypeError]. *)
Definition fromisoformat_value {lib : Lib} (v : Json.json) : result Z :=
  match v with
  | Json.JStr s =>
      match fromisoformat s with
      | Some t => Ok t
      | None => Raise ValueError
      end
  | _ => Raise TypeError
  end.

(** ** The proleptic Gregorian calendar, for concrete runs *)

(** [_is_leap], [_days_before_year], [_days_in_month],
    [_days_before_month], [_ymd2ord] and [_ord2ymd] of the library; day 1
    is 0001-01-01. *)
Definition is_leap (y : Z) : bool :=
  (y mod 4 =? 0) && (negb (y mod 100 =? 0) || (y mod 400 =? 0)).

Definition days_before_year (y : Z) : Z :=
  let p := y - 1 in p * 365 + p / 4 - p / 100 + p / 400.

Definition days_in_month (y m : Z) : Z :=
  if m =? 2 then (if is_leap y then 29 else 28)
  else if (m =? 4) || (m =? 6) || (m =? 9) || (m =? 11) then 30
  else 31.

Definition days_before_month (y m : Z) : Z :=
  nth (Z.to_nat (m - 1))
      [0; 31; 59; 90; 120; 151; 181; 212; 243; 273; 304; 334] 0
  + (if (2 <? m) && is_leap y then 1 else 0).

Definition ymd2ord (y m d : Z) : Z :=
  days_before_year y + days_before_month y m + d.

Definition ord2ymd (ordinal : Z) : Z * Z * Z :=
  let n := ordinal - 1 in
  let n400 := n / 146097 in
  let n := n mod 146097 in
  let n100 := n / 36524 in
  let n := n mod 36524 in
  let n4 := n / 1461 in
  let n := n mod 1461 in
  let n1 := n / 365 in
  let n := n mod 365 in
  let year := n400 * 400 + 1 + n100 * 100 + n4 * 4 + n1 in
  if (n1 =? 4) || (n100 =? 4) then (year - 1, 12, 31)
  else
    let month := (n + 50) / 32 in
    let preceding := days_before_month year month in
    if n <? preceding then
      (year, month - 1, n - days_before_month year (month - 1) + 1)
    else (year, month, n - preceding + 1).

(** Midnight of a day. *)
Definition instant (y m d : Z) : Z := (ymd2ord y m d - 1) * usec_per_day.

Definition digit_char (n : Z) : ascii := ascii_of_N (48 + Z.to_N n).

(** ['%0{width}d' % n] *)
Fixpoint zero_padded (width : nat) (n : Z) : string :=
  match width with
  | O => ""
  | S w => zero_padded w (n / 10) ++ String (digit_char (n mod 10)) ""
  end.

(** [datetime.isoformat()]: [YYYY-MM-DDTHH:MM:SS], followed by [.ffffff]
    when the microseconds are not zero. *)
Definition format_iso (t : Z) : string :=
  let '(y, m, d) := ord2ymd (t / usec_per_day + 1) in
  let r := t mod usec_per_day in
  let us := r mod 1000000 in
  let s := r / 1000000 in
  zero_padded 4 y ++ "-" ++ zero_padded 2 m ++ "-" ++ zero_padded 2 d ++
  "T" ++ zero_padded 2 (s / 3600) ++ ":" ++ zero_padded 2 (s / 60 mod 60) ++
  ":" ++ zero_padded 2 (s mod 60) ++
  (if us =? 0 then "" else "." ++ zero_padded 6 us).

Definition digit_value (c : ascii) : option Z :=
  let n := Z.of_N (N_of_ascii c) in
  if (48 <=? n) && (n <=? 57) then Some (n - 48) else None.

(** Exactly [width] digits, and the text after them. *)
Fixpoint read_digits (width : nat) (acc : Z) (s : string)
    : option (Z * string) :=
  match width with
  | O => Some (acc, s)
  | S w =>
      match s with
      | String c r =>
          match digit_value c with
          | Some d => read_digits w (acc * 10 + d) r
          | None => None
          end
      | "" => None
      end
  end.

Definition obind {A B} (o : option A) (k : A -> option B) : option B :=
  match o with Some a => k a | None => None end.

Definition read_date (s : string) : option (Z * string) :=
  obind (read_digits 4 0 s) (fun '(y, s) =>
  obind (Json.closes "-" s) (fun s =>
  obind (read_digits 2 0 s) (fun '(m, s) =>
  obind (Json.closes "-" s) (fun s =>
  obind (read_digits 2 0 s) (fun '(d, s) =>
  if (1 <=? y) && (1 <=? m) && (m <=? 12) && (1 <=? d) &&
     (d <=? days_in_month y m)
  then Some (instant y m d, s) else None))))).

Definition read_time (s : string) : option Z :=
  obind (read_digits 2 0 s) (fun '(hh, s) =>
  obind (Json.closes ":" s) (fun s =>
  obind (read_digits 2 0 s) (fun '(mm, s) =>
  obind (Json.closes ":" s) (fun s =>
  obind (read_digits 2 0 s) (fun '(ss, s) =>
  obind (match s with
         | "" => Some 0
         | String "." f =>
             match read_digits 6 0 f with
             | Some (us, "") => Some us
             | _ => None
             end
         | _ => None
         end) (fun us =>
  if (hh <? 24) && (mm <? 60) && (ss <? 60)
  then Some (((hh * 60 + mm) * 60 + ss) * 1000000 + us) else None)))))).

(** [datetime.fromisoformat] on the texts that [isoformat] writes for a
    naive [datetime], and on a date alone; any one character separates
    the date from the time.  Other texts, among them those with a time
    zone, are not read. *)
Definition parse_iso (s : string) : option Z :=
  obind (read_date s) (fun '(day, s) =>
  match s with
  | "" => Some day
  | String _ s' => obind (read_time s') (fun t => Some (day + t))
  end).

Definition iso_lib : Lib :=
  {| isoformat := format_iso; fromisoformat := parse_iso |}.

End DateTime.

(* ===================================================================== *)
(** * core/license_manager.py                                             *)
(* ===================================================================== *)

Module LicenseManager.
Import Py Py.Notations Json.
#[local] Open Scope py_scope.

Inductive LicenseStatus : Type :=
| VALID
| TRIAL
| TRIAL_EXPIRED
| EXPIRED
| INVALID
| NO_LICENSE
| OFFLINE.

(** A [LicenseManager] together with the file it owns.  [license_file] is
    the content of [config_dir / "license.json"], [None] while the file
    does not exist; writing the file always succeeds. *)
Record t : Type := mk {
  server_url : string;
  trial_days : Z;
  license_file : option string;
  _license_data : dict;
  _device_id : string;
  _status : LicenseStatus
}.

Definition set_license_data (d : dict) (self : t) : t :=
  mk self.(server_url) self.(trial_days) self.(license_file) d
     self.(_device_id) self.(_status).

Definition set_license_file (f : option string) (self : t) : t :=
  mk self.(server_url) self.(trial_days) f self.(_license_data)
     self.(_device_id) self.(_status).

Definition set_status (s : LicenseStatus) (self : t) : t :=
  mk self.(server_url) self.(trial_days) self.(license_file)
     self.(_license_data) self.(_device_id) s.

(** What [requests.post] does: the server answers with a status code and
    a body ([None]: a body that [response.json()] cannot decode), or the
    request raises a [RequestException]. *)
Inductive http_outcome : Type :=
| Responds (status_code : Z) (body : option json)
| Fails.

(** The world around one call: the server, by URL and JSON payload, the
    clock read by [datetime.now()] and [platform.system()]. *)
Record Env : Type := {
  post : string -> json -> http_outcome;
  now : Z;
  platform_system : string
}.

(** The texts returned by [activate_license], up to formatting:
    ["Licencja aktywowana pomyslnie!"], ["Blad aktywacji: {error}"] (with
    [None] for the default error text, ["Nieznany blad"]) and
    ["Blad polaczenia: {e}"]. *)
Inductive message : Type :=
| Activated
| ActivationError (error : option json)
| ConnectionError (e : exn).

(** [requests.post(url, json=payload, timeout=10)] *)
Definition requests_post (env : Env) (url : string) (payload : json)
    : M t (Z * option json) :=
  match env.(post) url payload with
  | Responds code body => ret (code, body)
  | Fails => raise RequestException
  end.

(** [response.json()] *)
Definition response_json (body : option json) : M t json :=
  match body with
  | Some v => ret v
  | None => raise JSONDecodeError
  end.

(** [_load_license]: the file, when it exists, replaces the data; a file
    that does not decode gives the empty dictionary.  [None]: the file
    holds a JSON document that is not an object, which the declared type
    [Dict[str, Any]] of [_license_data] excludes. *)
Definition _load_license (self : t) : option t :=
  match self.(license_file) with
  | None => Some self
  | Some text =>
      match loads text with
      | Some (JObj d) => Some (set_license_data d self)
      | Some _ => None
      | None => Some (set_license_data [] self)
      end
  end.

(** [_save_license]: [json.dump(self._license_data, f, indent=2,
    default=str)]; [default] is never called on a [json] value. *)
Definition _save_license : M t unit :=
  modify (fun self =>
    set_license_file (Some (dumps (JObj self.(_license_data)))) self).

Definition get_status (self : t) : LicenseStatus := self.(_status).

Definition get_email (self : t) : option json :=
  dict_lookup self.(_license_data) "email".

Section Methods.
Context {lib : DateTime.Lib}.

Definition get_trial_days_left (env : Env) (self : t) : result Z :=
  match dict_lookup self.(_license_data) "trial_start" with
  | None => Ok self.(trial_days)
  | Some v =>
      rbind (DateTime.fromisoformat_value v) (fun trial_start =>
      rbind (DateTime.timedelta_days self.(trial_days)) (fun delta =>
      rbind (DateTime.add trial_start delta) (fun trial_end =>
      let remaining := DateTime.days_between trial_end env.(now) in
      Ok (Z.max 0 remaining))))
  end.

Definition get_expiry_date (self : t) : result (option Z) :=
  match dict_lookup self.(_license_data) "expiry_date" with
  | Some v => rbind (DateTime.fromisoformat_value v) (fun d => Ok (Some d))
  | None => Ok None
  end.

(** The local trial that [start_trial] falls back to. *)
Definition start_offline_trial (env : Env) (email : string) : M t bool :=
  modify (set_license_data
    [("email", JStr email);
     ("trial_start", JStr (DateTime.isoformat env.(now)));
     ("license_type", JStr "trial_offline")]) ;;;
  _save_license ;;;
  modify (set_status TRIAL) ;;;
  ret true.

Definition start_trial (env : Env) (email : string) : M t bool :=
  try_except
    (self <- get ;;
     response <- requests_post env (self.(server_url) ++ "/license/trial")
       (JObj [("email", JStr email);
              ("device_id", JStr self.(_device_id));
              ("platform", JStr env.(platform_system));
              ("app_version", JStr "1.0.0")]) ;;
     if fst response =? 200 then
       data <- response_json (snd response) ;;
       modify (set_license_data
         [("email", JStr email);
          ("trial_start", JStr (DateTime.isoformat env.(now)));
          ("license_type", JStr "trial");
          ("server_response", data)]) ;;;
       _save_license ;;;
       modify (set_status TRIAL) ;;;
       ret true
     else
       start_offline_trial env email)
    is_RequestException
    (fun _ => start_offline_trial env email).

Definition activate_license (env : Env) (license_key : string)
    : M t (bool * message) :=
  try_except
    (self <- get ;;
     response <- requests_post env (self.(server_url) ++ "/license/activate")
       (JObj [("license_key", JStr license_key);
              ("device_id", JStr self.(_device_id));
              ("email", dict_get self.(_license_data) "email" (JStr ""));
              ("platform", JStr env.(platform_system))]) ;;
     if fst response =? 200 then
       data <- response_json (snd response) ;;
       license_type <- lift (obj_get data "license_type" (JStr "pro")) ;;
       expiry_date <- lift (obj_get data "expiry_date" JNull) ;;
       modify (fun self => set_license_data
         (dict_update self.(_license_data)
            [("license_key", JStr license_key);
             ("license_type", license_type);
             ("expiry_date", expiry_date);
             ("activated_at", JStr (DateTime.isoformat env.(now)))]) self) ;;;
       _save_license ;;;
       modify (set_status VALID) ;;;
       ret (true, Activated)
     else
       data <- response_json (snd response) ;;
       error <- lift (obj_lookup data "error") ;;
       ret (false, ActivationError error))
    is_RequestException
    (fun e => ret (false, ConnectionError e)).

(** The cached validation of a paid license when the request fails. *)
Definition validate_cached (env : Env) : M t unit :=
  self <- get ;;
  expiry <- lift (get_expiry_date self) ;;
  match expiry with
  | Some d =>
      if d <? env.(now) then modify (set_status EXPIRED)
      else modify (set_status OFFLINE)
  | None => modify (set_status OFFLINE)
  end.

Definition validate (env : Env) : M t LicenseStatus :=
  self <- get ;;
  match self.(_license_data) with
  | [] =>
      modify (set_status NO_LICENSE) ;;;
      self <- get ;; ret self.(_status)
  | _ :: _ =>
      let license_type := dict_get self.(_license_data) "license_type" (JStr "") in
      if eq_str license_type "trial" || eq_str license_type "trial_offline" then
        days_left <- lift (get_trial_days_left env self) ;;
        (if days_left >? 0 then modify (set_status TRIAL)
         else modify (set_status TRIAL_EXPIRED)) ;;;
        self <- get ;; ret self.(_status)
      else if eq_str license_type "pro" || eq_str license_type "lifetime" then
        try_except
          (response <- requests_post env (self.(server_url) ++ "/license/validate")
             (JObj [("license_key", dict_get self.(_license_data) "license_key" (JStr ""));
                    ("device_id", JStr self.(_device_id))]) ;;
           if fst response =? 200 then
             data <- response_json (snd response) ;;
             valid <- lift (obj_get data "valid" JNull) ;;
             if truthy valid then
               expiry_date <- lift (obj_get data "expiry_date" JNull) ;;
               modify (fun self => set_license_data
                 (dict_set self.(_license_data) "expiry_date" expiry_date) self) ;;;
               _save_license ;;;
               self <- get ;;
               expiry <- lift (get_expiry_date self) ;;
               match expiry with
               | Some d =>
                   if d <? env.(now) then modify (set_status EXPIRED)
                   else modify (set_status VALID)
               | None => modify (set_status VALID)
               end
             else
               modify (set_status INVALID)
           else
             modify (set_status OFFLINE))
          is_RequestException
          (fun _ => validate_cached env) ;;;
        self <- get ;; ret self.(_status)
      else
        modify (set_status NO_LICENSE) ;;;
        self <- get ;; ret self.(_status)
  end.

Definition can_use_app (env : Env) : M t bool :=
  status <- validate env ;;
  ret (match status with
       | VALID | TRIAL | OFFLINE => true
       | _ => false
       end).

Definition clear_license : M t unit :=
  modify (set_license_data []) ;;;
  modify (set_license_file None) ;;;
  modify (set_status NO_LICENSE).

(** ** Notions used to state the properties of the methods *)

(** The statuses in which [can_use_app] answers [True]. *)
Definition admits (s : LicenseStatus) : bool :=
  match s with
  | VALID | TRIAL | OFFLINE => true
  | _ => false
  end.

(** The request that [validate] sends for a paid license. *)
Definition validate_request (env : Env) (self : t) : http_outcome :=
  env.(post) (self.(server_url) ++ "/license/validate")
    (JObj [("license_key", dict_get self.(_license_data) "license_key" (JStr ""));
           ("device_id", JStr self.(_device_id))]).

Definition paid (self : t) : Prop :=
  dict_lookup self.(_license_data) "license_type" = Some (JStr "pro") \/
  dict_lookup self.(_license_data) "license_type" = Some (JStr "lifetime").

(** The request that [activate_license] sends. *)
Definition activate_request (env : Env) (license_key : string) (self : t)
    : http_outcome :=
  env.(post) (self.(server_url) ++ "/license/activate")
    (JObj [("license_key", JStr license_key);
           ("device_id", JStr self.(_device_id));
           ("email", dict_get self.(_license_data) "email" (JStr ""));
           ("platform", JStr env.(platform_system))]).

(** The data and the manager after a successful activation. *)
Definition activated_data (env : Env) (license_key : string) (self : t)
    (d : dict) : dict :=
  dict_update self.(_license_data)
    [("license_key", JStr license_key);
     ("license_type", dict_get d "license_type" (JStr "pro"));
     ("expiry_date", dict_get d "expiry_date" JNull);
     ("activated_at", JStr (DateTime.isoformat env.(now)))].

Definition saved_with (data : dict) (s : LicenseStatus) (self : t) : t :=
  set_status s
    (set_license_file (Some (dumps (JObj data))) (set_license_data data self)).

(** The request that [start_trial] sends. *)
Definition trial_request (env : Env) (email : string) (self : t)
    : http_outcome :=
  env.(post) (self.(server_url) ++ "/license/trial")
    (JObj [("email", JStr email);
           ("device_id", JStr self.(_device_id));
           ("platform", JStr env.(platform_system));
           ("app_version", JStr "1.0.0")]).

(** The license type that [start_trial] records: ['trial'] after an
    answer 200 with a JSON body, ['trial_offline'] on every other path. *)
Definition trial_type (r : http_outcome) : string :=
  match r with
  | Responds code (Some _) => if code =? 200 then "trial" else "trial_offline"
  | _ => "trial_offline"
  end.

End Methods.

(** [LicenseManager(license_server_url, trial_days, config_dir)] on a
    configuration directory whose license file holds [file]: the fields
    take their initial values and the license is loaded.  The device
    identifier, which no operation below computes with, is given. *)
Definition init (license_server_url : string) (trial_days : Z)
    (file : option string) (device_id : string) : option t :=
  _load_license (mk license_server_url trial_days file [] device_id NO_LICENSE).

Definition default_server_url : string :=
  "https://license.srv1251441.hstgr.cloud/api".

Definition default_trial_days : Z := 30.

End LicenseManager.

(* ===================================================================== *)
(** * Unicode text                                                        *)
(* ===================================================================== *)

Module Text.

(** A [str] as the list of its code points. *)
Definition text : Type := list N.

Definition of_string (s : string) : text :=
  map N_of_ascii (list_ascii_of_string s).

(** [str.isspace] on one code point ([_PyUnicode_IsWhitespace]). *)
Definition isspace (c : N) : bool :=
  ((9 <=? c) && (c <=? 13) || (28 <=? c) && (c <=? 32) ||
   (c =? 133) || (c =? 160) || (c =? 5760) ||
   (8192 <=? c) && (c <=? 8202) || (c =? 8232) || (c =? 8233) ||
   (c =? 8239) || (c =? 8287) || (c =? 12288))%N.

Fixpoint lstrip (s : text) : text :=
  match s with
  | c :: s' => if isspace c then lstrip s' else s
  | [] => []
  end.

Definition rstrip (s : text) : text := rev (lstrip (rev s)).

(** [s.strip()] *)
Definition strip (s : text) : text := rstrip (lstrip s).

(** Truth value of a [str]. *)
Definition nonempty (s : text) : bool :=
  match s with [] => false | _ :: _ => true end.

End Text.

(* ===================================================================== *)
(** * core/claude_bridge.py                                               *)
(* ===================================================================== *)

Module ClaudeBridge.
Import Text.

(** The bridge.  A callback attribute is [true] when a callable is
    connected; its calls appear in the trace.  [current_process] tells
    whether a [Popen] object is held. *)
Record t : Type := mk {
  command : text;
  running : bool;
  current_process : bool;
  on_output : bool;
  on_response_complete : bool;
  on_error : bool
}.

Definition set_current_process (p : bool) (self : t) : t :=
  mk self.(command) self.(running) p self.(on_output)
     self.(on_response_complete) self.(on_error).

(** What the bridge does to the outside, in order.  Writes to the debug
    log are left out: [debug_log] swallows its own failures and returns
    nothing. *)
Inductive event : Type :=
| Popen (args : list text)
| Wait
| ReadStderr
| ThreadStart (query : text)
| OnOutput (chunk : text)
| OnResponseComplete (response : text)
| OnError (msg : text).

(** What [subprocess.Popen] meets: a child whose standard output is read
    line by line to its end, or an exception with the given text. *)
Inductive child : Type :=
| Runs (stdout : list text) (stderr : text)
| PopenRaises (msg : text).

(** ["⏳ Processing...\n"] *)
Definition processing_notice : text :=
  9203%N :: of_string (" Processing..." ++ String "010" "").

(** [if cb: cb(arg)] *)
Definition call (connected : bool) (e : event) : list event :=
  if connected then [e] else [].

(** The loop [for line in self.current_process.stdout], from the lines
    still to come and the response accumulated so far: the response at
    the end and the calls made. *)
Fixpoint read_output (self : t) (lines : list text) (response_text : text)
    : text * list event :=
  match lines with
  | [] => (response_text, [])
  | line :: rest =>
      let (r, evs) := read_output self rest (response_text ++ line)%list in
      (r, (call self.(on_output) (OnOutput line) ++ evs)%list)
  end.

(** [_execute_query(text)] run against the child [c]: the trace and the
    bridge afterwards. *)
Definition _execute_query (c : child) (query : text) (self : t)
    : list event * t :=
  let notice := call self.(on_output) (OnOutput processing_notice) in
  let launch := Popen [self.(command); of_string "--print"; query] in
  match c with
  | Runs stdout stderr =>
      let (response_text, streamed) := read_output self stdout [] in
      let complete :=
        if self.(on_response_complete) && nonempty (strip response_text)
        then [OnResponseComplete response_text] else [] in
      ((notice ++ [launch] ++ streamed ++ [Wait; ReadStderr] ++ complete)%list,
       set_current_process false self)
  | PopenRaises msg =>
      ((notice ++ [launch] ++
        call self.(on_error) (OnError (of_string "Error: " ++ msg)))%list,
       set_current_process false self)
  end.

(** [send(text)]: the query goes to a new daemon thread, unless the
    bridge is not running. *)
Definition send (query : text) (self : t) : list event :=
  if self.(running) then [ThreadStart query] else [].

End ClaudeBridge.

(* ===================================================================== *)
(** * core/stt_engine.py                                                  *)
(* ===================================================================== *)

Module STTEngine.

Inductive STTState : Type :=
| IDLE
| RECORDING
| PROCESSING.

Definition STTState_eqb (a b : STTState) : bool :=
  match a, b with
  | IDLE, IDLE | RECORDING, RECORDING | PROCESSING, PROCESSING => true
  | _, _ => false
  end.

(** A block of 16-bit samples delivered by the input stream. *)
Definition block : Type := list Z.

(** The engine.  [_recording_thread] tells whether a thread object is
    held, [_stop_recording] is the flag of the [threading.Event]; a
    callback attribute is [true] when a callable is connected. *)
Record t : Type := mk {
  api_key : string;
  api_url : string;
  sample_rate : Z;
  channels : Z;
  language : string;
  state : STTState;
  _audio_buffer : list block;
  _recording_thread : bool;
  _stop_recording : bool;
  on_state_changed : bool;
  on_transcription : bool;
  on_error : bool
}.

Definition default_api_url : string :=
  "https://api.groq.com/openai/v1/audio/transcriptions".

(** [STTEngine(api_key)] with no callback connected. *)
Definition init (api_key : string) : t :=
  mk api_key default_api_url 16000 1 "pl" IDLE [] false false
     false false false.

Definition set_state_field (s : STTState) (self : t) : t :=
  mk self.(api_key) self.(api_url) self.(sample_rate) self.(channels)
     self.(language) s self.(_audio_buffer) self.(_recording_thread)
     self.(_stop_recording) self.(on_state_changed) self.(on_transcription)
     self.(on_error).

Definition set_audio_buffer (b : list block) (self : t) : t :=
  mk self.(api_key) self.(api_url) self.(sample_rate) self.(channels)
     self.(language) self.(state) b self.(_recording_thread)
     self.(_stop_recording) self.(on_state_changed) self.(on_transcription)
     self.(on_error).

Definition set_recording_thread (b : bool) (self : t) : t :=
  mk self.(api_key) self.(api_url) self.(sample_rate) self.(channels)
     self.(language) self.(state) self.(_audio_buffer) b
     self.(_stop_recording) self.(on_state_changed) self.(on_transcription)
     self.(on_error).

Definition set_stop_recording (b : bool) (self : t) : t :=
  mk self.(api_key) self.(api_url) self.(sample_rate) self.(channels)
     self.(language) self.(state) self.(_audio_buffer)
     self.(_recording_thread) b self.(on_state_changed)
     self.(on_transcription) self.(on_error).

Inductive target : Type :=
| record_audio
| transcribe_audio.

(** What the engine does to the outside, in order. *)
Inductive event : Type :=
| StateChanged (s : STTState)
| ThreadStart (f : target)
| ThreadJoin
| WriteWav (path : string) (nchannels sampwidth framerate : Z) (frames : list Z)
| TempWav (path : string)
| HttpPost (url key path model lang : string)
| RemoveFile (path : string)
| OnTranscription (text : string)
| OnError (msg : string).

(** The world around one call: what [_save_wav] meets, what
    [requests.post] does (a status code and a body, or an exception with
    its text), and whether the recording thread is still alive when it is
    joined.  [_save_wav] creates a temporary file and fills it
    ([Written], recorded as [WriteWav]), or fails to create it
    ([WriteFails], with the text of the exception), or creates it and
    then fails to fill it ([WriteAborted]: the file, recorded as
    [TempWav], exists when the exception leaves [_save_wav]). *)
Inductive wav_outcome : Type :=
| Written (path : string)
| WriteFails (msg : string)
| WriteAborted (path msg : string).

Inductive upload_outcome : Type :=
| Responds (status_code : Z) (text : string)
| Fails (msg : string).

Record Env : Type := {
  temp_wav : wav_outcome;
  post : upload_outcome;
  recording_alive : bool
}.

Definition call (connected : bool) (e : event) : list event :=
  if connected then [e] else [].

(** [s.strip()] on a [string] *)
Definition strip (s : string) : string :=
  string_of_list_ascii
    (map ascii_of_N (Text.strip (Text.of_string s))).

(** [_set_state] *)
Definition _set_state (s : STTState) (self : t) : list event * t :=
  (call self.(on_state_changed) (StateChanged s), set_state_field s self).

(** [start_recording] *)
Definition start_recording (self : t) : list event * t :=
  if negb (STTState_eqb self.(state) IDLE) then ([], self)
  else
    let self := set_audio_buffer [] self in
    let self := set_stop_recording false self in
    let (evs, self) := _set_state RECORDING self in
    ((evs ++ [ThreadStart record_audio])%list, set_recording_thread true self).

(** [audio_callback], run by the input stream on the recording thread
    with a block of samples. *)
Definition audio_callback (indata : block) (self : t) : t :=
  set_audio_buffer (self.(_audio_buffer) ++ [indata])%list self.

(** [stop_recording] *)
Definition stop_recording (env : Env) (self : t) : list event * t :=
  if negb (STTState_eqb self.(state) RECORDING) then ([], self)
  else
    let self := set_stop_recording true self in
    let join :=
      if self.(_recording_thread) && env.(recording_alive)
      then [ThreadJoin] else [] in
    match self.(_audio_buffer) with
    | _ :: _ =>
        let (evs, self) := _set_state PROCESSING self in
        ((join ++ evs ++ [ThreadStart transcribe_audio])%list, self)
    | [] =>
        let (evs, self) := _set_state IDLE self in
        ((join ++ evs)%list, self)
    end.

(** [cancel_recording] *)
Definition cancel_recording (env : Env) (self : t) : list event * t :=
  let self := set_stop_recording true self in
  let join :=
    if self.(_recording_thread) && env.(recording_alive)
    then [ThreadJoin] else [] in
  let self := set_audio_buffer [] self in
  let (evs, self) := _set_state IDLE self in
  ((join ++ evs)%list, self).

(** [_save_wav]: the path of the file written, or the text of the
    exception.  The temporary file is created first and filled
    afterwards, so an exception of [wave.open] or [writeframes] finds
    the file in place. *)
Definition _save_wav (env : Env) (audio_data : list Z) (self : t)
    : list event * (string + string) :=
  match env.(temp_wav) with
  | Written path =>
      ([WriteWav path self.(channels) 2 self.(sample_rate) audio_data],
       inl path)
  | WriteFails msg => ([], inr msg)
  | WriteAborted path msg => ([TempWav path], inr msg)
  end.

(** [_send_to_groq]: the transcript, or the text of the exception. *)
Definition _send_to_groq (env : Env) (audio_path : string) (self : t)
    : list event * (string + string) :=
  let request :=
    HttpPost self.(api_url) self.(api_key) audio_path "whisper-large-v3"
      self.(language) in
  match env.(post) with
  | Responds code text =>
      if code =? 200 then ([request], inl (strip text))
      else ([request],
            inr ("API error " ++ Json.dump_int code ++ ": " ++ text))
  | Fails msg => ([request], inr msg)
  end.

(** [_transcribe_audio] *)
Definition _transcribe_audio (env : Env) (self : t) : list event * t :=
  let body : list event :=
    if String.eqb self.(api_key) "" then
      call self.(on_error) (OnError "Transcription error: Groq API key not set")
    else
      match self.(_audio_buffer) with
      | [] => call self.(on_error) (OnError "Transcription error: need at least one array to concatenate")
      | _ :: _ =>
          let audio_data := List.concat self.(_audio_buffer) in
          match _save_wav env audio_data self with
          | (evs, inr msg) =>
              (evs ++ call self.(on_error)
                        (OnError ("Transcription error: " ++ msg)))%list
          | (evs, inl wav_path) =>
              let (sent, r) := _send_to_groq env wav_path self in
              match r with
              | inl text =>
                  (evs ++ sent ++
                   (if negb (String.eqb text "") && self.(on_transcription)
                    then [OnTranscription text] else []) ++
                   [RemoveFile wav_path])%list
              | inr msg =>
                  (evs ++ sent ++ [RemoveFile wav_path] ++
                   call self.(on_error)
                     (OnError ("Transcription error: " ++ msg)))%list
              end
          end
      end in
  let self := set_audio_buffer [] self in
  let (evs, self) := _set_state IDLE self in
  ((body ++ evs)%list, self).

(** The events that write the WAV file or post it. *)
Definition is_upload (e : event) : bool :=
  match e with
  | WriteWav _ _ _ _ _ | HttpPost _ _ _ _ _ => true
  | _ => false
  end.

End STTEngine.

(* ===================================================================== *)
(** * core/tts_engine.py                                                  *)
(* ===================================================================== *)

Module TTSEngine.

Inductive TTSState : Type :=
| IDLE
| GENERATING
| PLAYING
| PAUSED
| STOPPED.

Definition TTSState_eqb (a b : TTSState) : bool :=
  match a, b with
  | IDLE, IDLE | GENERATING, GENERATING | PLAYING, PLAYING
  | PAUSED, PAUSED | STOPPED, STOPPED => true
  | _, _ => false
  end.

(** The engine.  [_play_thread] tells whether a thread object is held;
    [_stop_event] and [_pause_event] are the flags of the two
    [threading.Event]s; a callback attribute is [true] when a callable is
    connected. *)
Record t : Type := mk {
  voice : string;
  rate : string;
  volume : string;
  state : TTSState;
  _current_text : string;
  _sentences : list string;
  _current_sentence_index : Z;
  _temp_files : list string;
  _play_thread : bool;
  _stop_event : bool;
  _pause_event : bool;
  on_state_changed : bool
}.

(** [TTSEngine()] with no callback connected. *)
Definition init : t :=
  mk "pl-PL-ZofiaNeural" "+0%" "+0%" IDLE "" [] 0 [] false false true false.

Definition set_state_field (s : TTSState) (self : t) : t :=
  mk self.(voice) self.(rate) self.(volume) s self.(_current_text)
     self.(_sentences) self.(_current_sentence_index) self.(_temp_files)
     self.(_play_thread) self.(_stop_event) self.(_pause_event)
     self.(on_state_changed).

Definition set_temp_files (l : list string) (self : t) : t :=
  mk self.(voice) self.(rate) self.(volume) self.(state) self.(_current_text)
     self.(_sentences) self.(_current_sentence_index) l
     self.(_play_thread) self.(_stop_event) self.(_pause_event)
     self.(on_state_changed).

Definition set_stop_event (b : bool) (self : t) : t :=
  mk self.(voice) self.(rate) self.(volume) self.(state) self.(_current_text)
     self.(_sentences) self.(_current_sentence_index) self.(_temp_files)
     self.(_play_thread) b self.(_pause_event) self.(on_state_changed).

Definition set_pause_event (b : bool) (self : t) : t :=
  mk self.(voice) self.(rate) self.(volume) self.(state) self.(_current_text)
     self.(_sentences) self.(_current_sentence_index) self.(_temp_files)
     self.(_play_thread) self.(_stop_event) b self.(on_state_changed).

(** What the engine does to the outside, in order. *)
Inductive event : Type :=
| StateChanged (s : TTSState)
| MusicPause
| MusicUnpause
| MusicStop
| ThreadJoin
| RemoveFile (path : string).

(** The world around one call: which temporary files still exist and
    whether the playback thread is still alive when it is joined. *)
Record Env : Type := {
  exists_file : string -> bool;
  play_alive : bool
}.

(** [_set_state] *)
Definition _set_state (s : TTSState) (self : t) : list event * t :=
  ((if self.(on_state_changed) then [StateChanged s] else []),
   set_state_field s self).

(** [pause] *)
Definition pause (self : t) : list event * t :=
  if TTSState_eqb self.(state) PLAYING then
    let self := set_pause_event false self in
    let (evs, self) := _set_state PAUSED self in
    (MusicPause :: evs, self)
  else ([], self).

(** [resume] *)
Definition resume (self : t) : list event * t :=
  if TTSState_eqb self.(state) PAUSED then
    let self := set_pause_event true self in
    let (evs, self) := _set_state PLAYING self in
    (MusicUnpause :: evs, self)
  else ([], self).

(** [_cleanup_temp_files] *)
Definition _cleanup_temp_files (env : Env) (self : t) : list event * t :=
  (map RemoveFile (filter env.(exists_file) self.(_temp_files)),
   set_temp_files [] self).

(** [stop] *)
Definition stop (env : Env) (self : t) : list event * t :=
  let self := set_stop_event true self in
  let self := set_pause_event true self in
  let join :=
    if self.(_play_thread) && env.(play_alive) then [ThreadJoin] else [] in
  let (removed, self) := _cleanup_temp_files env self in
  let (evs, self) := _set_state IDLE self in
  (([MusicStop] ++ join ++ removed ++ evs)%list, self).

(** [toggle_pause] *)
Definition toggle_pause (self : t) : list event * t :=
  if TTSState_eqb self.(state) PLAYING then pause self
  else if TTSState_eqb self.(state) PAUSED then resume self
  else ([], self).

(** [is_playing] *)
Definition is_playing (self : t) : bool :=
  match self.(state) with
  | PLAYING | PAUSED | GENERATING => true
  | _ => false
  end.

End TTSEngine.

(* ===================================================================== *)
(** * Notions about the license manager as a whole                        *)
(* ===================================================================== *)

Module LicenseInvariants.
Import Json LicenseManager.

(** The manager after [validate] has stored the expiry date [v] sent by
    the server and saved the license. *)
Definition cache_expiry (v : json) (self : t) : t :=
  let data := dict_set self.(_license_data) "expiry_date" v in
  set_license_file (Some (dumps (JObj data))) (set_license_data data self).

(** The license file holds what the manager holds: the text that
    [_save_license] writes for the data, or no file and no data. *)
Definition synced (self : t) : Prop :=
  self.(license_file) = Some (dumps (JObj self.(_license_data))) \/
  (self.(license_file) = None /\ self.(_license_data) = []).

(** Two managers with the same configuration and the same license data,
    the key ['expiry_date'] apart. *)
Definition same_license (self self' : t) : Prop :=
  self'.(server_url) = self.(server_url) /\
  self'.(trial_days) = self.(trial_days) /\
  self'.(_device_id) = self.(_device_id) /\
  forall k, k <> "expiry_date" ->
    dict_lookup self'.(_license_data) k = dict_lookup self.(_license_data) k.

(** The license types that [validate] knows. *)
Definition known_types : list string :=
  ["trial"; "trial_offline"; "pro"; "lifetime"].

End LicenseInvariants.

(* ===================================================================== *)
(** * core/claude_bridge.py: starting and stopping                        *)
(* ===================================================================== *)

Module BridgeControl.
Import Text ClaudeBridge.

Definition set_running (b : bool) (self : t) : t :=
  mk self.(command) b self.(current_process) self.(on_output)
     self.(on_response_complete) self.(on_error).

(** What [subprocess.run([command, '--version'], ...)] meets: the
    command runs to its end (whatever it prints and whatever its exit
    code, which is not checked), the command does not exist, or another
    exception with the given text (a timeout, a permission error). *)
Inductive version_check : Type :=
| Completed (stdout : text)
| FileNotFound
| Failed (msg : text).

(** What these methods do to the outside, beside the callbacks. *)
Inductive action : Type :=
| RunVersion (args : list text)
| Terminate
| CallError (msg : text).

(** [start]: the answer and the bridge afterwards. *)
Definition start (v : version_check) (self : t) : list action * bool * t :=
  let run := RunVersion [self.(command); of_string "--version"] in
  match v with
  | Completed _ => ([run], true, set_running true self)
  | FileNotFound =>
      (run ::
       (if self.(on_error)
        then [CallError (of_string "Command '" ++ self.(command) ++
                         of_string "' not found. Is Claude Code installed?")]
        else []),
       false, self)
  | Failed msg =>
      (run ::
       (if self.(on_error)
        then [CallError (of_string "Failed to start Claude Code: " ++ msg)]
        else []),
       false, self)
  end%list.

(** [stop] *)
Definition stop (self : t) : list action * t :=
  let self' := set_running false self in
  if self'.(current_process)
  then ([Terminate], set_current_process false self')
  else ([], self').

(** [send_interrupt] *)
Definition send_interrupt (self : t) : list action :=
  if self.(current_process) then [Terminate] else [].

(** [is_running] *)
Definition is_running (self : t) : bool := self.(running).

(** [ClaudeBridge(command)] *)
Definition init (command : text) : t :=
  mk command false false false false false.

Definition is_popen (e : event) : bool :=
  match e with Popen _ => true | _ => false end.

Definition is_complete (e : event) : bool :=
  match e with OnResponseComplete _ => true | _ => false end.

Definition is_error (e : event) : bool :=
  match e with OnError _ => true | _ => false end.

End BridgeControl.

(* ===================================================================== *)
(** * core/stt_engine.py: input devices                                   *)
(* ===================================================================== *)

Module STTDevices.

Section Devices.
(** The type of a sample rate, a [float] that is only passed on. *)
Variable rate : Type.

(** An entry of [sd.query_devices()]. *)
Record device : Type := {
  name : string;
  max_input_channels : Z;
  default_samplerate : rate
}.

(** An entry of the answer of [get_available_devices]. *)
Record input : Type := {
  id : Z;
  input_name : string;
  channels : Z;
  sample_rate : rate
}.

(** The loop over [enumerate(sd.query_devices())], from index [i]. *)
Fixpoint devices_from (i : Z) (l : list device) : list input :=
  match l with
  | [] => []
  | d :: l' =>
      if d.(max_input_channels) >? 0
      then {| id := i; input_name := d.(name);
              channels := d.(max_input_channels);
              sample_rate := d.(default_samplerate) |}
           :: devices_from (i + 1) l'
      else devices_from (i + 1) l'
  end.

(** [get_available_devices] *)
Definition get_available_devices (l : list device) : list input :=
  devices_from 0 l.

End Devices.

Arguments name {rate} _.
Arguments max_input_channels {rate} _.
Arguments default_samplerate {rate} _.
Arguments id {rate} _.
Arguments input_name {rate} _.
Arguments channels {rate} _.
Arguments sample_rate {rate} _.
Arguments get_available_devices {rate} _.
Arguments devices_from {rate} _ _.

End STTDevices.

(* ===================================================================== *)
(** * Notions about a dictation                                           *)
(* ===================================================================== *)

Module STTSession.
Import STTEngine.

(** The blocks that the input stream delivers, one after the other. *)
Definition record_blocks (blocks : list block) (self : t) : t :=
  fold_left (fun s b => audio_callback b s) blocks self.

Definition is_wav (e : event) : bool :=
  match e with WriteWav _ _ _ _ _ => true | _ => false end.

Definition is_remove (e : event) : bool :=
  match e with RemoveFile _ => true | _ => false end.

Definition is_transcription (e : event) : bool :=
  match e with OnTranscription _ => true | _ => false end.

Definition is_error (e : event) : bool :=
  match e with OnError _ => true | _ => false end.

(** The server has answered 200 with the given text. *)
Definition answered (env : Env) (text : string) : Prop :=
  env.(post) = Responds 200 text.

End STTSession.

(* ===================================================================== *)
(** * core/tts_engine.py: sentences and playback                          *)
(* ===================================================================== *)

Module TTSPlayback.
Import Text TTSEngine.

(** The characters of the class [[.!?]]. *)
Definition ends_sentence (c : N) : bool :=
  ((c =? 46) || (c =? 33) || (c =? 63))%N.

(** A character put in front of the first piece. *)
Definition cons_head (c : N) (pieces : list text) : list text :=
  match pieces with
  | p :: ps => (c :: p) :: ps
  | [] => [[c]]
  end.

(** [re.split(r'(?<=[.!?])\s+', text)]: the pieces of the text between
    the separators, a separator being a longest run of whitespace that
    comes right after one of [. ! ?].  [skipping] tells that the scan is
    inside a separator, [after_end] that the character before is one of
    [. ! ?]. *)
Fixpoint re_split (skipping after_end : bool) (s : text) : list text :=
  match s with
  | [] => [[]]
  | c :: s' =>
      if isspace c then
        if skipping then re_split true false s'
        else if after_end then [] :: re_split true false s'
        else cons_head c (re_split false false s')
      else cons_head c (re_split false (ends_sentence c) s')
  end.

(** [_split_into_sentences] *)
Definition _split_into_sentences (txt : text) : list text :=
  let sentences :=
    filter nonempty (map strip (re_split false false txt)) in
  match sentences with
  | [] => [txt]
  | _ :: _ => sentences
  end.

(** The characters of a text that are not whitespace. *)
Definition ink (s : text) : text := filter (fun c => negb (isspace c)) s.

(** The last character of a text is one of [. ! ?]. *)
Definition ends_with_mark (s : text) : bool :=
  match rev s with
  | c :: _ => ends_sentence c
  | [] => false
  end.

(** Every text of the list but the last ends with one of [. ! ?]. *)
Fixpoint cut_after_marks (l : list text) : bool :=
  match l with
  | [] => true
  | s :: rest =>
      match rest with
      | [] => true
      | _ :: _ => ends_with_mark s && cut_after_marks rest
      end
  end.

Definition to_string (s : text) : string :=
  string_of_list_ascii (map ascii_of_N s).

Definition set_play_thread (b : bool) (self : t) : t :=
  mk self.(voice) self.(rate) self.(volume) self.(state) self.(_current_text)
     self.(_sentences) self.(_current_sentence_index) self.(_temp_files)
     b self.(_stop_event) self.(_pause_event) self.(on_state_changed).

Definition set_queue (text : string) (sentences : list string) (self : t) : t :=
  mk self.(voice) self.(rate) self.(volume) self.(state) text
     sentences 0 self.(_temp_files)
     self.(_play_thread) self.(_stop_event) self.(_pause_event)
     self.(on_state_changed).

Definition set_index (i : Z) (self : t) : t :=
  mk self.(voice) self.(rate) self.(volume) self.(state) self.(_current_text)
     self.(_sentences) i self.(_temp_files)
     self.(_play_thread) self.(_stop_event) self.(_pause_event)
     self.(on_state_changed).

(** [speak]: what it does, whether it has started a playback thread, and
    the engine afterwards. *)
Definition speak (env : Env) (text : string) (self : t)
    : list event * bool * t :=
  if negb (nonempty (strip (of_string text))) then ([], false, self)
  else
    let (evs, self) := stop env self in
    let self :=
      set_queue text
        (map to_string (_split_into_sentences (of_string text))) self in
    let self := set_stop_event false self in
    let self := set_pause_event true self in
    (evs, true, set_play_thread true self).

(** The callbacks of the engine that [_play_sentences] uses, beside
    [on_state_changed]. *)
Record callbacks : Type := {
  on_progress : bool;
  on_finished : bool;
  on_error : bool
}.

(** What the playback thread does to the outside, in order. *)
Inductive step : Type :=
| Engine (e : event)
| Synthesize (sentence voice rate volume path : string)
| LoadAndPlay (path : string)
| OnProgress (current total : Z)
| OnFinished
| OnError (msg : string).

(** What one sentence meets: [_generate_audio] creates a temporary file
    and fills it, or fails before the file exists, or fails after; the
    file generated, [_play_audio_file] plays it or fails. *)
Inductive generation : Type :=
| Generated (path : string) (played : option string)
| NoTempFile (msg : string)
| NoSpeech (path : string) (msg : string).

Definition call (connected : bool) (e : step) : list step :=
  if connected then [e] else [].

Definition engine_steps (evs : list event) : list step := map Engine evs.

(** [_generate_audio]: the steps, the file to play if any, and the engine
    with the temporary file recorded. *)
Definition _generate_audio (cb : callbacks) (g : generation)
    (sentence : string) (self : t) : list step * option string * t :=
  match g with
  | Generated path _ =>
      ([Synthesize sentence self.(voice) self.(rate) self.(volume) path],
       Some path,
       set_temp_files (self.(_temp_files) ++ [path])%list self)
  | NoTempFile msg =>
      (call cb.(on_error) (OnError ("TTS generation failed: " ++ msg)),
       None, self)
  | NoSpeech path msg =>
      (Synthesize sentence self.(voice) self.(rate) self.(volume) path ::
       call cb.(on_error) (OnError ("TTS generation failed: " ++ msg)),
       None,
       set_temp_files (self.(_temp_files) ++ [path])%list self)
  end.

(** [_play_audio_file] *)
Definition _play_audio_file (cb : callbacks) (g : generation)
    (file_path : string) : list step :=
  match g with
  | Generated _ (Some msg) =>
      LoadAndPlay file_path ::
      call cb.(on_error) (OnError ("Playback failed: " ++ msg))
  | _ => [LoadAndPlay file_path]
  end.

(** The loop of [_play_sentences] over the sentences still to say,
    [world] telling what each one meets, while nobody touches the stop
    and pause flags: the sentence is generated, played to its end if
    there is a file, and reported. *)
Fixpoint play_loop (cb : callbacks) (world : list generation)
    (total : Z) (todo : list string) (self : t) : list step * t :=
  match todo with
  | [] => ([], self)
  | sentence :: todo' =>
      let g := match world with g :: _ => g | [] => NoTempFile "" end in
      let (s1, self) := _set_state GENERATING self in
      let '(s2, audio_file, self) := _generate_audio cb g sentence self in
      let '(s3, self) :=
        match audio_file with
        | Some path =>
            let (s, self) := _set_state PLAYING self in
            ((engine_steps s ++ _play_audio_file cb g path)%list, self)
        | None => ([], self)
        end in
      let s4 :=
        call cb.(on_progress)
          (OnProgress (self.(_current_sentence_index) + 1) total) in
      let self := set_index (self.(_current_sentence_index) + 1) self in
      let (rest, self) := play_loop cb (tl world) total todo' self in
      ((engine_steps s1 ++ s2 ++ s3 ++ s4 ++ rest)%list, self)
  end.

(** What the playback thread is doing when the model leaves it. *)
Inductive outcome : Type :=
| Done
| Waiting.

(** [_play_sentences], run while the flags stay as the thread finds
    them.  With the stop flag set the loop is left at once; with the
    pause flag clear the thread waits in [_pause_event.wait()]. *)
Definition _play_sentences (env : Env) (cb : callbacks)
    (world : list generation) (self : t) : list step * outcome * t :=
  let total := Z.of_nat (List.length self.(_sentences)) in
  let todo := skipn (Z.to_nat self.(_current_sentence_index)) self.(_sentences) in
  match todo with
  | [] =>
      if self.(_stop_event) then
        let (removed, self) := _cleanup_temp_files env self in
        (engine_steps removed, Done, self)
      else
        let (s, self) := _set_state IDLE self in
        let (removed, self) := _cleanup_temp_files env self in
        ((engine_steps s ++ call cb.(on_finished) OnFinished ++
          engine_steps removed)%list, Done, self)
  | _ :: _ =>
      if self.(_stop_event) then
        let (removed, self) := _cleanup_temp_files env self in
        (engine_steps removed, Done, self)
      else if negb self.(_pause_event) then ([], Waiting, self)
      else
        let (played, self) := play_loop cb world total todo self in
        let (s, self) := _set_state IDLE self in
        let (removed, self) := _cleanup_temp_files env self in
        ((played ++ engine_steps s ++ call cb.(on_finished) OnFinished ++
          engine_steps removed)%list, Done, self)
  end.

Definition is_progress (e : step) : bool :=
  match e with OnProgress _ _ => true | _ => false end.

Definition is_finished (e : step) : bool :=
  match e with OnFinished => true | _ => false end.

(** The pause flag is clear exactly when the engine is paused. *)
Definition flags_agree (self : t) : Prop :=
  self.(_pause_event) = negb (TTSState_eqb self.(state) PAUSED).

(** The progress reports [(first, total)], ..., [(first + n - 1, total)]. *)
Fixpoint progress_from (first total : Z) (n : nat) : list step :=
  match n with
  | O => []
  | S n' => OnProgress first total :: progress_from (first + 1) total n'
  end.

End TTSPlayback.

(* ===================================================================== *)
(** * gui/main_window.py: the handlers that drive the engines             *)
(* ===================================================================== *)

Module MainWindow.
Import Py Json.

(** What the window shows. *)
Inductive ui : Type :=
| TrialDialog
| TrialActivated (email : string)
| TrialFailed
| ExpiredDialog
| PurchasePage.

(** What the user answers: the email typed in the trial dialog and
    whether the dialog was accepted, and the answer to the question of
    the expiry dialog. *)
Record User : Type := {
  trial_email : string;
  trial_ok : bool;
  buys : bool
}.

Section License.
Context {lib : DateTime.Lib}.

(** The world met by the successive calls into the license manager. *)
Variable world : nat -> LicenseManager.Env.
Variable user : User.

(** [_show_license_expired_dialog] *)
Definition _show_license_expired_dialog : list ui :=
  ExpiredDialog :: (if user.(buys) then [PurchasePage] else []).

(** [_check_license], with [_show_trial_dialog], which calls it back
    after a trial has been started.  [depth] bounds the nesting of the
    two, [None] telling that the bound is reached; [tick] counts the
    calls made into the license manager. *)
Fixpoint _check_license (depth tick : nat) (lm : LicenseManager.t)
    : option (list ui * result unit * LicenseManager.t) :=
  match depth with
  | O => None
  | S depth' =>
      match LicenseManager.validate (world tick) lm with
      | (Raise e, lm) => Some ([], Raise e, lm)
      | (Ok LicenseManager.NO_LICENSE, lm) =>
          if user.(trial_ok) && negb (String.eqb user.(trial_email) "") then
            match LicenseManager.start_trial (world (S tick))
                    user.(trial_email) lm with
            | (Raise e, lm) => Some ([TrialDialog], Raise e, lm)
            | (Ok true, lm) =>
                match _check_license depth' (S (S tick)) lm with
                | Some (shown, Ok _, lm) =>
                    Some ((TrialDialog :: shown ++
                           [TrialActivated user.(trial_email)])%list,
                          Ok tt, lm)
                | Some (shown, Raise e, lm) =>
                    Some (TrialDialog :: shown, Raise e, lm)
                | None => None
                end
            | (Ok false, lm) => Some ([TrialDialog; TrialFailed], Ok tt, lm)
            end
          else Some ([TrialDialog], Ok tt, lm)
      | (Ok LicenseManager.TRIAL_EXPIRED, lm)
      | (Ok LicenseManager.EXPIRED, lm) =>
          Some (_show_license_expired_dialog, Ok tt, lm)
      | (Ok _, lm) => Some ([], Ok tt, lm)
      end
  end.

End License.

Definition is_trial_dialog (u : ui) : bool :=
  match u with TrialDialog => true | _ => false end.

(** [_toggle_dictation].  With no recording under way and no API key the
    handler calls [self._show_api_key_dialog()], a method that the window
    does not have: an [AttributeError]. *)
Definition _toggle_dictation (env : STTEngine.Env) (stt : STTEngine.t)
    : result (list STTEngine.event) * STTEngine.t :=
  if STTEngine.STTState_eqb stt.(STTEngine.state) STTEngine.RECORDING then
    let (evs, stt) := STTEngine.stop_recording env stt in (Ok evs, stt)
  else if String.eqb stt.(STTEngine.api_key) "" then (Raise AttributeError, stt)
  else
    let (evs, stt) := STTEngine.start_recording stt in (Ok evs, stt).

(** [_on_claude_response]: the answer is read aloud when the user has
    asked for it and there is something to read. *)
Definition _on_claude_response (auto_read_responses : bool)
    (env : TTSEngine.Env) (text : string) (tts : TTSEngine.t)
    : list TTSEngine.event * bool * TTSEngine.t :=
  if auto_read_responses &&
     Text.nonempty (Text.strip (Text.of_string text))
  then TTSPlayback.speak env text tts
  else ([], false, tts).

(** [_stop_all] without the embedded terminal: the speech engine is
    stopped, the recording cancelled and the child process
    interrupted. *)
Definition _stop_all (tenv : TTSEngine.Env) (senv : STTEngine.Env)
    (tts : TTSEngine.t) (stt : STTEngine.t) (claude : ClaudeBridge.t)
    : (list TTSEngine.event * list STTEngine.event *
       list BridgeControl.action) *
      (TTSEngine.t * STTEngine.t) :=
  let (e1, tts) := TTSEngine.stop tenv tts in
  let (e2, stt) := STTEngine.cancel_recording senv stt in
  ((e1, e2, BridgeControl.send_interrupt claude), (tts, stt)).

End MainWindow.

(* ===================================================================== *)
(** * Concrete scenarios                                                  *)
(* ===================================================================== *)

Module Scenario.
Import Json LicenseManager.

(** A server that cannot be reached, and one that answers every request
    with the given status code and body. *)
(** A line break. *)
Definition nl : string := String Json.newline "".

(** Some instants. *)
Definition jan_1 : Z := DateTime.instant 2025 1 1.
Definition jan_11 : Z := DateTime.instant 2025 1 11.

Definition unreachable (url : string) (payload : json) : http_outcome := Fails.

Definition answering (code : Z) (body : option json)
    (url : string) (payload : json) : http_outcome :=
  Responds code body.

Definition offline_at (t : Z) : Env :=
  {| post := unreachable; now := t; platform_system := "Linux" |}.

Definition online_at (t : Z) (code : Z) (body : option json) : Env :=
  {| post := answering code body; now := t; platform_system := "Linux" |}.

(** A fresh manager with no license file, and one configured with a
    trial of [n] days. *)
Definition fresh (n : Z) : LicenseManager.t :=
  mk default_server_url n None [] "device" NO_LICENSE.

(** A trial started at instant [t0]. *)
Definition on_trial (t0 : Z) : LicenseManager.t :=
  mk default_server_url default_trial_days None
     [("email", JStr "a@b.c");
      ("trial_start", JStr (DateTime.format_iso t0));
      ("license_type", JStr "trial")]
     "device" TRIAL.

(** A lifetime license as [activate_license] stores it when the server
    sends no expiry date. *)
Definition lifetime : LicenseManager.t :=
  mk default_server_url default_trial_days None
     [("email", JStr "a@b.c");
      ("license_key", JStr "KEY");
      ("license_type", JStr "lifetime");
      ("expiry_date", JNull);
      ("activated_at", JStr "2025-01-01T00:00:00")]
     "device" VALID.

(** A transcription service that answers, with no recording thread left
    to join. *)
Definition quiet : STTEngine.Env :=
  {| STTEngine.temp_wav := STTEngine.Written "/tmp/claude_stt_0.wav";
     STTEngine.post := STTEngine.Responds 200 "dzien dobry ";
     STTEngine.recording_alive := false |}.

(** A speech engine in the middle of a sentence, and a world with no
    temporary file and no playback thread left. *)
Definition playing : TTSEngine.t :=
  TTSEngine.set_state_field TTSEngine.PLAYING TTSEngine.init.

Definition no_files : TTSEngine.Env :=
  {| TTSEngine.exists_file := fun _ => false;
     TTSEngine.play_alive := false |}.

End Scenario.


(** More scenarios: an engine whose callbacks are all connected, an
    answer of two sentences, the first of which is generated and played
    while the second finds no temporary file, a user, two licenses
    with an answer of the server in them, and a disk that fills up while
    the recording is written. *)
Module Cases.
Import Json.

Definition listening : TTSPlayback.callbacks :=
  {| TTSPlayback.on_progress := true;
     TTSPlayback.on_finished := true;
     TTSPlayback.on_error := true |}.

Definition answer : string := "Hi. There!".

Definition half_spoken : list TTSPlayback.generation :=
  [TTSPlayback.Generated "/tmp/claude_tts_0.mp3" None;
   TTSPlayback.NoTempFile "disk full"].

(** A user who accepts the trial dialog and would buy a license. *)
Definition keen : MainWindow.User :=
  {| MainWindow.trial_email := "a@b.c";
     MainWindow.trial_ok := true;
     MainWindow.buys := true |}.

(** The number 0.75. *)
Definition three_quarters : Float.float :=
  Float.Finite false 6755399441055744 (-53).

(** The name Lukasz with its first letter U+0141, and the word "probny"
    with U+00F3, in UTF-8. *)
Definition lukasz : string :=
  String "197" (String "129" "ukasz@example.pl").

Definition probny : string :=
  "pr" ++ String "195" (String "179" "bny").

(** A trial as [start_trial] stores it, with what the server answered. *)
Definition polish_trial : LicenseManager.t :=
  LicenseManager.mk LicenseManager.default_server_url
    LicenseManager.default_trial_days None
    [("email", JStr lukasz);
     ("trial_start", JStr "2025-01-01T00:00:00");
     ("license_type", JStr "trial");
     ("server_response",
      JObj [("ok", JBool true);
            ("quota", JFloat three_quarters);
            ("plan", JStr probny);
            ("seats", JList [JInt 3; JNull])])]
    "device" LicenseManager.TRIAL.

(** A server whose answer to the trial request holds a NaN, which
    [response.json()] accepts. *)
Definition nan_server : LicenseManager.Env :=
  Scenario.online_at Scenario.jan_1 200
    (Some (JObj [("quota", JFloat Float.NaN)])).

(** The temporary file is created, and writing it fails. *)
Definition disk_full : STTEngine.Env :=
  {| STTEngine.temp_wav :=
       STTEngine.WriteAborted "/tmp/claude_stt_0.wav"
         "[Errno 28] No space left on device";
     STTEngine.post := STTEngine.Responds 200 "dzien dobry ";
     STTEngine.recording_alive := false |}.

End Cases.

(* ===================================================================== *)
(** * Concrete runs                                                       *)
(* ===================================================================== *)

Module Runs.
Import Json.

Example dumps_list :
  dumps (JList [JInt 1; JNull; JList []]) =
  "[" ++ Scenario.nl ++ "  1," ++ Scenario.nl ++ "  null," ++ Scenario.nl ++ "  []" ++ Scenario.nl ++ "]".
Proof. reflexivity. Qed.

Example dumps_negative : dumps (JInt (-120)) = "-120".
Proof. reflexivity. Qed.

Example dumps_escape :
  dumps (JStr (String "010" (String "195" (String "136" "x\y")))) =
  String dquote ("\n\u00c8x\\y" ++ String dquote "").
Proof. reflexivity. Qed.

Example dumps_beyond_latin :
  dumps (JStr Cases.lukasz) =
  String dquote ("\u0141ukasz@example.pl" ++ String dquote "").
Proof. reflexivity. Qed.

Example dumps_surrogate_pair :
  dumps (JStr (String "240" (String "159" (String "152" (String "128" ""))))) =
  String dquote ("\ud83d\ude00" ++ String dquote "").
Proof. reflexivity. Qed.

Example loads_beyond_latin :
  loads (String dquote ("\u0141ukasz@example.pl" ++ String dquote ""))
  = Some (JStr Cases.lukasz).
Proof. reflexivity. Qed.

Example loads_surrogate_pair :
  loads (String dquote ("\ud83d\ude00" ++ String dquote ""))
  = Some (JStr (String "240" (String "159" (String "152" (String "128" ""))))).
Proof. reflexivity. Qed.

Example dumps_floats :
  dumps (JList [JFloat Cases.three_quarters;
                JFloat (Float.Finite false 7205759403792794 (-56));
                JFloat (Float.Finite false 5000000000000000 1);
                JFloat (Float.Finite false 1 (-1074));
                JFloat (Float.zero true);
                JFloat (Float.Inf true);
                JFloat Float.NaN]) =
  "[" ++ Scenario.nl ++ "  0.75," ++ Scenario.nl ++ "  0.1," ++ Scenario.nl ++
  "  1e+16," ++ Scenario.nl ++ "  5e-324," ++ Scenario.nl ++ "  -0.0," ++
  Scenario.nl ++ "  -Infinity," ++ Scenario.nl ++ "  NaN" ++ Scenario.nl ++ "]".
Proof. vm_compute. reflexivity. Qed.

Example loads_floats :
  loads "[0.75, 1e-1, 100.0E+14, 1e400, -0.0, 7.5e-1, NaN]" =
  Some (JList [JFloat Cases.three_quarters;
               JFloat (Float.Finite false 7205759403792794 (-56));
               JFloat (Float.Finite false 5000000000000000 1);
               JFloat (Float.Inf false);
               JFloat (Float.zero true);
               JFloat Cases.three_quarters;
               JFloat Float.NaN]).
Proof. vm_compute. reflexivity. Qed.

Example loads_half_a_number : loads "[1.]" = None.
Proof. reflexivity. Qed.

Example nearest_rounds_to_even :
  Float.of_decimal false 9007199254740993 0
  = Float.Finite false 4503599627370496 1.
Proof. vm_compute. reflexivity. Qed.

Example loads_list : loads " [1 , 2,3 ] " = Some (JList [JInt 1; JInt 2; JInt 3]).
Proof. reflexivity. Qed.

Example loads_leading_zero : loads "[01]" = None.
Proof. reflexivity. Qed.

Example loads_trailing_comma : loads "[1,]" = None.
Proof. reflexivity. Qed.

Example loads_extra_data : loads "1 2" = None.
Proof. reflexivity. Qed.

Example loads_duplicate_key :
  loads (dumps (JObj [("a", JInt 1); ("b", JInt 2); ("a", JInt 3)])) =
  Some (JObj [("a", JInt 3); ("b", JInt 2)]).
Proof. reflexivity. Qed.

Example calendar_epoch : DateTime.ymd2ord 1970 1 1 = 719163.
Proof. reflexivity. Qed.

Example calendar_last_day : DateTime.ord2ymd 3652059 = (9999, 12, 31).
Proof. reflexivity. Qed.

Example calendar_leap_day :
  DateTime.ord2ymd (DateTime.ymd2ord 2024 2 29) = (2024, 2, 29).
Proof. reflexivity. Qed.

Example format_iso_midnight :
  DateTime.format_iso Scenario.jan_1 = "2025-01-01T00:00:00".
Proof. reflexivity. Qed.

Example format_iso_microsecond :
  DateTime.format_iso (Scenario.jan_1 + 1) = "2025-01-01T00:00:00.000001".
Proof. reflexivity. Qed.

Example parse_iso_midnight :
  DateTime.parse_iso "2025-01-01T00:00:00" = Some Scenario.jan_1.
Proof. reflexivity. Qed.

Example parse_iso_no_such_day : DateTime.parse_iso "2023-02-29" = None.
Proof. reflexivity. Qed.

Example strip_text :
  STTEngine.strip (" dzien dobry" ++ Scenario.nl) = "dzien dobry".
Proof. reflexivity. Qed.

End Runs.
(* ===================================================================== *)
(** * [json.loads] inverts [json.dumps]                                   *)
(* ===================================================================== *)

Module JsonFacts.
Import Json.

(** ** Strings *)

Lemma append_assoc (a b c : string) : (a ++ b) ++ c = a ++ (b ++ c).
Proof.
  induction a as [|x a IH]; simpl; [reflexivity | rewrite IH; reflexivity].
Qed.

Lemma length_append (a b : string) :
  String.length (a ++ b) = (String.length a + String.length b)%nat.
Proof.
  induction a as [|x a IH]; simpl; [reflexivity | rewrite IH; reflexivity].
Qed.

Lemma append_nil_r (s : string) : s ++ "" = s.
Proof.
  induction s as [|c s IH]; simpl; [reflexivity | rewrite IH; reflexivity].
Qed.

(** ** Whitespace *)

Lemma skip_ws_spaces (n : nat) (s : string) :
  skip_ws (spaces n ++ s) = skip_ws s.
Proof.
  induction n as [|n IH]; simpl; [reflexivity | exact IH].
Qed.

Lemma skip_ws_newline_indent (lvl : nat) (s : string) :
  skip_ws (newline_indent lvl ++ s) = skip_ws s.
Proof.
  unfold newline_indent. simpl. apply skip_ws_spaces.
Qed.

Lemma skip_ws_idem (s : string) : skip_ws (skip_ws s) = skip_ws s.
Proof.
  induction s as [|c s IH]; simpl; [reflexivity|].
  destruct (is_ws c) eqn:E; [exact IH|].
  simpl. rewrite E. reflexivity.
Qed.

(** ** String literals *)

(** An ASCII character, escaped, is read back. *)
Lemma scanstring_escape_char (c : ascii) (t : string) :
  (N_of_ascii c <? 128)%N = true ->
  scanstring (escape_char c ++ t) = cons_char c (scanstring t).
Proof.
  destruct c as [[] [] [] [] [] [] [] []]; intros H;
    try discriminate H; reflexivity.
Qed.

Lemma hex_value_digit (k : N) :
  (k < 16)%N -> hex_value (hex_digit k) = Some k.
Proof.
  intros H.
  assert (C : (k = 0 \/ k = 1 \/ k = 2 \/ k = 3 \/ k = 4 \/ k = 5 \/ k = 6 \/
               k = 7 \/ k = 8 \/ k = 9 \/ k = 10 \/ k = 11 \/ k = 12 \/
               k = 13 \/ k = 14 \/ k = 15)%N) by lia.
  repeat (destruct C as [->|C]; [reflexivity|]). subst. reflexivity.
Qed.

Lemma hex4_digits (n : N) :
  (n < 65536)%N ->
  hex4 (hex_digit (n / 4096)) (hex_digit ((n / 256) mod 16))
       (hex_digit ((n / 16) mod 16)) (hex_digit (n mod 16)) = Some n.
Proof.
  intros H. unfold hex4.
  rewrite !hex_value_digit;
    try (zify; Z.to_euclidean_division_equations; lia).
  f_equal. zify. Z.to_euclidean_division_equations. lia.
Qed.

(** What [scanstring] does with a [\uXXXX] escape. *)
Lemma scanstring_u (n : N) (t : string) :
  (n < 65536)%N ->
  scanstring ("\u" ++ hex4_of n ++ t) =
  if Utf8.high_surrogate n then
    match t with
    | String "\" (String "u"
        (String l1 (String l2 (String l3 (String l4 r3))))) =>
        match hex4 l1 l2 l3 l4 with
        | Some m =>
            if Utf8.low_surrogate m
            then cons_cp (join_surrogates n m) (scanstring r3)
            else cons_cp n (scanstring t)
        | None => None
        end
    | _ => cons_cp n (scanstring t)
    end
  else cons_cp n (scanstring t).
Proof.
  intros H. unfold hex4_of.
  set (h1 := hex_digit (n / 4096)).
  set (h2 := hex_digit ((n / 256) mod 16)).
  set (h3 := hex_digit ((n / 16) mod 16)).
  set (h4 := hex_digit (n mod 16)).
  cbn [append scanstring].
  change (Ascii.eqb "\" dquote) with false.
  change (Ascii.eqb "\" "\") with true. cbv iota.
  subst h1 h2 h3 h4. rewrite (hex4_digits n H). reflexivity.
Qed.

(** A code point that is no surrogate, escaped, is read back. *)
Lemma scanstring_escape_cp (n : N) (t : string) :
  Utf8.scalar n = true ->
  scanstring (escape_cp n ++ t) = cons_cp n (scanstring t).
Proof.
  intros S. unfold escape_cp.
  destruct (N.ltb_spec n 128) as [A|A].
  - rewrite scanstring_escape_char.
    + unfold cons_cp, cons_char, Utf8.encode_cp.
      destruct (N.ltb_spec n 128); [|lia].
      destruct (scanstring t) as [[s rest]|]; reflexivity.
    + rewrite N_ascii_embedding by lia. apply N.ltb_lt. exact A.
  - destruct (N.ltb_spec n 65536) as [B|B].
    + rewrite append_assoc, scanstring_u by exact B.
      replace (Utf8.high_surrogate n) with false; [reflexivity|].
      unfold Utf8.scalar, Utf8.high_surrogate in *.
      destruct (N.ltb_spec n 55296), (N.leb_spec 55296 n),
        (N.ltb_spec n 56320), (N.leb_spec 57344 n);
        simpl in *; try reflexivity; try lia; discriminate.
    + assert (C : (n < 1114112)%N).
      { unfold Utf8.scalar in S.
        destruct (N.ltb_spec n 55296); [lia|].
        destruct (N.ltb_spec n 1114112); [assumption|].
        rewrite andb_false_r in S. discriminate. }
      set (hi := (55296 + (n - 65536) / 1024)%N).
      set (lo := (56320 + (n - 65536) mod 1024)%N).
      assert (Hhi : (55296 <= hi /\ hi < 56320)%N).
      { subst hi. zify. Z.to_euclidean_division_equations. lia. }
      assert (Hlo : (56320 <= lo /\ lo < 57344)%N).
      { subst lo. zify. Z.to_euclidean_division_equations. lia. }
      rewrite !append_assoc, scanstring_u by lia.
      replace (Utf8.high_surrogate hi) with true.
      2: { unfold Utf8.high_surrogate.
           destruct (N.leb_spec 55296 hi), (N.ltb_spec hi 56320);
             simpl; try reflexivity; lia. }
      unfold hex4_of at 1.
      change (("\u" ++
               String (hex_digit (lo / 4096))
                 (String (hex_digit ((lo / 256) mod 16))
                    (String (hex_digit ((lo / 16) mod 16))
                       (String (hex_digit (lo mod 16)) ""))) ++ t))
        with (String "\" (String "u"
                (String (hex_digit (lo / 4096))
                   (String (hex_digit ((lo / 256) mod 16))
                      (String (hex_digit ((lo / 16) mod 16))
                         (String (hex_digit (lo mod 16)) t)))))).
      cbv iota. rewrite hex4_digits by lia.
      replace (Utf8.low_surrogate lo) with true.
      2: { unfold Utf8.low_surrogate.
           destruct (N.leb_spec 56320 lo), (N.ltb_spec lo 57344);
             simpl; try reflexivity; lia. }
      replace (join_surrogates hi lo) with n; [reflexivity|].
      unfold join_surrogates. subst hi lo.
      zify. Z.to_euclidean_division_equations. lia.
Qed.

Lemma scanstring_escape_cps (l : list N) (rest : string) :
  forallb Utf8.scalar l = true ->
  scanstring (escape_cps l ++ String dquote rest)
    = Some (Utf8.encode l, rest).
Proof.
  induction l as [|n l IH]; simpl; intros S.
  - reflexivity.
  - apply andb_true_iff in S. destruct S as (Sn & Sl).
    rewrite append_assoc, scanstring_escape_cp by exact Sn.
    rewrite IH by exact Sl. reflexivity.
Qed.

Lemma scanstring_dump_str (s rest : string) :
  Utf8.valid s = true ->
  exists t, dump_str s ++ rest = String dquote t /\
            scanstring t = Some (s, rest).
Proof.
  intros V. unfold Utf8.valid in V. apply andb_true_iff in V.
  destruct V as (E & S). apply String.eqb_eq in E.
  unfold dump_str, escape. simpl. eexists. split; [reflexivity|].
  rewrite append_assoc. simpl.
  rewrite scanstring_escape_cps by exact S. rewrite E. reflexivity.
Qed.

(** ** Numbers *)

Lemma follows_inv (rest : string) :
  follows rest = true ->
  rest = "" \/ exists t, rest = String "," t \/ rest = String newline t.
Proof.
  destruct rest as [|c t]; [auto|]. simpl. intros E. right. exists t.
  apply orb_true_iff in E. destruct E as [E|E]; apply Ascii.eqb_eq in E;
    subst; auto.
Qed.

Lemma follows_starts_digit (rest : string) :
  follows rest = true -> starts_digit rest = false.
Proof.
  intros F. destruct (follows_inv rest F) as [->|(t & [-> | ->])]; reflexivity.
Qed.

Lemma scan_digits_stop (rest : string) :
  starts_digit rest = false -> scan_digits rest = (Decimal.Nil, rest).
Proof.
  destruct rest as [|c t]; simpl; [reflexivity|].
  destruct (digit_of c); [discriminate | reflexivity].
Qed.

Lemma scan_digits_string_of_uint (u : Decimal.uint) (rest : string) :
  starts_digit rest = false ->
  scan_digits (DecimalString.NilEmpty.string_of_uint u ++ rest) = (u, rest).
Proof.
  intros Hr.
  induction u as [|u IH|u IH|u IH|u IH|u IH|u IH|u IH|u IH|u IH|u IH]; simpl;
    try (rewrite IH; reflexivity).
  apply scan_digits_stop. exact Hr.
Qed.

(** The decimal digits of a natural number are in normal form: there is
    at least one digit, and a leading zero is the only digit. *)
Lemma to_uint_normal (n : N) :
  N.to_uint n <> Decimal.Nil /\
  forall u, N.to_uint n = Decimal.D0 u -> u = Decimal.Nil.
Proof.
  assert (E : N.to_uint n = Decimal.unorm (N.to_uint n)).
  { rewrite <- (DecimalN.Unsigned.to_of (N.to_uint n)).
    rewrite DecimalN.Unsigned.of_to. reflexivity. }
  split.
  - rewrite E. apply DecimalFacts.unorm_nonnil.
  - intros u Hu. unfold Decimal.unorm in E.
    destruct (Decimal.nzhead (N.to_uint n)) eqn:Z;
      try congruence.
    exfalso. exact (DecimalFacts.nzhead_nonzero _ _ Z).
Qed.

Lemma string_of_uint_starts (u : Decimal.uint) (rest : string) :
  u <> Decimal.Nil ->
  exists c t,
    DecimalString.NilEmpty.string_of_uint u ++ rest = String c t /\
    c <> "-"%char /\ starts_digit (String c t) = true.
Proof.
  intros Hu. destruct u; try contradiction; simpl;
    eexists; eexists; (split; [reflexivity|]); split; (discriminate || reflexivity).
Qed.

(** The scanners read a text followed by [rest] as they read the text
    alone, and leave [rest] after it. *)
Lemma scan_digits_app (s rest : string) :
  starts_digit rest = false ->
  scan_digits (s ++ rest)
    = (fst (scan_digits s), snd (scan_digits s) ++ rest).
Proof.
  intros R. induction s as [|c s IH]; simpl.
  - apply scan_digits_stop. exact R.
  - destruct (digit_of c); [|reflexivity].
    rewrite IH. destruct (scan_digits s). reflexivity.
Qed.

Lemma some_digits_app (s rest : string) :
  starts_digit rest = false ->
  some_digits (s ++ rest) = before rest (some_digits s).
Proof.
  intros R. unfold some_digits. rewrite scan_digits_app by exact R.
  destruct (scan_digits s) as [u r]. destruct u; reflexivity.
Qed.

Lemma scan_intpart_app (s rest : string) :
  follows rest = true ->
  scan_intpart (s ++ rest) = before rest (scan_intpart s).
Proof.
  intros F. destruct s as [|c s].
  - destruct (follows_inv rest F) as [->|(t & [-> | ->])]; reflexivity.
  - simpl. destruct (Ascii.eqb c "0"); [reflexivity|].
    destruct (digit_of c); [|reflexivity].
    rewrite scan_digits_app by (apply follows_starts_digit; exact F).
    destruct (scan_digits s). reflexivity.
Qed.

Lemma scan_frac_app (s rest : string) :
  follows rest = true ->
  scan_frac (s ++ rest) = before rest (scan_frac s).
Proof.
  intros F. destruct s as [|c s].
  - destruct (follows_inv rest F) as [->|(t & [-> | ->])]; reflexivity.
  - simpl. destruct (Ascii.eqb c "."); [|reflexivity].
    apply some_digits_app, follows_starts_digit, F.
Qed.

Lemma scan_exp_app (s rest : string) :
  follows rest = true ->
  scan_exp (s ++ rest) = before rest (scan_exp s).
Proof.
  intros F. pose proof (follows_starts_digit rest F) as D.
  destruct s as [|c s].
  - destruct (follows_inv rest F) as [->|(t & [-> | ->])]; reflexivity.
  - simpl. destruct (Ascii.eqb c "e" || Ascii.eqb c "E"); [|reflexivity].
    destruct s as [|c' s].
    + destruct (follows_inv rest F) as [->|(t & [-> | ->])]; reflexivity.
    + cbn [append].
      destruct (Ascii.eqb c' "-").
      { rewrite some_digits_app by exact D.
        destruct (some_digits s) as [[u r]|]; reflexivity. }
      destruct (Ascii.eqb c' "+").
      { rewrite some_digits_app by exact D.
        destruct (some_digits s) as [[u r]|]; reflexivity. }
      change (String c' (s ++ rest)) with (String c' s ++ rest).
      rewrite some_digits_app by exact D.
      destruct (some_digits (String c' s)) as [[u r]|]; reflexivity.
Qed.

Lemma scan_unsigned_app (neg : bool) (s rest : string) :
  follows rest = true ->
  scan_unsigned neg (s ++ rest) = before rest (scan_unsigned neg s).
Proof.
  intros F. unfold scan_unsigned.
  rewrite scan_intpart_app by exact F.
  destruct (scan_intpart s) as [[i r]|]; [|reflexivity]. cbn [before].
  rewrite scan_frac_app by exact F.
  destruct (scan_frac r) as [[f r1]|]; cbn [before].
  - rewrite scan_exp_app by exact F.
    destruct (scan_exp r1) as [[x r2]|]; reflexivity.
  - rewrite scan_exp_app by exact F.
    destruct (scan_exp r) as [[x r2]|]; reflexivity.
Qed.

Lemma scan_number_app (s rest : string) :
  follows rest = true ->
  scan_number (s ++ rest) = before rest (scan_number s).
Proof.
  intros F. destruct s as [|c s].
  - destruct (follows_inv rest F) as [->|(t & [-> | ->])]; reflexivity.
  - cbn [append scan_number]. destruct (Ascii.eqb c "-").
    + apply scan_unsigned_app. exact F.
    + change (String c (s ++ rest)) with (String c s ++ rest).
      apply scan_unsigned_app. exact F.
Qed.

(** A number is read only where a minus sign or a digit stands. *)
Lemma scan_number_starts (s : string) (found : json * string) :
  scan_number s = Some found -> starts_number s = true.
Proof.
  destruct s as [|c t]; [discriminate|]. cbn [scan_number starts_number].
  destruct (Ascii.eqb c "-") eqn:M; [reflexivity|].
  unfold scan_unsigned, scan_intpart.
  destruct (Ascii.eqb c "0") eqn:Z.
  - apply Ascii.eqb_eq in Z. subst c. reflexivity.
  - destruct (digit_of c); [reflexivity | discriminate].
Qed.

(** The digits of a natural number are read as the number. *)
Lemma scan_unsigned_to_uint (neg : bool) (n : N) :
  scan_unsigned neg (DecimalString.NilEmpty.string_of_uint (N.to_uint n))
    = Some (JInt (if neg then - Z.of_N n else Z.of_N n), "").
Proof.
  destruct (to_uint_normal n) as (Hnil & Hzero).
  pose proof (DecimalN.Unsigned.of_to n) as Hof.
  assert (R : forall u,
             scan_digits (DecimalString.NilEmpty.string_of_uint u) = (u, "")).
  { intros u.
    rewrite <- (append_nil_r (DecimalString.NilEmpty.string_of_uint u)).
    apply scan_digits_string_of_uint. reflexivity. }
  unfold scan_unsigned, scan_intpart.
  destruct (N.to_uint n) as [|u|u|u|u|u|u|u|u|u|u] eqn:E;
    try congruence;
    try (cbn [DecimalString.NilEmpty.string_of_uint Ascii.eqb Bool.eqb
              digit_of];
         rewrite R; cbn [scan_frac scan_exp]; rewrite Hof; reflexivity).
  rewrite (Hzero u eq_refl) in *. simpl in Hof. subst n. reflexivity.
Qed.

Lemma scan_number_dump_int (z : Z) :
  scan_number (dump_int z) = Some (JInt z, "").
Proof.
  unfold dump_int. destruct (Z.ltb_spec z 0) as [Hneg|Hpos].
  - cbn [scan_number]. change (Ascii.eqb "-" "-") with true. cbv iota.
    rewrite scan_unsigned_to_uint. rewrite Z2N.id by lia.
    f_equal. f_equal. f_equal. lia.
  - destruct (string_of_uint_starts (N.to_uint (Z.to_N z)) "")
      as (c & t & E & Hc & _).
    { apply to_uint_normal. }
    rewrite append_nil_r in E.
    assert (S : scan_number
                  (DecimalString.NilEmpty.string_of_uint (N.to_uint (Z.to_N z)))
                = scan_unsigned false
                    (DecimalString.NilEmpty.string_of_uint
                       (N.to_uint (Z.to_N z)))).
    { rewrite E. cbn [scan_number].
      destruct (Ascii.eqb_spec c "-"); [contradiction | reflexivity]. }
    rewrite S, scan_unsigned_to_uint, Z2N.id by lia. reflexivity.
Qed.

Lemma float_eqb_eq (x y : Float.float) : Float.eqb x y = true -> x = y.
Proof.
  destruct x as [s m e|s|], y as [s' m' e'|s'|]; simpl; try discriminate.
  - intros E. apply andb_true_iff in E. destruct E as (E & E3).
    apply andb_true_iff in E. destruct E as (E1 & E2).
    apply Bool.eqb_prop in E1. apply Z.eqb_eq in E2. apply Z.eqb_eq in E3.
    subst. reflexivity.
  - intros E. apply Bool.eqb_prop in E. subst. reflexivity.
  - reflexivity.
Qed.

(** The digits of a float that reads back are read as the float. *)
Lemma scan_number_repr (s : bool) (m e : Z) :
  reads_back (Float.Finite s m e) = true ->
  scan_number (dump_float (Float.Finite s m e))
    = Some (JFloat (Float.Finite s m e), "").
Proof.
  unfold reads_back, dump_float.
  destruct (scan_number (Float.repr (Float.Finite s m e)))
    as [[[| | |y| | |] [|c r]]|]; try discriminate.
  intros E. apply float_eqb_eq in E. rewrite <- E. reflexivity.
Qed.

(** ** Values *)

Lemma parse_value_skip_ws (fuel : nat) (s : string) :
  parse_value fuel (skip_ws s) = parse_value fuel s.
Proof.
  destruct fuel as [|n]; [reflexivity|]. simpl.
  rewrite skip_ws_idem. reflexivity.
Qed.

Lemma opens_skip_ws (s : string) : opens s -> skip_ws s = s.
Proof.
  intros (c & t & -> & W & _). simpl. rewrite W. reflexivity.
Qed.

Lemma opens_closes (s : string) :
  opens s -> closes "]" s = None /\ closes "}" s = None.
Proof.
  intros (c & t & -> & _ & A & B). simpl. rewrite A, B. auto.
Qed.

Lemma starts_number_dispatch (c : ascii) (t : string) :
  starts_number (String c t) = true ->
  is_ws c = false /\
  Ascii.eqb c dquote = false /\ Ascii.eqb c "[" = false /\
  Ascii.eqb c "{" = false /\ Ascii.eqb c "n" = false /\
  Ascii.eqb c "t" = false /\ Ascii.eqb c "f" = false /\
  Ascii.eqb c "]" = false /\ Ascii.eqb c "}" = false.
Proof.
  destruct c as [[] [] [] [] [] [] [] []]; simpl; intros E;
    try discriminate E; repeat split.
Qed.

Lemma starts_number_opens (s : string) :
  starts_number s = true -> opens s.
Proof.
  destruct s as [|c t]; [discriminate|]. intros N.
  destruct (starts_number_dispatch c t N) as (W & _ & _ & _ & _ & _ & _ & A & B).
  exists c, t. auto.
Qed.

(** Where a number is read, the value is the number. *)
Lemma parse_value_number (n : nat) (s : string) (found : json * string) :
  scan_number s = Some found -> parse_value (S n) s = Some found.
Proof.
  intros E. pose proof (scan_number_starts s found E) as N.
  destruct s as [|c t]; [discriminate|].
  destruct (starts_number_dispatch c t N)
    as (W & E1 & E2 & E3 & E4 & E5 & E6 & _).
  cbn [parse_value skip_ws]. rewrite W, E1, E2, E3, E4, E5, E6, E.
  reflexivity.
Qed.

Lemma starts_number_app (s rest : string) :
  starts_number s = true -> starts_number (s ++ rest) = true.
Proof. destruct s; [discriminate | intros E; exact E]. Qed.

(** The text of a number, followed by [rest], is read as the number. *)
Lemma number_readable (v : json) :
  size v = 1%nat ->
  (forall lvl, scan_number (dump lvl v) = Some (v, "")) ->
  readable v.
Proof.
  intros Sz E. split.
  - intros lvl rest. apply starts_number_opens, starts_number_app.
    exact (scan_number_starts _ _ (E lvl)).
  - intros lvl rest [|n] F Hf; [lia|].
    apply parse_value_number.
    rewrite scan_number_app, E by exact F. reflexivity.
Qed.

Lemma readable_null : readable JNull.
Proof.
  split.
  - intros lvl rest. eexists; eexists. split; [reflexivity|]. repeat split.
  - intros lvl rest [|n] F Hf; [simpl in Hf; lia | reflexivity].
Qed.

Lemma readable_bool (b : bool) : readable (JBool b).
Proof.
  split.
  - intros lvl rest.
    destruct b; eexists; eexists; (split; [reflexivity|]); repeat split.
  - intros lvl rest [|n] F Hf; [simpl in Hf; lia | destruct b; reflexivity].
Qed.

Lemma readable_int (z : Z) : readable (JInt z).
Proof.
  apply number_readable; [reflexivity|].
  intros lvl. apply scan_number_dump_int.
Qed.

Lemma readable_float (x : Float.float) :
  reads_back x = true -> readable (JFloat x).
Proof.
  destruct x as [s m e|[]|]; intros R.
  - apply number_readable; [reflexivity|].
    intros lvl. apply scan_number_repr. exact R.
  - split.
    + intros lvl rest. eexists; eexists. split; [reflexivity|]. repeat split.
    + intros lvl rest [|n] F Hf; [simpl in Hf; lia | reflexivity].
  - split.
    + intros lvl rest. eexists; eexists. split; [reflexivity|]. repeat split.
    + intros lvl rest [|n] F Hf; [simpl in Hf; lia | reflexivity].
  - discriminate R.
Qed.

Lemma readable_str (s : string) : Utf8.valid s = true -> readable (JStr s).
Proof.
  intros V. split.
  - intros lvl rest. eexists; eexists. split; [reflexivity|]. repeat split.
  - intros lvl rest [|n] F Hf; [simpl in Hf; lia|].
    simpl dump. destruct (scanstring_dump_str s rest V) as (t & E & Hs).
    rewrite E. cbn [parse_value skip_ws is_ws dquote].
    change (Ascii.eqb "034" dquote) with true. cbn iota.
    rewrite Hs. reflexivity.
Qed.

Lemma wf_list (l : list json) : wf (JList l) <-> Forall wf l.
Proof.
  induction l as [|x l IH]; simpl.
  - split; auto.
  - split.
    + intros (Hx & Hl). constructor; [exact Hx | apply IH; exact Hl].
    + intros F. inversion F; subst. split; [assumption | apply IH; assumption].
Qed.

Lemma wf_obj (d : dict) :
  wf (JObj d) <->
  NoDup (map fst d) /\
  Forall (fun kv => Utf8.valid (fst kv) = true /\ wf (snd kv)) d.
Proof.
  simpl. apply and_iff_compat_l.
  induction d as [|[k x] d IH]; simpl.
  - split; auto.
  - split.
    + intros (Hx & Hd). constructor; [exact Hx | apply IH; exact Hd].
    + intros F. inversion F; subst. split; [assumption | apply IH; assumption].
Qed.

(** A dictionary built from pairs with distinct keys is the list of the
    pairs. *)
Lemma dict_set_fresh (d : dict) (k : string) (v : json) :
  ~ In k (map fst d) -> dict_set d k v = (d ++ [(k, v)])%list.
Proof.
  induction d as [|[k' v'] d IH]; simpl; intros Hk; [reflexivity|].
  destruct (String.eqb_spec k k') as [->|Hne].
  - exfalso. apply Hk. left. reflexivity.
  - rewrite IH; [reflexivity|]. intros Hin. apply Hk. right. exact Hin.
Qed.

Lemma dict_update_fresh (pairs acc : dict) :
  NoDup (map fst (acc ++ pairs)%list) ->
  dict_update acc pairs = (acc ++ pairs)%list.
Proof.
  revert acc. induction pairs as [|[k v] pairs IH]; intros acc Hn; simpl.
  - rewrite List.app_nil_r. reflexivity.
  - unfold dict_update in *. simpl.
    rewrite dict_set_fresh.
    + rewrite IH; rewrite <- List.app_assoc; [reflexivity | exact Hn].
    + rewrite map_app in Hn. simpl in Hn.
      apply NoDup_remove_2 in Hn. intros Hin. apply Hn.
      apply in_or_app. left. exact Hin.
Qed.

Lemma dict_of_pairs_nodup (d : dict) :
  NoDup (map fst d) -> dict_of_pairs d = d.
Proof.
  intros Hn. unfold dict_of_pairs. apply (dict_update_fresh d []). exact Hn.
Qed.

Lemma follows_dump_items (enc : json -> string) (lvl : nat) (l : list json)
    (rest : string) :
  follows (dump_items enc lvl l ++ rest) = true.
Proof. destruct l; reflexivity. Qed.

Lemma follows_dump_members (enc : json -> string) (lvl : nat) (d : dict)
    (rest : string) :
  follows (dump_members enc lvl d ++ rest) = true.
Proof. destruct d as [|[k x] d]; reflexivity. Qed.

Lemma parse_elements_items (lvl : nat) (rest : string) :
  follows rest = true ->
  forall l x n s,
    Forall readable (x :: l) ->
    (items_size (x :: l) <= n)%nat ->
    skip_ws s = dump (S lvl) x ++ dump_items (dump (S lvl)) lvl l ++ rest ->
    parse_elements n s = Some (x :: l, rest).
Proof.
  intros F. induction l as [|y l IH]; intros x n s D Hn Hs.
  - destruct n as [|n]; [simpl in Hn; lia|]. cbn [parse_elements].
    rewrite <- parse_value_skip_ws, Hs.
    inversion D as [|? ? (_ & Dx) _]; subst.
    rewrite (Dx (S lvl) _ n) by (reflexivity || (simpl in Hn; lia)).
    cbn [dump_items]. rewrite append_assoc, skip_ws_newline_indent.
    reflexivity.
  - destruct n as [|n]; [simpl in Hn; lia|]. cbn [parse_elements].
    rewrite <- parse_value_skip_ws, Hs.
    inversion D as [|? ? (_ & Dx) Dl]; subst.
    rewrite (Dx (S lvl) _ n)
      by (apply follows_dump_items || (unfold items_size in Hn; simpl in Hn; lia)).
    cbn [dump_items]. rewrite !append_assoc.
    cbn [append skip_ws is_ws closes]. change (Ascii.eqb "," ",") with true.
    cbv iota.
    rewrite (IH y n _ Dl); [reflexivity | |].
    + unfold items_size in *. simpl in *. lia.
    + rewrite skip_ws_newline_indent. apply opens_skip_ws.
      inversion Dl as [|? ? (Oy & _) _]; subst. apply Oy.
Qed.

Lemma readable_list (l : list json) : Forall readable l -> readable (JList l).
Proof.
  intros D. split.
  - intros lvl rest.
    destruct l; eexists; eexists; (split; [reflexivity|]); repeat split.
  - intros lvl rest [|n] F Hf; [simpl in Hf; lia|].
    destruct l as [|x l]; [reflexivity|].
    assert (Ox : forall lvl rest, opens (dump lvl x ++ rest)).
    { inversion D as [|? ? (Ox & _) _]; subst. exact Ox. }
    cbn [dump]. rewrite !append_assoc.
    cbn [append parse_value skip_ws is_ws].
    change (Ascii.eqb "[" dquote) with false.
    change (Ascii.eqb "[" "[") with true. cbv iota.
    rewrite skip_ws_newline_indent.
    rewrite (opens_skip_ws _ (Ox (S lvl) _)).
    rewrite (proj1 (opens_closes _ (Ox (S lvl) _))).
    rewrite (parse_elements_items lvl rest F l x n); [reflexivity | exact D | |].
    + simpl in Hf. unfold items_size. simpl. lia.
    + rewrite skip_ws_newline_indent. apply opens_skip_ws, Ox.
Qed.

Lemma parse_members_items (lvl : nat) (rest : string) :
  follows rest = true ->
  forall d k x n s,
    Forall (fun kv => Utf8.valid (fst kv) = true /\ readable (snd kv))
      ((k, x) :: d) ->
    (members_size ((k, x) :: d) <= n)%nat ->
    skip_ws s = dump_str k ++ ": " ++ dump (S lvl) x ++
                dump_members (dump (S lvl)) lvl d ++ rest ->
    parse_members n s = Some ((k, x) :: d, rest).
Proof.
  intros F. induction d as [|[k' y] d IH]; intros k x n s D Hn Hs.
  - destruct n as [|n]; [simpl in Hn; lia|]. cbn [parse_members].
    inversion D as [|? ? (Vk & Ox & Dx) _]; subst. cbn [fst snd] in *.
    rewrite Hs. destruct (scanstring_dump_str k
      (": " ++ dump (S lvl) x ++ dump_members (dump (S lvl)) lvl [] ++ rest) Vk)
      as (t & E & Hk).
    rewrite E. cbn [closes]. change (Ascii.eqb dquote dquote) with true.
    cbv iota. rewrite Hk.
    cbn [append skip_ws is_ws closes]. change (Ascii.eqb ":" ":") with true.
    cbv iota.
    rewrite <- parse_value_skip_ws. cbn [skip_ws is_ws].
    rewrite (opens_skip_ws _ (Ox (S lvl) _)).
    rewrite (Dx (S lvl) _ n) by (reflexivity || (simpl in Hn; lia)).
    cbn [dump_members]. rewrite append_assoc, skip_ws_newline_indent.
    reflexivity.
  - destruct n as [|n]; [simpl in Hn; lia|]. cbn [parse_members].
    inversion D as [|? ? (Vk & Ox & Dx) Dd]; subst. cbn [fst snd] in *.
    rewrite Hs. destruct (scanstring_dump_str k
      (": " ++ dump (S lvl) x ++
       dump_members (dump (S lvl)) lvl ((k', y) :: d) ++ rest) Vk)
      as (t & E & Hk).
    rewrite E. cbn [closes]. change (Ascii.eqb dquote dquote) with true.
    cbv iota. rewrite Hk.
    cbn [append skip_ws is_ws closes]. change (Ascii.eqb ":" ":") with true.
    cbv iota.
    rewrite <- parse_value_skip_ws. cbn [skip_ws is_ws].
    rewrite (opens_skip_ws _ (Ox (S lvl) _)).
    rewrite (Dx (S lvl) _ n)
      by (apply follows_dump_members ||
          (unfold members_size in Hn; simpl in Hn; lia)).
    cbn [dump_members]. rewrite !append_assoc.
    cbn [append skip_ws is_ws closes]. change (Ascii.eqb "," ",") with true.
    cbv iota.
    rewrite (IH k' y n _ Dd); [reflexivity | |].
    + unfold members_size in *. simpl in *. lia.
    + rewrite skip_ws_newline_indent. reflexivity.
Qed.

Lemma readable_obj (d : dict) :
  NoDup (map fst d) ->
  Forall (fun kv => Utf8.valid (fst kv) = true /\ readable (snd kv)) d ->
  readable (JObj d).
Proof.
  intros Hn D. split.
  - intros lvl rest.
    destruct d as [|[k x] d];
      eexists; eexists; (split; [reflexivity|]); repeat split.
  - intros lvl rest [|n] F Hf; [simpl in Hf; lia|].
    destruct d as [|[k x] d]; [reflexivity|].
    cbn [dump]. rewrite !append_assoc.
    cbn [append parse_value skip_ws is_ws].
    change (Ascii.eqb "{" dquote) with false.
    change (Ascii.eqb "{" "[") with false.
    change (Ascii.eqb "{" "{") with true. cbv iota.
    rewrite skip_ws_newline_indent.
    assert (O : opens (dump_str k ++ ": " ++ dump (S lvl) x ++
                       dump_members (dump (S lvl)) lvl d ++ rest)).
    { eexists; eexists. split; [reflexivity|]. repeat split. }
    cbn [append] in O.
    rewrite (opens_skip_ws _ O), (proj2 (opens_closes _ O)).
    rewrite (parse_members_items lvl rest F d k x n); [| exact D | |].
    + simpl. rewrite (dict_of_pairs_nodup _ Hn). reflexivity.
    + simpl in Hf. unfold members_size. simpl. lia.
    + rewrite skip_ws_newline_indent. apply opens_skip_ws. exact O.
Qed.

(** Every well-formed value is decoded from its text. *)
Lemma wf_readable (v : json) : wf v -> readable v.
Proof.
  induction v as [|b|z|x|s|l IH|d IH] using json_induction; intros W.
  - apply readable_null.
  - apply readable_bool.
  - apply readable_int.
  - apply readable_float. exact W.
  - apply readable_str. exact W.
  - apply readable_list. apply wf_list in W.
    induction IH as [|x l Hx _ IHl]; constructor.
    + apply Hx. inversion W; assumption.
    + apply IHl. inversion W; assumption.
  - apply wf_obj in W. destruct W as (Hn & W).
    apply readable_obj; [exact Hn|]. clear Hn.
    induction IH as [|kv d Hx _ IHd]; constructor.
    + inversion W as [|? ? (Vk & Wx) _]; subst. split; [exact Vk|].
      apply Hx. exact Wx.
    + apply IHd. inversion W; assumption.
Qed.

Lemma opens_length (s : string) : opens s -> (1 <= String.length s)%nat.
Proof. intros (c & t & -> & _). simpl. lia. Qed.

(** The fuel of a value is no more than the length of its text. *)
Lemma size_dump_items (lvl lvl' : nat) (l : list json) :
  Forall (fun x => forall lvl, (size x <= String.length (dump lvl x))%nat) l ->
  (items_size l <= String.length (dump_items (dump lvl') lvl l))%nat.
Proof.
  unfold items_size.
  induction 1 as [|x l Hx _ IH]; cbn [fold_right dump_items].
  - lia.
  - rewrite !length_append. specialize (Hx lvl'). simpl String.length. lia.
Qed.

Lemma size_dump_members (lvl lvl' : nat) (d : dict) :
  Forall (fun kv => forall lvl,
            (size (snd kv) <= String.length (dump lvl (snd kv)))%nat) d ->
  (members_size d <= String.length (dump_members (dump lvl') lvl d))%nat.
Proof.
  unfold members_size.
  induction 1 as [|[k x] d Hx _ IH]; cbn [fold_right dump_members snd].
  - lia.
  - rewrite !length_append. specialize (Hx lvl'). simpl in Hx.
    simpl String.length. lia.
Qed.

Lemma size_dump (v : json) :
  wf v -> forall lvl, (size v <= String.length (dump lvl v))%nat.
Proof.
  induction v as [|b|z|x|s|l IH|d IH] using json_induction; intros W lvl.
  - simpl. lia.
  - destruct b; simpl; lia.
  - pose proof (opens_length _ (proj1 (readable_int z) lvl "")) as L.
    rewrite append_nil_r in L. exact L.
  - pose proof (opens_length _ (proj1 (readable_float x W) lvl "")) as L.
    rewrite append_nil_r in L. exact L.
  - simpl. lia.
  - destruct l as [|x l]; [simpl; lia|].
    apply wf_list in W. inversion W as [|? ? Wx Wl]; subst.
    cbn [dump size]. inversion IH as [|? ? Hx Hl]; subst.
    rewrite !length_append.
    assert (Hl' : Forall (fun x => forall lvl,
                    (size x <= String.length (dump lvl x))%nat) l).
    { clear - Hl Wl. induction Hl as [|y l Hy _ IHl]; constructor.
      - apply Hy. inversion Wl; assumption.
      - apply IHl. inversion Wl; assumption. }
    pose proof (size_dump_items lvl (S lvl) l Hl') as B.
    specialize (Hx Wx (S lvl)). unfold items_size in B. simpl. lia.
  - destruct d as [|[k x] d]; [simpl; lia|].
    apply wf_obj in W. destruct W as (_ & W).
    inversion W as [|? ? (_ & Wx) Wd]; subst. cbn [snd] in Wx.
    cbn [dump size]. inversion IH as [|? ? Hx Hd]; subst.
    rewrite !length_append.
    assert (Hd' : Forall (fun kv => forall lvl,
                    (size (snd kv) <= String.length (dump lvl (snd kv)))%nat) d).
    { clear - Hd Wd. induction Hd as [|kv d Hy _ IHd]; constructor.
      - apply Hy. inversion Wd as [|? ? (_ & Wy) _]; assumption.
      - apply IHd. inversion Wd; assumption. }
    pose proof (size_dump_members lvl (S lvl) d Hd') as B.
    specialize (Hx Wx (S lvl)). simpl in Hx. unfold members_size in B.
    simpl. lia.
Qed.

(** [json.loads(json.dumps(v, indent=2))] is [v] for every value whose
    dictionaries have distinct keys, whose strings hold no surrogate and
    whose floats are no NaN. *)
Lemma loads_dumps (v : json) : wf v -> loads (dumps v) = Some v.
Proof.
  intros W. unfold loads, dumps.
  pose proof (proj2 (wf_readable v W) 0%nat "" (S (String.length (dump 0 v)))
                eq_refl) as D.
  rewrite append_nil_r in D. rewrite D; [reflexivity|].
  pose proof (size_dump v W 0%nat). lia.
Qed.

(** ** Equality *)

Lemma same_value_refl (s : bool) (m e : Z) :
  Float.same_value s m e s m e = true.
Proof. unfold Float.same_value. apply Z.eqb_refl. Qed.

Lemma dict_lookup_in (d : dict) (k : string) (x : json) :
  NoDup (map fst d) -> In (k, x) d -> dict_lookup d k = Some x.
Proof.
  induction d as [|[k' y] d IH]; simpl; intros Hn Hin; [contradiction|].
  inversion Hn as [|? ? Hk Hd]; subst.
  destruct Hin as [E|Hin].
  - inversion E; subst. rewrite String.eqb_refl. reflexivity.
  - destruct (String.eqb_spec k k') as [->|_]; [|apply IH; assumption].
    exfalso. apply Hk. apply (in_map fst) in Hin. exact Hin.
Qed.

(** A value without NaN is equal to itself. *)
Lemma py_eq_refl (v : json) : wf v -> py_eq v v = true.
Proof.
  induction v as [|b|z|x|s|l IH|d IH] using json_induction; intros W.
  - reflexivity.
  - destruct b; reflexivity.
  - simpl. apply Z.eqb_refl.
  - simpl in W. destruct x as [s m e|s|]; simpl.
    + apply same_value_refl.
    + destruct s; reflexivity.
    + discriminate W.
  - simpl. apply String.eqb_refl.
  - cbn [py_eq]. apply wf_list in W.
    induction IH as [|x l Hx _ IHl]; [reflexivity|].
    inversion W; subst. cbn [items_eq]. rewrite Hx by assumption.
    apply IHl. assumption.
  - cbn [py_eq]. rewrite Nat.eqb_refl. cbn [andb].
    apply wf_obj in W. destruct W as (Hn & W).
    assert (G : forall d0, incl d0 d ->
                  Forall (fun kv => wf (snd kv) -> py_eq (snd kv) (snd kv) = true) d0 ->
                  Forall (fun kv => Utf8.valid (fst kv) = true /\ wf (snd kv)) d0 ->
                  members_eq py_eq d d0 = true).
    { induction d0 as [|[k x] d0 IHd]; intros Hi Hp Hw; [reflexivity|].
      cbn [members_eq].
      rewrite (dict_lookup_in d k x Hn) by (apply Hi; left; reflexivity).
      inversion Hp as [|? ? Px Pd]; subst.
      inversion Hw as [|? ? (_ & Wx) Wd]; subst.
      cbn [snd] in Px, Wx. rewrite (Px Wx). cbn [andb]. apply IHd; [|assumption|assumption].
      intros a Ha. apply Hi. right. exact Ha. }
    apply G; [apply incl_refl | exact IH | exact W].
Qed.

End JsonFacts.
(* ===================================================================== *)
(** * The license gate                                                    *)
(* ===================================================================== *)

Module LicenseFacts.
Import Py Py.Notations Json LicenseManager.

Section Gate.
Context {lib : DateTime.Lib}.

Lemma can_use_app_validate (env : Env) (self : t) :
  can_use_app env self =
  match validate env self with
  | (Ok s, self') => (Ok (admits s), self')
  | (Raise e, self') => (Raise e, self')
  end.
Proof.
  unfold can_use_app, bind, ret, admits.
  destruct (validate env self) as [[s|e] self']; reflexivity.
Qed.

Lemma validate_no_data (env : Env) (self : t) :
  self.(_license_data) = [] ->
  validate env self = (Ok NO_LICENSE, set_status NO_LICENSE self).
Proof.
  intros E. unfold validate, bind, get. rewrite E. reflexivity.
Qed.

(** C1.  The gate admits the user exactly in the statuses VALID, TRIAL
    and OFFLINE: [can_use_app] returns [True] if and only if [validate]
    returns one of these three, returns [False] if and only if [validate]
    returns TRIAL_EXPIRED, EXPIRED, INVALID or NO_LICENSE (leaving the
    manager as [validate] leaves it), and [validate] on a manager with
    empty license data returns NO_LICENSE. *)
Theorem can_use_app_spec (env : Env) (self : t) :
  (forall self',
     can_use_app env self = (Ok true, self') <->
     exists s, validate env self = (Ok s, self') /\
               (s = VALID \/ s = TRIAL \/ s = OFFLINE)) /\
  (forall self',
     can_use_app env self = (Ok false, self') <->
     exists s, validate env self = (Ok s, self') /\
               (s = TRIAL_EXPIRED \/ s = EXPIRED \/ s = INVALID \/
                s = NO_LICENSE)) /\
  validate env (set_license_data [] self) =
    (Ok NO_LICENSE, set_status NO_LICENSE (set_license_data [] self)).
Proof.
  rewrite can_use_app_validate.
  split; [|split].
  - intros self'. destruct (validate env self) as [[s|e] self1]; split.
    + intros E. inversion E; subst. exists s. split; [reflexivity|].
      destruct s; simpl in *; try discriminate; auto.
    + intros (s' & E & Hs). inversion E; subst.
      destruct Hs as [->|[->| ->]]; reflexivity.
    + discriminate.
    + intros (s' & E & _). discriminate.
  - intros self'. destruct (validate env self) as [[s|e] self1]; split.
    + intros E. inversion E; subst. exists s. split; [reflexivity|].
      destruct s; simpl in *; try discriminate; auto.
    + intros (s' & E & Hs). inversion E; subst.
      destruct Hs as [->|[->|[->| ->]]]; reflexivity.
    + discriminate.
    + intros (s' & E & _). discriminate.
  - apply validate_no_data. reflexivity.
Qed.

End Gate.

(** The gate on a trial that started on 1 January 2025, asked on
    11 January. *)
Lemma can_use_app_spec_witness :
  can_use_app (lib := DateTime.iso_lib)
    (Scenario.offline_at Scenario.jan_11) (Scenario.on_trial Scenario.jan_1)
  = (Ok true, Scenario.on_trial Scenario.jan_1).
Proof.
  apply (proj1 (can_use_app_spec (lib := DateTime.iso_lib)
                  (Scenario.offline_at Scenario.jan_11)
                  (Scenario.on_trial Scenario.jan_1))).
  exists TRIAL. split; [vm_compute; reflexivity | auto].
Defined.

(* --------------------------------------------------------------------- *)
(** ** Trial accounting                                                   *)
(* --------------------------------------------------------------------- *)

Section Trial.
Context {lib : DateTime.Lib}.

Lemma get_trial_days_left_no_start (env : Env) (self : t) :
  dict_lookup self.(_license_data) "trial_start" = None ->
  get_trial_days_left env self = Ok self.(trial_days).
Proof.
  intros E. unfold get_trial_days_left. rewrite E. reflexivity.
Qed.

Lemma get_trial_days_left_started (env : Env) (self : t) (s : string) (t0 : Z) :
  dict_lookup self.(_license_data) "trial_start" = Some (JStr s) ->
  DateTime.fromisoformat s = Some t0 ->
  Z.abs self.(trial_days) <= 999999999 ->
  0 <= t0 + self.(trial_days) * DateTime.usec_per_day <= DateTime.datetime_max ->
  get_trial_days_left env self =
    Ok (Z.max 0 (DateTime.days_between
                   (t0 + self.(trial_days) * DateTime.usec_per_day)
                   env.(now))).
Proof.
  intros E P Hd [Hlo Hhi].
  unfold get_trial_days_left. rewrite E. simpl. rewrite P. simpl.
  unfold DateTime.timedelta_days.
  destruct (Z.leb_spec (Z.abs (trial_days self)) 999999999); [|lia].
  simpl. unfold DateTime.add.
  destruct (Z.leb_spec 0 (t0 + trial_days self * DateTime.usec_per_day)); [|lia].
  destruct (Z.leb_spec (t0 + trial_days self * DateTime.usec_per_day)
                       DateTime.datetime_max); [|lia].
  reflexivity.
Qed.

Lemma get_trial_days_left_nonneg (env : Env) (self : t) (n : Z) :
  get_trial_days_left env self = Ok n ->
  0 <= self.(trial_days) \/ dict_mem self.(_license_data) "trial_start" = true ->
  0 <= n.
Proof.
  unfold get_trial_days_left, dict_mem.
  destruct (dict_lookup (_license_data self) "trial_start") as [v|].
  - intros E _.
    destruct (DateTime.fromisoformat_value v); [|discriminate]. simpl in E.
    destruct (DateTime.timedelta_days (trial_days self)); [|discriminate].
    simpl in E.
    destruct (DateTime.add a a0); [|discriminate]. simpl in E.
    inversion E. lia.
  - intros E [Hd|Hm]; [|discriminate]. inversion E; subst. exact Hd.
Qed.

Lemma validate_trial (env : Env) (self : t) (ty : string) :
  dict_lookup self.(_license_data) "license_type" = Some (JStr ty) ->
  ty = "trial" \/ ty = "trial_offline" ->
  validate env self =
  match get_trial_days_left env self with
  | Ok n =>
      let s := if n >? 0 then TRIAL else TRIAL_EXPIRED in
      (Ok s, set_status s self)
  | Raise e => (Raise e, self)
  end.
Proof.
  intros E Hty. unfold validate, bind, get, lift.
  destruct (_license_data self) as [|kv d] eqn:D; [discriminate|].
  unfold dict_get. rewrite E.
  replace (eq_str (JStr ty) "trial" || eq_str (JStr ty) "trial_offline")
    with true by (destruct Hty as [-> | ->]; reflexivity).
  destruct (get_trial_days_left env self) as [n|e]; [|reflexivity].
  destruct (n >? 0); reflexivity.
Qed.

(** C2 (amended).  [get_trial_days_left] returns the configured
    [trial_days] when no ['trial_start'] is recorded; when ['trial_start']
    holds a timestamp and the end of the trial is a representable date, it
    returns the maximum of 0 and the number of whole days from now to
    [trial_start + trial_days]; whatever it returns is not negative as
    soon as a ['trial_start'] is recorded or the configured [trial_days]
    is not negative; and for a license of type ['trial'] or
    ['trial_offline'], [validate] returns TRIAL exactly when
    [get_trial_days_left] returns a positive number and TRIAL_EXPIRED
    when it returns any other number. *)
Theorem trial_accounting (env : Env) (self : t) :
  (dict_lookup self.(_license_data) "trial_start" = None ->
   get_trial_days_left env self = Ok self.(trial_days)) /\
  (forall s t0,
     dict_lookup self.(_license_data) "trial_start" = Some (JStr s) ->
     DateTime.fromisoformat s = Some t0 ->
     Z.abs self.(trial_days) <= 999999999 ->
     0 <= t0 + self.(trial_days) * DateTime.usec_per_day
       <= DateTime.datetime_max ->
     get_trial_days_left env self =
       Ok (Z.max 0 ((t0 + self.(trial_days) * DateTime.usec_per_day
                     - env.(now)) / DateTime.usec_per_day))) /\
  (forall n,
     get_trial_days_left env self = Ok n ->
     0 <= self.(trial_days) \/
     dict_mem self.(_license_data) "trial_start" = true ->
     0 <= n) /\
  (forall ty n,
     dict_lookup self.(_license_data) "license_type" = Some (JStr ty) ->
     ty = "trial" \/ ty = "trial_offline" ->
     get_trial_days_left env self = Ok n ->
     (0 < n ->
      validate env self = (Ok TRIAL, set_status TRIAL self)) /\
     (n <= 0 ->
      validate env self = (Ok TRIAL_EXPIRED, set_status TRIAL_EXPIRED self))).
Proof.
  split; [|split; [|split]].
  - apply get_trial_days_left_no_start.
  - intros s t0. apply get_trial_days_left_started.
  - intros n. apply get_trial_days_left_nonneg.
  - intros ty n E Hty R.
    rewrite (validate_trial env self ty E Hty), R. simpl.
    split; intros Hn.
    + destruct (Z.gtb_spec n 0); [reflexivity | lia].
    + destruct (Z.gtb_spec n 0); [lia | reflexivity].
Qed.

End Trial.

(** C2, as stated, fails: a manager configured with a negative number of
    trial days and no recorded ['trial_start'] reports a negative number
    of days left. *)
Lemma trial_days_left_negative :
  exists n,
    get_trial_days_left (lib := DateTime.iso_lib)
      (Scenario.offline_at Scenario.jan_1) (Scenario.fresh (-1)) = Ok n /\
    n < 0.
Proof.
  exists (-1). split; [reflexivity | lia].
Qed.

(** A trial started on 1 January 2025 at midnight, asked ten days and
    one microsecond later: 19 whole days are left and [validate] answers
    TRIAL. *)
Lemma trial_accounting_witness :
  let env := Scenario.offline_at (Scenario.jan_11 + 1) in
  get_trial_days_left (lib := DateTime.iso_lib) env (Scenario.fresh default_trial_days)
    = Ok 30 /\
  get_trial_days_left (lib := DateTime.iso_lib) env (Scenario.on_trial Scenario.jan_1)
    = Ok 19 /\
  0 <= 19 /\
  validate (lib := DateTime.iso_lib) env (Scenario.on_trial Scenario.jan_1)
    = (Ok TRIAL, set_status TRIAL (Scenario.on_trial Scenario.jan_1)).
Proof.
  intros env.
  pose proof (trial_accounting (lib := DateTime.iso_lib) env
                (Scenario.fresh default_trial_days)) as (A & _).
  pose proof (trial_accounting (lib := DateTime.iso_lib) env
                (Scenario.on_trial Scenario.jan_1)) as (_ & B & C & D).
  split; [|split; [|split]].
  - apply A. reflexivity.
  - apply (B "2025-01-01T00:00:00" Scenario.jan_1);
      [reflexivity | reflexivity | simpl; lia | vm_compute; split; discriminate].
  - apply (C 19); [reflexivity | right; reflexivity].
  - apply (D "trial" 19); [reflexivity | left; reflexivity | reflexivity | lia].
Defined.

(* --------------------------------------------------------------------- *)
(** ** Paid licenses: reconciliation with the server                      *)
(* --------------------------------------------------------------------- *)

Section Paid.
Context {lib : DateTime.Lib}.


Lemma validate_paid (env : Env) (self : t) :
  paid self ->
  validate env self =
  match validate_request env self with
  | Fails =>
      match validate_cached env self with
      | (Ok _, self') => (Ok self'.(_status), self')
      | (Raise e, self') => (Raise e, self')
      end
  | Responds code body =>
      if code =? 200 then
        match
          try_except
            (data <- response_json body ;;
             valid <- lift (obj_get data "valid" JNull) ;;
             if truthy valid then
               expiry_date <- lift (obj_get data "expiry_date" JNull) ;;
               modify (fun self => set_license_data
                 (dict_set self.(_license_data) "expiry_date" expiry_date) self) ;;;
               _save_license ;;;
               self <- get ;;
               expiry <- lift (get_expiry_date self) ;;
               match expiry with
               | Some d =>
                   if d <? env.(now) then modify (set_status EXPIRED)
                   else modify (set_status VALID)
               | None => modify (set_status VALID)
               end
             else modify (set_status INVALID))%py
            is_RequestException (fun _ => validate_cached env) self
        with
        | (Ok _, self') => (Ok self'.(_status), self')
        | (Raise e, self') => (Raise e, self')
        end
      else (Ok OFFLINE, set_status OFFLINE self)
  end.
Proof.
  intros P. unfold validate, validate_request.
  unfold bind at 1. unfold get at 1.
  destruct (_license_data self) as [|kv d] eqn:D.
  { destruct P as [P|P]; rewrite D in P; discriminate. }
  unfold dict_get at 1 2 3 4.
  replace (dict_lookup (kv :: d) "license_type") with
    (dict_lookup (_license_data self) "license_type") by (rewrite D; reflexivity).
  assert (exists ty, dict_lookup (_license_data self) "license_type" = Some (JStr ty)
                     /\ (ty = "pro" \/ ty = "lifetime")) as (ty & -> & Hty).
  { destruct P as [P|P]; rewrite P; eauto. }
  replace (eq_str (JStr ty) "trial" || eq_str (JStr ty) "trial_offline")
    with false by (destruct Hty as [-> | ->]; reflexivity).
  replace (eq_str (JStr ty) "pro" || eq_str (JStr ty) "lifetime")
    with true by (destruct Hty as [-> | ->]; reflexivity).
  unfold requests_post. rewrite <- D.
  destruct (post env _ _) as [code body|].
  - unfold bind at 1. unfold try_except at 1. unfold bind at 1. unfold ret at 1.
    cbn [fst snd].
    destruct (code =? 200).
    + unfold try_except.
      match goal with
      | |- context [ (?c self) ] =>
          match type of (c self) with
          | (result unit * t)%type => destruct (c self) as [[u|e] self1]
          end
      end.
      * reflexivity.
      * destruct (is_RequestException e); [|reflexivity].
        destruct (validate_cached env self1) as [[u|e'] self2]; reflexivity.
    + reflexivity.
  - unfold bind at 1. unfold try_except, bind, raise. cbn.
    destruct (validate_cached env self) as [[u|e'] self2]; reflexivity.
Qed.

End Paid.

Section PaidFallback.
Context {lib : DateTime.Lib}.

Lemma validate_cached_expiry (env : Env) (self : t) (s : string) (d : Z) :
  dict_lookup self.(_license_data) "expiry_date" = Some (JStr s) ->
  DateTime.fromisoformat s = Some d ->
  validate_cached env self =
    (Ok tt, set_status (if d <? env.(now) then EXPIRED else OFFLINE) self).
Proof.
  intros E P. unfold validate_cached, bind, get, lift, get_expiry_date.
  rewrite E. simpl. rewrite P. simpl.
  destruct (d <? now env); reflexivity.
Qed.

Lemma validate_cached_no_expiry (env : Env) (self : t) :
  dict_lookup self.(_license_data) "expiry_date" = None ->
  validate_cached env self = (Ok tt, set_status OFFLINE self).
Proof.
  intros E. unfold validate_cached, bind, get, lift, get_expiry_date.
  rewrite E. reflexivity.
Qed.

(** What holds of the fallback to the cache: for a paid license whose
    cached ['expiry_date'] is a timestamp or is absent, a request that
    raises a network error gives EXPIRED when the cached expiry is in the
    past and OFFLINE otherwise, and an answer with a status other than 200
    gives OFFLINE whatever the cache holds. *)
Lemma validate_paid_fallback (env : Env) (self : t) :
  paid self ->
  (validate_request env self = Fails ->
   (forall s d,
      dict_lookup self.(_license_data) "expiry_date" = Some (JStr s) ->
      DateTime.fromisoformat s = Some d ->
      (d < env.(now) ->
       validate env self = (Ok EXPIRED, set_status EXPIRED self)) /\
      (env.(now) <= d ->
       validate env self = (Ok OFFLINE, set_status OFFLINE self))) /\
   (dict_lookup self.(_license_data) "expiry_date" = None ->
    validate env self = (Ok OFFLINE, set_status OFFLINE self))) /\
  (forall code body,
     validate_request env self = Responds code body ->
     code <> 200 ->
     validate env self = (Ok OFFLINE, set_status OFFLINE self)).
Proof.
  intros P. rewrite (validate_paid env self P). split.
  - intros ->. split.
    + intros s d E Hp. rewrite (validate_cached_expiry env self s d E Hp).
      split; intros Hd.
      * destruct (Z.ltb_spec d (now env)); [reflexivity | lia].
      * destruct (Z.ltb_spec d (now env)); [lia | reflexivity].
    + intros E. rewrite (validate_cached_no_expiry env self E). reflexivity.
  - intros code body -> Hc.
    destruct (Z.eqb_spec code 200); [contradiction | reflexivity].
Qed.

End PaidFallback.

(** C4, where the code departs from it.  A license activated against a
    server that sends no expiry date is stored with ['expiry_date'] set to
    [None]; when the validation request then raises a network error,
    [validate] does not return OFFLINE: [get_expiry_date] finds the key,
    passes [None] to [datetime.fromisoformat], and the [TypeError] leaves
    [validate]. *)
Theorem validate_offline_null_expiry_raises :
  let server :=
    Scenario.online_at Scenario.jan_1 200 (Some (JObj [("license_type", JStr "lifetime")])) in
  let activated :=
    snd (activate_license (lib := DateTime.iso_lib) server "KEY"
           (Scenario.on_trial Scenario.jan_1)) in
  dict_lookup activated.(_license_data) "license_type" = Some (JStr "lifetime") /\
  dict_lookup activated.(_license_data) "expiry_date" = Some JNull /\
  validate (lib := DateTime.iso_lib) (Scenario.offline_at Scenario.jan_11) activated
    = (Raise TypeError, activated).
Proof.
  vm_compute. repeat split.
Qed.

(** The same license validated while the server is reachable and answers
    that the license is valid, again without an expiry date: the answer
    is stored and saved, and then the same [TypeError] leaves
    [validate]. *)
Lemma validate_online_null_expiry_raises :
  let server :=
    Scenario.online_at Scenario.jan_11 200
      (Some (JObj [("valid", JBool true)])) in
  fst (validate (lib := DateTime.iso_lib) server Scenario.lifetime)
    = Raise TypeError.
Proof.
  vm_compute. reflexivity.
Qed.

(** C10, where the code departs from it.  When the server answers an
    activation with a status other than 200 and a body that is JSON but
    not an object (here the string ["invalid key"]), [activate_license]
    does not return [(False, message)]: [response.json().get] raises an
    [AttributeError], which is no [RequestException] and leaves the
    call.  The manager is unchanged. *)
Theorem activate_license_error_body_raises :
  activate_license (lib := DateTime.iso_lib)
    (Scenario.online_at Scenario.jan_1 400 (Some (JStr "invalid key"))) "KEY"
    (Scenario.on_trial Scenario.jan_1)
  = (Raise AttributeError, Scenario.on_trial Scenario.jan_1).
Proof.
  vm_compute. reflexivity.
Qed.

(* --------------------------------------------------------------------- *)
(** ** Starting a trial, activating a license                             *)
(* --------------------------------------------------------------------- *)

Section Activation.
Context {lib : DateTime.Lib}.



(** [activate_license] by cases on what the server does. *)
Lemma activate_license_cases (env : Env) (license_key : string) (self : t) :
  activate_license env license_key self =
  match activate_request env license_key self with
  | Fails => (Ok (false, ConnectionError RequestException), self)
  | Responds code None => (Ok (false, ConnectionError JSONDecodeError), self)
  | Responds code (Some (JObj d)) =>
      if code =? 200 then
        (Ok (true, Activated),
         saved_with (activated_data env license_key self d) VALID self)
      else (Ok (false, ActivationError (dict_lookup d "error")), self)
  | Responds code (Some _) => (Raise AttributeError, self)
  end.
Proof.
  unfold activate_request, activate_license, requests_post.
  unfold try_except, bind at 1 2, get.
  destruct (post env _ _) as [code body|]; [|reflexivity].
  unfold bind at 1, ret at 1. cbn [fst snd].
  destruct (code =? 200); destruct body as [[| | | | | |d]|]; reflexivity.
Qed.

(** What holds of a failed activation: the manager, its file and its
    status are unchanged whether the call returns or raises; the call
    returns [(False, message)] when the request raises a network error and
    when the server answers with a status other than 200 and a body that
    is a JSON object or no JSON at all; and when the manager has changed,
    the server has answered 200. *)
Lemma activate_license_atomic (env : Env) (license_key : string) (self : t) :
  (forall code body,
     activate_request env license_key self = Responds code body ->
     code <> 200 ->
     snd (activate_license env license_key self) = self /\
     (forall d, body = Some (JObj d) ->
        fst (activate_license env license_key self)
        = Ok (false, ActivationError (dict_lookup d "error"))) /\
     (body = None ->
        fst (activate_license env license_key self)
        = Ok (false, ConnectionError JSONDecodeError))) /\
  (activate_request env license_key self = Fails ->
     activate_license env license_key self
     = (Ok (false, ConnectionError RequestException), self)) /\
  (snd (activate_license env license_key self) <> self ->
     exists body, activate_request env license_key self = Responds 200 body).
Proof.
  rewrite activate_license_cases.
  destruct (activate_request env license_key self) as [code body|].
  - split; [|split].
    + intros code' body' E Hc. inversion E; subst code' body'. clear E.
      destruct (Z.eqb_spec code 200); [contradiction|].
      destruct body as [[| | | | | |d]|]; repeat split; intros; try discriminate;
        try reflexivity.
      inversion H; reflexivity.
    + discriminate.
    + intros Hne. destruct (Z.eqb_spec code 200) as [->|Hc]; [eauto|].
      exfalso. apply Hne.
      destruct body as [[| | | | | |d]|]; reflexivity.
  - split; [|split].
    + discriminate.
    + reflexivity.
    + intros Hne. exfalso. apply Hne. reflexivity.
Qed.

(** A successful activation: on an answer 200 whose body is a JSON
    object, the license data are updated with the key, saved, and the
    status is VALID. *)
Lemma activate_license_success (env : Env) (license_key : string) (self : t)
    (d : dict) :
  activate_request env license_key self = Responds 200 (Some (JObj d)) ->
  activate_license env license_key self =
    (Ok (true, Activated),
     saved_with (activated_data env license_key self d) VALID self).
Proof.
  intros E. rewrite activate_license_cases, E. reflexivity.
Qed.


(** C9.  [start_trial] never fails: for every email, whatever the server
    does (an answer 200, an answer with another status, a request that
    raises a network error), it returns [True], sets the status to TRIAL
    and stores license data that hold the email, the current time under
    ['trial_start'] and the license type, ['trial'] or, on the offline
    paths, ['trial_offline']; the license file holds these data. *)
Theorem start_trial_never_fails (env : Env) (email : string) (self : t) :
  exists data : dict,
    start_trial env email self = (Ok true, saved_with data TRIAL self) /\
    dict_lookup data "email" = Some (JStr email) /\
    dict_lookup data "trial_start"
      = Some (JStr (DateTime.isoformat env.(now))) /\
    dict_lookup data "license_type"
      = Some (JStr (trial_type (trial_request env email self))).
Proof.
  unfold trial_request, start_trial, requests_post.
  unfold try_except, bind at 1 2, get.
  destruct (post env _ _) as [code body|].
  - unfold bind at 1, ret at 1. cbn [fst snd].
    unfold trial_type.
    destruct (code =? 200); [destruct body as [data|]|].
    + eexists; split; [reflexivity|]. repeat split.
    + eexists; split; [reflexivity|]. repeat split.
    + destruct body; eexists; (split; [reflexivity|]); repeat split.
  - eexists; split; [reflexivity|]. repeat split.
Qed.

End Activation.

(* --------------------------------------------------------------------- *)
(** ** Persistence                                                        *)
(* --------------------------------------------------------------------- *)




End LicenseFacts.

(* ===================================================================== *)
(** * The bridge to the command-line assistant                            *)
(* ===================================================================== *)

Module BridgeFacts.
Import Text ClaudeBridge.
#[local] Close Scope string_scope.

Lemma lstrip_nil_iff (s : text) :
  lstrip s = [] <-> forallb isspace s = true.
Proof.
  induction s as [|c s IH]; simpl.
  - tauto.
  - destruct (isspace c); simpl.
    + exact IH.
    + split; discriminate.
Qed.

Lemma forallb_lstrip (s : text) :
  forallb isspace (lstrip s) = forallb isspace s.
Proof.
  induction s as [|c s IH]; simpl; [reflexivity|].
  destruct (isspace c) eqn:E; simpl; [exact IH|].
  rewrite E. reflexivity.
Qed.

Lemma forallb_rev {A} (p : A -> bool) (l : list A) :
  forallb p (rev l) = forallb p l.
Proof.
  induction l as [|x l IH]; simpl; [reflexivity|].
  rewrite forallb_app, IH. simpl. rewrite andb_true_r. apply andb_comm.
Qed.

(** A text is blank, in the sense of [not s.strip()], exactly when all
    its code points are whitespace. *)
Lemma strip_blank (s : text) :
  nonempty (strip s) = negb (forallb isspace s).
Proof.
  assert (E : strip s = [] <-> forallb isspace s = true).
  { unfold strip, rstrip. split.
    - intros E. apply (f_equal (@rev N)) in E. rewrite rev_involutive in E.
      simpl in E. apply lstrip_nil_iff in E.
      rewrite forallb_rev, forallb_lstrip in E. exact E.
    - intros E.
      assert (E' : lstrip (rev (lstrip s)) = []).
      { apply lstrip_nil_iff. rewrite forallb_rev, forallb_lstrip. exact E. }
      rewrite E'. reflexivity. }
  destruct (forallb isspace s).
  - rewrite (proj2 E eq_refl). reflexivity.
  - destruct (strip s); [|reflexivity].
    discriminate (proj1 E eq_refl).
Qed.

(** The streaming loop hands every line to [on_output], in order, and
    accumulates the lines. *)
Lemma read_output_spec (self : t) (lines : list text) (acc : text) :
  read_output self lines acc =
    (acc ++ List.concat lines,
     flat_map (fun line => call self.(on_output) (OnOutput line)) lines).
Proof.
  revert acc. induction lines as [|line rest IH]; intros acc; simpl.
  - rewrite app_nil_r. reflexivity.
  - rewrite IH, <- app_assoc. reflexivity.
Qed.

Lemma flat_map_singleton {A B} (f : A -> B) (l : list A) :
  flat_map (fun x => [f x]) l = map f l.
Proof.
  induction l as [|x l IH]; simpl; [reflexivity | rewrite IH; reflexivity].
Qed.

(** C3.  For every query text and every child process, with both
    callbacks connected, [_execute_query] launches the command with the
    arguments [[command, '--print', text]], calls [on_output] once for
    each line of the standard output, in the order of the lines, and then
    calls [on_response_complete] with the concatenation of the lines
    exactly when that concatenation is not blank; a response of
    whitespace alone gets no completion call.  (Before the launch,
    [on_output] is also given the processing notice.) *)
Theorem execute_query_trace (query : text) (stdout : list text)
    (stderr : text) (self : t) :
  self.(on_output) = true ->
  self.(on_response_complete) = true ->
  fst (_execute_query (Runs stdout stderr) query self) =
    [OnOutput processing_notice;
     Popen [self.(command); of_string "--print"; query]] ++
    map OnOutput stdout ++
    [Wait; ReadStderr] ++
    (if forallb isspace (List.concat stdout) then []
     else [OnResponseComplete (List.concat stdout)]).
Proof.
  intros Ho Hc. unfold _execute_query.
  rewrite read_output_spec, Ho, Hc. simpl.
  rewrite strip_blank, flat_map_singleton.
  destruct (forallb isspace (List.concat stdout)); reflexivity.
Qed.

(** A child that prints two lines, and one that prints only blanks. *)
Lemma execute_query_trace_witness :
  let bridge := mk (of_string "claude") true false true true true in
  let hello := of_string "hello" ++ [10%N] in
  let world := of_string "world" ++ [10%N] in
  fst (_execute_query (Runs [hello; world] []) (of_string "hi") bridge) =
    [OnOutput processing_notice;
     Popen [of_string "claude"; of_string "--print"; of_string "hi"];
     OnOutput hello; OnOutput world; Wait; ReadStderr;
     OnResponseComplete (hello ++ world)] /\
  fst (_execute_query (Runs [[32%N; 10%N]; [10%N]] []) (of_string "hi") bridge) =
    [OnOutput processing_notice;
     Popen [of_string "claude"; of_string "--print"; of_string "hi"];
     OnOutput [32%N; 10%N]; OnOutput [10%N]; Wait; ReadStderr].
Proof.
  intros bridge hello world. split.
  - apply (execute_query_trace (of_string "hi") [hello; world] [] bridge);
      reflexivity.
  - apply (execute_query_trace (of_string "hi") [[32%N; 10%N]; [10%N]] [] bridge);
      reflexivity.
Defined.

End BridgeFacts.

(* ===================================================================== *)
(** * The speech-to-text state machine                                    *)
(* ===================================================================== *)

Module STTFacts.
Import STTEngine.


Lemma stop_recording_not_recording (env : Env) (self : t) :
  self.(state) <> RECORDING -> stop_recording env self = ([], self).
Proof.
  intros Hs. unfold stop_recording.
  destruct (state self); try reflexivity. contradiction.
Qed.

Lemma transcribe_audio_idle (env : Env) (self : t) :
  (snd (_transcribe_audio env self)).(state) = IDLE /\
  (snd (_transcribe_audio env self)).(_audio_buffer) = [].
Proof. split; reflexivity. Qed.

Lemma stop_recording_processing (env : Env) (self : t) :
  self.(state) = RECORDING ->
  self.(_audio_buffer) <> [] ->
  (snd (stop_recording env self)).(state) = PROCESSING /\
  (snd (stop_recording env self)).(_audio_buffer) = self.(_audio_buffer) /\
  (snd (stop_recording env self)).(api_key) = self.(api_key) /\
  In (ThreadStart transcribe_audio) (fst (stop_recording env self)) /\
  existsb is_upload (fst (stop_recording env self)) = false.
Proof.
  intros Hs Hb. unfold stop_recording. rewrite Hs. simpl.
  destruct (_audio_buffer self) as [|b l] eqn:B; [contradiction|].
  simpl. rewrite B. repeat split.
  - apply in_or_app. right. apply in_or_app. right. left. reflexivity.
  - rewrite !existsb_app.
    destruct (_recording_thread self && recording_alive env);
      destruct (on_state_changed self); reflexivity.
Qed.

Lemma stop_recording_empty (env : Env) (self : t) :
  self.(state) = RECORDING ->
  self.(_audio_buffer) = [] ->
  (snd (stop_recording env self)).(state) = IDLE /\
  ~ In (ThreadStart transcribe_audio) (fst (stop_recording env self)) /\
  existsb is_upload (fst (stop_recording env self)) = false.
Proof.
  intros Hs Hb. unfold stop_recording. rewrite Hs. simpl. rewrite Hb.
  simpl. repeat split.
  - intros Hin. apply in_app_or in Hin. destruct Hin as [Hin|Hin].
    + destruct (_recording_thread self && recording_alive env); simpl in Hin;
        intuition discriminate.
    + destruct (on_state_changed self); simpl in Hin; intuition discriminate.
  - rewrite existsb_app.
    destruct (_recording_thread self && recording_alive env);
      destruct (on_state_changed self); reflexivity.
Qed.

Lemma transcribe_audio_uploads (env : Env) (self : t) (path : string) :
  self.(api_key) <> "" ->
  self.(_audio_buffer) <> [] ->
  env.(temp_wav) = Written path ->
  exists rest,
    fst (_transcribe_audio env self) =
      WriteWav path self.(channels) 2 self.(sample_rate)
        (List.concat self.(_audio_buffer)) ::
      HttpPost self.(api_url) self.(api_key) path "whisper-large-v3"
        self.(language) :: rest.
Proof.
  intros Hk Hb Hw. unfold _transcribe_audio.
  destruct (String.eqb_spec (api_key self) ""); [contradiction|].
  destruct (_audio_buffer self) as [|b l] eqn:B; [contradiction|].
  unfold _save_wav, _send_to_groq. rewrite Hw.
  destruct (post env) as [code text|msg].
  - destruct (code =? 200); simpl; eexists; reflexivity.
  - simpl; eexists; reflexivity.
Qed.

Lemma transcribe_audio_no_key (env : Env) (self : t) :
  self.(api_key) = "" ->
  existsb is_upload (fst (_transcribe_audio env self)) = false.
Proof.
  intros Hk. unfold _transcribe_audio. rewrite Hk. simpl.
  rewrite existsb_app.
  destruct (on_error self); destruct (on_state_changed self); reflexivity.
Qed.

(** C5 (amended).  [stop_recording] does nothing unless the state is
    RECORDING.  When recording stops with a non-empty buffer, the state
    becomes PROCESSING and the transcription is started; provided an API
    key is set, the transcription writes the captured audio to a WAV file
    and, the file written, posts it to the transcription endpoint; with
    an empty API key it writes no file and posts nothing.  With an empty
    buffer the state goes straight to IDLE, with no transcription and no
    upload.  After a transcription, whether it succeeded or failed, the
    state is IDLE and the buffer is empty. *)
Theorem stt_state_machine (env : Env) (self : t) :
  (self.(state) <> RECORDING -> stop_recording env self = ([], self)) /\
  (self.(state) = RECORDING ->
   self.(_audio_buffer) <> [] ->
   let stopped := snd (stop_recording env self) in
   stopped.(state) = PROCESSING /\
   In (ThreadStart transcribe_audio) (fst (stop_recording env self)) /\
   (self.(api_key) <> "" ->
    forall path, env.(temp_wav) = Written path ->
    exists rest,
      fst (_transcribe_audio env stopped) =
        WriteWav path self.(channels) 2 self.(sample_rate)
          (List.concat self.(_audio_buffer)) ::
        HttpPost self.(api_url) self.(api_key) path "whisper-large-v3"
          self.(language) :: rest) /\
   (self.(api_key) = "" ->
    existsb is_upload (fst (_transcribe_audio env stopped)) = false)) /\
  (self.(state) = RECORDING ->
   self.(_audio_buffer) = [] ->
   (snd (stop_recording env self)).(state) = IDLE /\
   ~ In (ThreadStart transcribe_audio) (fst (stop_recording env self)) /\
   existsb is_upload (fst (stop_recording env self)) = false) /\
  (snd (_transcribe_audio env self)).(state) = IDLE /\
  (snd (_transcribe_audio env self)).(_audio_buffer) = [].
Proof.
  split; [|split; [|split]].
  - apply stop_recording_not_recording.
  - intros Hs Hb stopped. subst stopped.
    destruct (stop_recording_processing env self Hs Hb) as (S1 & S2 & S3 & S4 & _).
    set (stopped := snd (stop_recording env self)) in *.
    assert (Hfields : stopped.(channels) = self.(channels) /\
                      stopped.(sample_rate) = self.(sample_rate) /\
                      stopped.(api_url) = self.(api_url) /\
                      stopped.(language) = self.(language)).
    { subst stopped. unfold stop_recording. rewrite Hs. simpl.
      destruct (_audio_buffer self); [contradiction|]. repeat split. }
    destruct Hfields as (F1 & F2 & F3 & F4). clearbody stopped.
    split; [exact S1|]. split; [exact S4|]. split.
    + intros Hk path Hw.
      rewrite <- S2, <- S3, <- F1, <- F2, <- F3, <- F4.
      apply transcribe_audio_uploads; congruence.
    + intros Hk. apply transcribe_audio_no_key. congruence.
  - apply stop_recording_empty.
  - apply transcribe_audio_idle.
Qed.


(** C5, as stated, fails: an engine built without an API key (the
    default of the constructor) that stops recording with audio in its
    buffer goes to PROCESSING, and its transcription writes no WAV file
    and posts nothing. *)
Lemma stt_no_upload_without_key :
  let recording := audio_callback [1; 2; 3] (snd (start_recording (init ""))) in
  let stopped := snd (stop_recording Scenario.quiet recording) in
  recording.(state) = RECORDING /\
  recording.(_audio_buffer) = [[1; 2; 3]] /\
  stopped.(state) = PROCESSING /\
  existsb is_upload (fst (_transcribe_audio Scenario.quiet stopped)) = false.
Proof.
  repeat split.
Qed.

(** An engine with a key that has recorded one block, and an idle one. *)
Lemma stt_state_machine_witness :
  let recording :=
    audio_callback [1; 2; 3] (snd (start_recording (init "gsk_key"))) in
  let stopped := snd (stop_recording Scenario.quiet recording) in
  stop_recording Scenario.quiet (init "gsk_key") = ([], init "gsk_key") /\
  stopped.(state) = PROCESSING /\
  (exists rest,
     fst (_transcribe_audio Scenario.quiet stopped) =
       WriteWav "/tmp/claude_stt_0.wav" 1 2 16000 [1; 2; 3] ::
       HttpPost default_api_url "gsk_key" "/tmp/claude_stt_0.wav"
         "whisper-large-v3" "pl" :: rest) /\
  (snd (stop_recording Scenario.quiet (snd (start_recording (init "gsk_key"))))).(state)
    = IDLE.
Proof.
  intros recording stopped.
  pose proof (stt_state_machine Scenario.quiet (init "gsk_key")) as (A & _).
  pose proof (stt_state_machine Scenario.quiet recording) as (_ & B & _).
  pose proof (stt_state_machine Scenario.quiet (snd (start_recording (init "gsk_key"))))
    as (_ & _ & C & _).
  split; [|split; [|split]].
  - apply A. discriminate.
  - apply B; [reflexivity | discriminate].
  - destruct B as (_ & _ & U & _); [reflexivity | discriminate |].
    apply U; [discriminate | reflexivity].
  - apply C; reflexivity.
Defined.

End STTFacts.

(* ===================================================================== *)
(** * The text-to-speech playback state machine                           *)
(* ===================================================================== *)

Module TTSFacts.
Import TTSEngine.

Lemma TTSState_eqb_eq (a b : TTSState) : TTSState_eqb a b = true <-> a = b.
Proof. destruct a, b; simpl; split; intros E; congruence. Qed.

Lemma pause_spec (self : t) :
  (self.(state) = PLAYING -> (snd (pause self)).(state) = PAUSED) /\
  (self.(state) <> PLAYING -> pause self = ([], self)).
Proof.
  unfold pause. split; intros Hs.
  - rewrite Hs. reflexivity.
  - destruct (TTSState_eqb (state self) PLAYING) eqn:E; [|reflexivity].
    apply TTSState_eqb_eq in E. contradiction.
Qed.

Lemma resume_spec (self : t) :
  (self.(state) = PAUSED -> (snd (resume self)).(state) = PLAYING) /\
  (self.(state) <> PAUSED -> resume self = ([], self)).
Proof.
  unfold resume. split; intros Hs.
  - rewrite Hs. reflexivity.
  - destruct (TTSState_eqb (state self) PAUSED) eqn:E; [|reflexivity].
    apply TTSState_eqb_eq in E. contradiction.
Qed.

Lemma stop_idle (env : Env) (self : t) :
  (snd (stop env self)).(state) = IDLE.
Proof. reflexivity. Qed.

(** C6.  [pause] changes the state to PAUSED when the state is PLAYING
    and otherwise does nothing, leaving the engine as it is; [resume]
    changes the state to PLAYING when the state is PAUSED and otherwise
    does nothing; [stop] leaves the state IDLE whatever the state it is
    called in. *)
Theorem tts_state_machine (env : Env) (self : t) :
  (self.(state) = PLAYING -> (snd (pause self)).(state) = PAUSED) /\
  (self.(state) <> PLAYING -> pause self = ([], self)) /\
  (self.(state) = PAUSED -> (snd (resume self)).(state) = PLAYING) /\
  (self.(state) <> PAUSED -> resume self = ([], self)) /\
  (snd (stop env self)).(state) = IDLE.
Proof.
  destruct (pause_spec self) as (P1 & P2).
  destruct (resume_spec self) as (R1 & R2).
  pose proof (stop_idle env self) as S.
  repeat split; auto.
Qed.



(** An engine that is playing: paused, resumed, paused again where it
    has no effect, and stopped. *)
Lemma tts_state_machine_witness :
  (snd (pause Scenario.playing)).(state) = PAUSED /\
  pause init = ([], init) /\
  (snd (resume (snd (pause Scenario.playing)))).(state) = PLAYING /\
  resume Scenario.playing = ([], Scenario.playing) /\
  (snd (stop Scenario.no_files (snd (pause Scenario.playing)))).(state) = IDLE.
Proof.
  pose proof (tts_state_machine Scenario.no_files Scenario.playing) as (A & _ & _ & D & _).
  pose proof (tts_state_machine Scenario.no_files init) as (_ & B & _).
  pose proof (tts_state_machine Scenario.no_files (snd (pause Scenario.playing)))
    as (_ & _ & C & _ & E).
  split; [|split; [|split; [|split]]].
  - apply A. reflexivity.
  - apply B. discriminate.
  - apply C. reflexivity.
  - apply D. discriminate.
  - exact E.
Defined.

End TTSFacts.

(* ===================================================================== *)
(** * The license manager over time                                       *)
(* ===================================================================== *)

Module LicenseMore.
Import Py Py.Notations Json LicenseManager LicenseInvariants.

(** ** Dictionaries *)

Lemma dict_lookup_set_same (d : dict) (k : string) (v : json) :
  dict_lookup (dict_set d k v) k = Some v.
Proof.
  induction d as [|[k' v'] d IH]; simpl.
  - rewrite String.eqb_refl. reflexivity.
  - destruct (String.eqb k k') eqn:E; simpl; rewrite E; [reflexivity | exact IH].
Qed.

Lemma dict_lookup_set_other (d : dict) (k k' : string) (v : json) :
  k' <> k -> dict_lookup (dict_set d k v) k' = dict_lookup d k'.
Proof.
  intros Hne. induction d as [|[k0 v0] d IH]; simpl.
  - destruct (String.eqb_spec k' k); [contradiction | reflexivity].
  - destruct (String.eqb_spec k k0) as [->|Hk]; simpl.
    + destruct (String.eqb_spec k' k0); [contradiction | reflexivity].
    + destruct (String.eqb k' k0); [reflexivity | exact IH].
Qed.

Lemma dict_lookup_update_other (other d : dict) (k : string) :
  ~ In k (map fst other) ->
  dict_lookup (dict_update d other) k = dict_lookup d k.
Proof.
  unfold dict_update. revert d.
  induction other as [|[k0 v0] other IH]; intros d Hk; simpl; [reflexivity|].
  rewrite IH by (intros Hin; apply Hk; right; exact Hin).
  apply dict_lookup_set_other. intros ->. apply Hk. left. reflexivity.
Qed.

Section Time.
Context {lib : DateTime.Lib}.

(** ** Days left *)

(** X1.  As time passes the number of trial days left never grows, and
    whether [get_trial_days_left] raises does not depend on the time of
    the call. *)
Theorem trial_days_left_decreases (env0 env1 : Env) (self : t) :
  env0.(now) <= env1.(now) ->
  match get_trial_days_left env0 self, get_trial_days_left env1 self with
  | Ok n0, Ok n1 => n1 <= n0
  | Raise e0, Raise e1 => e0 = e1
  | _, _ => False
  end.
Proof.
  intros Ht. unfold get_trial_days_left.
  destruct (dict_lookup (_license_data self) "trial_start") as [v|]; [|lia].
  destruct (DateTime.fromisoformat_value v) as [t0|e]; simpl; [|reflexivity].
  destruct (DateTime.timedelta_days (trial_days self)) as [delta|e]; simpl;
    [|reflexivity].
  destruct (DateTime.add t0 delta) as [trial_end|e]; simpl; [|reflexivity].
  unfold DateTime.days_between.
  apply Z.max_le_compat_l.
  apply Z.div_le_mono; [reflexivity | lia].
Qed.

End Time.

Lemma trial_days_left_decreases_witness :
  match
    get_trial_days_left (lib := DateTime.iso_lib)
      (Scenario.offline_at Scenario.jan_1) (Scenario.on_trial Scenario.jan_1),
    get_trial_days_left (lib := DateTime.iso_lib)
      (Scenario.offline_at Scenario.jan_11) (Scenario.on_trial Scenario.jan_1)
  with
  | Ok n0, Ok n1 => n1 <= n0
  | Raise e0, Raise e1 => e0 = e1
  | _, _ => False
  end.
Proof.
  apply (trial_days_left_decreases (lib := DateTime.iso_lib)
           (Scenario.offline_at Scenario.jan_1)
           (Scenario.offline_at Scenario.jan_11)
           (Scenario.on_trial Scenario.jan_1)).
  vm_compute. discriminate.
Defined.

(** ** From the start of a trial to its end *)

Section Window.
Context {lib : DateTime.Lib}.

(** [start_trial] by cases on what the server does. *)
Lemma start_trial_cases (env : Env) (email : string) (self : t) :
  start_trial env email self =
    (Ok true,
     saved_with
       (match trial_request env email self with
        | Responds code (Some data) =>
            if code =? 200 then
              [("email", JStr email);
               ("trial_start", JStr (DateTime.isoformat env.(now)));
               ("license_type", JStr "trial");
               ("server_response", data)]
            else
              [("email", JStr email);
               ("trial_start", JStr (DateTime.isoformat env.(now)));
               ("license_type", JStr "trial_offline")]
        | _ =>
            [("email", JStr email);
             ("trial_start", JStr (DateTime.isoformat env.(now)));
             ("license_type", JStr "trial_offline")]
        end) TRIAL self).
Proof.
  unfold start_trial, requests_post.
  unfold try_except, bind at 1 2, get.
  change (post env (server_url self ++ "/license/trial") _)
    with (trial_request env email self).
  destruct (trial_request env email self) as [code body|]; [|reflexivity].
  unfold bind at 1, ret at 1. cbn [fst snd].
  destruct (code =? 200); [destruct body as [data|]|destruct body];
    reflexivity.
Qed.

(** What [start_trial] leaves behind. *)
Lemma start_trial_started (env : Env) (email : string) (self : t) :
  let started := snd (start_trial env email self) in
  fst (start_trial env email self) = Ok true /\
  started.(trial_days) = self.(trial_days) /\
  started.(server_url) = self.(server_url) /\
  started.(_device_id) = self.(_device_id) /\
  started.(_status) = TRIAL /\
  started.(license_file) = Some (dumps (JObj started.(_license_data))) /\
  dict_lookup started.(_license_data) "email" = Some (JStr email) /\
  dict_lookup started.(_license_data) "trial_start"
    = Some (JStr (DateTime.isoformat env.(now))) /\
  dict_lookup started.(_license_data) "expiry_date" = None /\
  (dict_lookup started.(_license_data) "license_type" = Some (JStr "trial") \/
   dict_lookup started.(_license_data) "license_type"
     = Some (JStr "trial_offline")).
Proof.
  rewrite start_trial_cases. cbn [fst snd]. unfold saved_with.
  destruct (trial_request env email self) as [code [data|]|];
    [destruct (code =? 200)| |]; cbn -[dumps]; repeat split; auto.
Qed.

(** X2.  A trial that [start_trial] starts at instant [t0] is usable
    (status TRIAL, [can_use_app] true) as long as at least one whole day
    is left before [t0 + trial_days], and is TRIAL_EXPIRED
    ([can_use_app] false) from then on: with [trial_days] = 30 the last
    usable instant is 29 days after the start. *)
Theorem trial_window (env0 env1 : Env) (email : string) (self : t) :
  DateTime.fromisoformat (DateTime.isoformat env0.(now)) = Some env0.(now) ->
  Z.abs self.(trial_days) <= 999999999 ->
  0 <= env0.(now) + self.(trial_days) * DateTime.usec_per_day
    <= DateTime.datetime_max ->
  let started := snd (start_trial env0 email self) in
  (env1.(now) <= env0.(now) + (self.(trial_days) - 1) * DateTime.usec_per_day ->
   validate env1 started = (Ok TRIAL, set_status TRIAL started) /\
   can_use_app env1 started = (Ok true, set_status TRIAL started)) /\
  (env0.(now) + (self.(trial_days) - 1) * DateTime.usec_per_day < env1.(now) ->
   validate env1 started
     = (Ok TRIAL_EXPIRED, set_status TRIAL_EXPIRED started) /\
   can_use_app env1 started
     = (Ok false, set_status TRIAL_EXPIRED started)).
Proof.
  intros Hiso Hdays Hend started.
  destruct (start_trial_started env0 email self)
    as (_ & Hd & _ & _ & _ & _ & _ & Hstart & _ & Hty).
  fold started in Hd, Hstart, Hty.
  assert (Hleft :
    get_trial_days_left env1 started =
      Ok (Z.max 0 (DateTime.days_between
                     (env0.(now) + self.(trial_days) * DateTime.usec_per_day)
                     env1.(now)))).
  { rewrite <- Hd.
    apply (LicenseFacts.get_trial_days_left_started env1 started _ _ Hstart Hiso);
      rewrite Hd; assumption. }
  assert (Hval : validate env1 started =
    let s := if Z.max 0 (DateTime.days_between
                 (env0.(now) + self.(trial_days) * DateTime.usec_per_day)
                 env1.(now)) >? 0 then TRIAL else TRIAL_EXPIRED in
    (Ok s, set_status s started)).
  { destruct Hty as [Hty|Hty];
      rewrite (LicenseFacts.validate_trial env1 started _ Hty), Hleft; auto. }
  clearbody started.
  unfold DateTime.days_between, DateTime.usec_per_day in *.
  split; intros Ht.
  - assert (1 <= (now env0 + trial_days self * 86400000000 - now env1)
                 / 86400000000)
      by (apply Z.div_le_lower_bound; lia).
    destruct (Z.gtb_spec
      (Z.max 0 ((now env0 + trial_days self * 86400000000 - now env1)
                / 86400000000)) 0); [|lia].
    simpl in Hval. split; [exact Hval|].
    rewrite LicenseFacts.can_use_app_validate, Hval. reflexivity.
  - assert ((now env0 + trial_days self * 86400000000 - now env1)
            / 86400000000 < 1)
      by (apply Z.div_lt_upper_bound; lia).
    destruct (Z.gtb_spec
      (Z.max 0 ((now env0 + trial_days self * 86400000000 - now env1)
                / 86400000000)) 0); [lia|].
    simpl in Hval. split; [exact Hval|].
    rewrite LicenseFacts.can_use_app_validate, Hval. reflexivity.
Qed.

End Window.

(** A trial of 30 days started on 1 January 2025 at midnight is still
    usable on 30 January at midnight and no longer one microsecond
    later. *)
Lemma trial_window_witness :
  let started :=
    snd (start_trial (lib := DateTime.iso_lib)
           (Scenario.offline_at Scenario.jan_1) "a@b.c"
           (Scenario.fresh default_trial_days)) in
  fst (can_use_app (lib := DateTime.iso_lib)
         (Scenario.offline_at (DateTime.instant 2025 1 30)) started) = Ok true /\
  fst (can_use_app (lib := DateTime.iso_lib)
         (Scenario.offline_at (DateTime.instant 2025 1 30 + 1)) started)
    = Ok false.
Proof.
  intros started.
  assert (W : forall env1,
    (env1.(now) <= Scenario.jan_1 + 29 * DateTime.usec_per_day ->
     validate (lib := DateTime.iso_lib) env1 started
       = (Ok TRIAL, set_status TRIAL started) /\
     can_use_app (lib := DateTime.iso_lib) env1 started
       = (Ok true, set_status TRIAL started)) /\
    (Scenario.jan_1 + 29 * DateTime.usec_per_day < env1.(now) ->
     validate (lib := DateTime.iso_lib) env1 started
       = (Ok TRIAL_EXPIRED, set_status TRIAL_EXPIRED started) /\
     can_use_app (lib := DateTime.iso_lib) env1 started
       = (Ok false, set_status TRIAL_EXPIRED started))).
  { intros env1.
    apply (trial_window (lib := DateTime.iso_lib)
             (Scenario.offline_at Scenario.jan_1) env1 "a@b.c"
             (Scenario.fresh default_trial_days)).
    - reflexivity.
    - vm_compute. discriminate.
    - vm_compute. split; discriminate. }
  split.
  - destruct (W (Scenario.offline_at (DateTime.instant 2025 1 30))) as (A & _).
    destruct A as (_ & A); [vm_compute; discriminate|].
    rewrite A. reflexivity.
  - destruct (W (Scenario.offline_at (DateTime.instant 2025 1 30 + 1)))
      as (_ & B).
    destruct B as (_ & B); [vm_compute; reflexivity|].
    rewrite B. reflexivity.
Defined.

(** ** Validation against the server *)

Section Online.
Context {lib : DateTime.Lib}.

Lemma get_expiry_date_set (self : t) (v : json) (f : option string) :
  get_expiry_date
    (set_license_file f
       (set_license_data (dict_set self.(_license_data) "expiry_date" v) self))
  = rbind (DateTime.fromisoformat_value v) (fun d => Ok (Some d)).
Proof.
  unfold get_expiry_date. cbn [_license_data set_license_file set_license_data].
  rewrite dict_lookup_set_same. reflexivity.
Qed.

(** [validate] on a paid license when the server answers 200. *)
Lemma validate_paid_online (env : Env) (self : t) (body : option json) :
  paid self ->
  validate_request env self = Responds 200 body ->
  validate env self =
  match body with
  | None =>
      match validate_cached env self with
      | (Ok _, self') => (Ok self'.(_status), self')
      | (Raise e, self') => (Raise e, self')
      end
  | Some (JObj d) =>
      if truthy (dict_get d "valid" JNull) then
        let data :=
          dict_set self.(_license_data) "expiry_date"
            (dict_get d "expiry_date" JNull) in
        let cached :=
          set_license_file (Some (dumps (JObj data)))
            (set_license_data data self) in
        match DateTime.fromisoformat_value (dict_get d "expiry_date" JNull) with
        | Ok expiry =>
            let s := if expiry <? env.(now) then EXPIRED else VALID in
            (Ok s, set_status s cached)
        | Raise e => (Raise e, cached)
        end
      else (Ok INVALID, set_status INVALID self)
  | Some _ => (Raise AttributeError, self)
  end.
Proof.
  intros P R. rewrite (LicenseFacts.validate_paid env self P), R.
  cbn [Z.eqb Pos.eqb]. unfold try_except.
  destruct body as [[| | | | | |d]|]; try reflexivity.
  - unfold bind at 1. unfold response_json, ret at 1.
    unfold bind at 1. unfold lift at 1. cbn [obj_get].
    destruct (truthy (dict_get d "valid" JNull)); [|reflexivity].
    unfold bind at 1. unfold lift at 1. cbn [obj_get].
    unfold bind at 1. unfold modify at 1.
    unfold bind at 1. unfold _save_license, modify at 1.
    unfold bind at 1. unfold get at 1.
    unfold bind at 1. unfold lift at 1.
    rewrite get_expiry_date_set.
    destruct (DateTime.fromisoformat_value (dict_get d "expiry_date" JNull))
      as [expiry|e] eqn:F; cbn [rbind].
    + destruct (expiry <? now env); reflexivity.
    + replace (is_RequestException e) with false; [reflexivity|].
      destruct (dict_get d "expiry_date" JNull) as [|b|z|x|s0|l|o]; simpl in F;
        try (inversion F; reflexivity).
      destruct (DateTime.fromisoformat s0); inversion F; reflexivity.
Qed.

End Online.

Section Verdict.
Context {lib : DateTime.Lib}.

(** X3.  When the server answers 200 to the validation of a paid
    license: an answer whose ['valid'] is false or absent gives INVALID
    and changes nothing else; an answer that is valid and carries an
    expiry timestamp gives VALID while the local clock has not passed the
    expiry and EXPIRED once it has, whatever the server said, and in both
    cases the expiry is stored in the license data and the file is
    saved. *)
Theorem validate_online (env : Env) (self : t) (d : dict) :
  paid self ->
  validate_request env self = Responds 200 (Some (JObj d)) ->
  (truthy (dict_get d "valid" JNull) = false ->
   validate env self = (Ok INVALID, set_status INVALID self)) /\
  (truthy (dict_get d "valid" JNull) = true ->
   forall s expiry,
     dict_lookup d "expiry_date" = Some (JStr s) ->
     DateTime.fromisoformat s = Some expiry ->
     (env.(now) <= expiry ->
      validate env self = (Ok VALID, set_status VALID (cache_expiry (JStr s) self))) /\
     (expiry < env.(now) ->
      validate env self
        = (Ok EXPIRED, set_status EXPIRED (cache_expiry (JStr s) self))) /\
     dict_lookup (cache_expiry (JStr s) self).(_license_data) "expiry_date"
       = Some (JStr s) /\
     synced (cache_expiry (JStr s) self)).
Proof.
  intros P R. rewrite (validate_paid_online env self _ P R). split.
  - intros ->. reflexivity.
  - intros -> s expiry Hs Hp. unfold dict_get. rewrite Hs.
    cbn [DateTime.fromisoformat_value]. rewrite Hp.
    fold (cache_expiry (JStr s) self). cbv zeta.
    split; [|split; [|split]].
    + intros Ht. destruct (Z.ltb_spec expiry (now env)); [lia | reflexivity].
    + intros Ht. destruct (Z.ltb_spec expiry (now env)); [reflexivity | lia].
    + apply dict_lookup_set_same.
    + left. reflexivity.
Qed.

End Verdict.

(** A license that the server still calls valid, with an expiry on
    1 January 2025, validated on 11 January and on 1 January. *)
Lemma validate_online_witness :
  let pro :=
    mk default_server_url default_trial_days None
       [("license_key", JStr "KEY"); ("license_type", JStr "pro")]
       "device" VALID in
  let answer :=
    [("valid", JBool true); ("expiry_date", JStr "2025-01-01T00:00:00")] in
  fst (validate (lib := DateTime.iso_lib)
         (Scenario.online_at Scenario.jan_11 200 (Some (JObj answer))) pro)
    = Ok EXPIRED /\
  fst (validate (lib := DateTime.iso_lib)
         (Scenario.online_at Scenario.jan_1 200 (Some (JObj answer))) pro)
    = Ok VALID.
Proof.
  intros pro answer.
  pose proof (validate_online (lib := DateTime.iso_lib)
    (Scenario.online_at Scenario.jan_11 200 (Some (JObj answer))) pro answer)
    as A.
  pose proof (validate_online (lib := DateTime.iso_lib)
    (Scenario.online_at Scenario.jan_1 200 (Some (JObj answer))) pro answer)
    as B.
  split.
  - destruct A as (_ & A); [left; reflexivity | reflexivity |].
    destruct (A eq_refl "2025-01-01T00:00:00" Scenario.jan_1 eq_refl eq_refl)
      as (_ & E & _).
    rewrite E; [reflexivity | vm_compute; reflexivity].
  - destruct B as (_ & B); [left; reflexivity | reflexivity |].
    destruct (B eq_refl "2025-01-01T00:00:00" Scenario.jan_1 eq_refl eq_refl)
      as (V & _).
    rewrite V; [reflexivity | vm_compute; discriminate].
Defined.

(** ** What [validate] changes *)

Section Frame.
Context {lib : DateTime.Lib}.

Lemma validate_cached_shape (env : Env) (self : t) :
  (snd (validate_cached env self) = self /\
   exists e, fst (validate_cached env self) = Raise e) \/
  exists s, validate_cached env self = (Ok tt, set_status s self).
Proof.
  unfold validate_cached, bind, get, lift.
  destruct (get_expiry_date self) as [[d|]|e].
  - right. destruct (d <? now env); eexists; reflexivity.
  - right. eexists; reflexivity.
  - left. split; [reflexivity | eexists; reflexivity].
Qed.

Lemma paid_of_type (self : t) :
  eq_str (dict_get self.(_license_data) "license_type" (JStr "")) "pro"
  || eq_str (dict_get self.(_license_data) "license_type" (JStr "")) "lifetime"
  = true ->
  paid self.
Proof.
  unfold paid, dict_get.
  destruct (dict_lookup (_license_data self) "license_type")
    as [[| | | |s| |]|]; simpl; try discriminate.
  intros E. apply orb_true_iff in E.
  destruct E as [E|E]; apply String.eqb_eq in E; subst; auto.
Qed.

Lemma validate_trial_branch (env : Env) (self : t) :
  self.(_license_data) <> [] ->
  eq_str (dict_get self.(_license_data) "license_type" (JStr "")) "trial"
  || eq_str (dict_get self.(_license_data) "license_type" (JStr ""))
       "trial_offline" = true ->
  validate env self =
  match get_trial_days_left env self with
  | Ok n =>
      let s := if n >? 0 then TRIAL else TRIAL_EXPIRED in
      (Ok s, set_status s self)
  | Raise e => (Raise e, self)
  end.
Proof.
  intros D. unfold validate, bind at 1, get at 1.
  destruct (_license_data self) as [|kv d] eqn:E; [contradiction|].
  rewrite <- E. intros T. rewrite T.
  unfold bind, lift, get, modify, ret.
  destruct (get_trial_days_left env self) as [n|e]; [|reflexivity].
  destruct (n >? 0); reflexivity.
Qed.

Lemma validate_other_branch (env : Env) (self : t) :
  eq_str (dict_get self.(_license_data) "license_type" (JStr "")) "trial"
  || eq_str (dict_get self.(_license_data) "license_type" (JStr ""))
       "trial_offline" = false ->
  eq_str (dict_get self.(_license_data) "license_type" (JStr "")) "pro"
  || eq_str (dict_get self.(_license_data) "license_type" (JStr ""))
       "lifetime" = false ->
  validate env self = (Ok NO_LICENSE, set_status NO_LICENSE self).
Proof.
  unfold validate, bind at 1, get at 1.
  destruct (_license_data self) as [|kv d] eqn:E; [reflexivity|].
  rewrite <- E. intros T P. rewrite T, P. reflexivity.
Qed.

(** The manager after [validate]: the manager before, possibly with the
    expiry date of the server stored and saved, possibly with a new
    status; the status returned is the status stored. *)
Lemma validate_shape (env : Env) (self : t) :
  (exists base,
     (base = self \/ exists v, base = cache_expiry v self) /\
     (snd (validate env self) = base \/
      exists s, snd (validate env self) = set_status s base)) /\
  (forall s, fst (validate env self) = Ok s ->
             (snd (validate env self)).(_status) = s).
Proof.
  destruct (_license_data self) as [|kv d] eqn:D.
  { rewrite (LicenseFacts.validate_no_data env self D). split.
    - exists self. split; [auto | right; eexists; reflexivity].
    - intros s E. inversion E. reflexivity. }
  destruct (eq_str (dict_get self.(_license_data) "license_type" (JStr "")) "trial"
            || eq_str (dict_get self.(_license_data) "license_type" (JStr ""))
                 "trial_offline") eqn:T.
  { rewrite (validate_trial_branch env self);
      [| rewrite D; discriminate | exact T].
    destruct (get_trial_days_left env self) as [n|e].
    - destruct (n >? 0); (split;
        [exists self; split; [auto | right; eexists; reflexivity]
        | intros s E; inversion E; reflexivity]).
    - split; [exists self; split; auto | discriminate]. }
  destruct (eq_str (dict_get self.(_license_data) "license_type" (JStr "")) "pro"
            || eq_str (dict_get self.(_license_data) "license_type" (JStr ""))
                 "lifetime") eqn:P.
  2:{ rewrite (validate_other_branch env self T P). split.
      - exists self. split; [auto | right; eexists; reflexivity].
      - intros s E. inversion E. reflexivity. }
  apply paid_of_type in P.
  pose proof (LicenseFacts.validate_paid env self P) as V.
  destruct (validate_request env self) as [code body|] eqn:R.
  - destruct (Z.eqb_spec code 200) as [->|Hc].
    + clear V. rewrite (validate_paid_online env self body P R).
      destruct body as [[| | | | | |o]|].
      1-6: split; [exists self; split; auto | discriminate].
      * destruct (truthy (dict_get o "valid" JNull)).
        -- cbv zeta.
           fold (cache_expiry (dict_get o "expiry_date" JNull) self).
           destruct (DateTime.fromisoformat_value
                       (dict_get o "expiry_date" JNull)) as [expiry|e].
           ++ split.
              ** eexists. split; [right; eexists; reflexivity|].
                 right. eexists. reflexivity.
              ** intros s E. inversion E. reflexivity.
           ++ split; [|discriminate].
              eexists. split; [right; eexists; reflexivity|]. left. reflexivity.
        -- split.
           ++ exists self. split; [auto | right; eexists; reflexivity].
           ++ intros s E. inversion E. reflexivity.
      * destruct (validate_cached_shape env self) as [(E1 & e & E2)|(s & E)].
        -- destruct (validate_cached env self) as [[u|e'] s']; simpl in *;
             try discriminate. subst s'.
           split; [exists self; split; auto | discriminate].
        -- rewrite E. split.
           ++ exists self. split; [auto | right; eexists; reflexivity].
           ++ intros s0 E0. inversion E0. reflexivity.
    + rewrite V. split.
      * exists self. split; [auto | right; eexists; reflexivity].
      * intros s E. inversion E. reflexivity.
  - rewrite V.
    destruct (validate_cached_shape env self) as [(E1 & e & E2)|(s & E)].
    + destruct (validate_cached env self) as [[u|e'] s']; simpl in *;
        try discriminate. subst s'.
      split; [exists self; split; auto | discriminate].
    + rewrite E. split.
      * exists self. split; [auto | right; eexists; reflexivity].
      * intros s0 E0. inversion E0. reflexivity.
Qed.

Lemma same_license_refl (self : t) : same_license self self.
Proof. repeat split. Qed.

Lemma same_license_cache_expiry (v : json) (self : t) :
  same_license self (cache_expiry v self).
Proof.
  repeat split. intros k Hk. unfold cache_expiry. cbn.
  apply dict_lookup_set_other. exact Hk.
Qed.

Lemma same_license_set_status (s : LicenseStatus) (self base : t) :
  same_license self base -> same_license self (set_status s base).
Proof. intros H. exact H. Qed.

(** X4.  [validate] never changes the configuration of the manager nor
    any license-data key other than ['expiry_date'], whether it returns
    or raises; and when it returns, the status it returns is the status
    that [get_status] reports afterwards. *)
Theorem validate_frame (env : Env) (self : t) :
  same_license self (snd (validate env self)) /\
  (forall s, fst (validate env self) = Ok s ->
             get_status (snd (validate env self)) = s).
Proof.
  destruct (validate_shape env self) as ((base & Hb & Hs) & Hst).
  split; [|exact Hst].
  assert (B : same_license self base).
  { destruct Hb as [->|(v & ->)];
      [apply same_license_refl | apply same_license_cache_expiry]. }
  destruct Hs as [->|(s & ->)]; [exact B|].
  apply same_license_set_status. exact B.
Qed.

Lemma synced_set_status (s : LicenseStatus) (self : t) :
  synced self -> synced (set_status s self).
Proof. intros H. exact H. Qed.

Lemma synced_saved_with (data : dict) (s : LicenseStatus) (self : t) :
  synced (saved_with data s self).
Proof. left. reflexivity. Qed.

(** X5.  Every change to the license data is written to the license file
    at once: if the file holds the text of the data (or there is neither
    file nor data), it still does after [start_trial],
    [activate_license], [validate] and [clear_license], whatever the
    server does and whether the call returns or raises. *)
Theorem file_follows_data (env : Env) (text : string) (self : t) :
  synced self ->
  synced (snd (start_trial env text self)) /\
  synced (snd (activate_license env text self)) /\
  synced (snd (validate env self)) /\
  synced (snd (clear_license self)).
Proof.
  intros S. split; [|split; [|split]].
  - rewrite start_trial_cases. apply synced_saved_with.
  - rewrite LicenseFacts.activate_license_cases.
    destruct (activate_request env text self) as [code [[| | | | | |d]|]|];
      try exact S.
    destruct (code =? 200); [apply synced_saved_with | exact S].
  - destruct (validate_shape env self) as ((base & Hb & Hs) & _).
    assert (B : synced base).
    { destruct Hb as [->|(v & ->)]; [exact S | left; reflexivity]. }
    destruct Hs as [->|(s & ->)]; [exact B|].
    apply synced_set_status. exact B.
  - right. split; reflexivity.
Qed.

(** X6.  A license whose type is none of ['trial'], ['trial_offline'],
    ['pro'], ['lifetime'] (or is missing, or is no string) validates as
    NO_LICENSE without any request, and [can_use_app] refuses it, even
    though [activate_license] stores whatever type the server sends and
    answers VALID. *)
Theorem validate_unknown_type (env : Env) (self : t) :
  (forall ty, In ty known_types ->
     eq_str (dict_get self.(_license_data) "license_type" (JStr "")) ty
       = false) ->
  validate env self = (Ok NO_LICENSE, set_status NO_LICENSE self) /\
  can_use_app env self = (Ok false, set_status NO_LICENSE self).
Proof.
  intros U.
  assert (V : validate env self = (Ok NO_LICENSE, set_status NO_LICENSE self)).
  { apply validate_other_branch.
    - rewrite (U "trial"), (U "trial_offline"); [reflexivity | |];
        unfold known_types; simpl; auto.
    - rewrite (U "pro"), (U "lifetime"); [reflexivity | |];
        unfold known_types; simpl; auto 6. }
  split; [exact V|].
  rewrite LicenseFacts.can_use_app_validate, V. reflexivity.
Qed.

(** X7.  A successful activation keeps what was registered before: the
    email and the start of the trial are still in the license data,
    beside the license key, the license type sent by the server (['pro']
    when it sends none) and the expiry date it sent ([None] when it sends
    none); the status is VALID. *)
Theorem activate_license_keeps (env : Env) (license_key : string) (self : t)
    (d : dict) :
  activate_request env license_key self = Responds 200 (Some (JObj d)) ->
  let activated := snd (activate_license env license_key self) in
  get_email activated = get_email self /\
  dict_lookup activated.(_license_data) "trial_start"
    = dict_lookup self.(_license_data) "trial_start" /\
  dict_lookup activated.(_license_data) "license_key"
    = Some (JStr license_key) /\
  dict_lookup activated.(_license_data) "license_type"
    = Some (dict_get d "license_type" (JStr "pro")) /\
  dict_lookup activated.(_license_data) "expiry_date"
    = Some (dict_get d "expiry_date" JNull) /\
  get_status activated = VALID.
Proof.
  intros R activated. subst activated.
  rewrite (LicenseFacts.activate_license_success env license_key self d R).
  unfold get_email, get_status, saved_with, activated_data. cbn -[dumps dict_update].
  split; [|split].
  - apply dict_lookup_update_other. simpl. intuition discriminate.
  - apply dict_lookup_update_other. simpl. intuition discriminate.
  - unfold dict_update. cbn [fold_left fst snd].
    repeat split.
    + rewrite !dict_lookup_set_other by discriminate.
      apply dict_lookup_set_same.
    + rewrite !dict_lookup_set_other by discriminate.
      apply dict_lookup_set_same.
    + rewrite !dict_lookup_set_other by discriminate.
      apply dict_lookup_set_same.
Qed.

(** X8.  After [clear_license] the manager holds no license whatever it
    held before: [validate] answers NO_LICENSE and [can_use_app] refuses,
    at any time and whatever the server does; no email is registered;
    and a manager created afterwards on the same directory starts
    empty. *)
Theorem clear_license_resets (env : Env) (self : t) :
  let cleared := snd (clear_license self) in
  validate env cleared = (Ok NO_LICENSE, cleared) /\
  can_use_app env cleared = (Ok false, cleared) /\
  get_email cleared = None /\
  forall url days device,
    init url days cleared.(license_file) device
      = Some (mk url days None [] device NO_LICENSE).
Proof.
  repeat split.
Qed.

End Frame.

Lemma file_follows_data_witness :
  synced (snd (validate (lib := DateTime.iso_lib)
                 (Scenario.online_at Scenario.jan_1 200
                    (Some (JObj [("valid", JBool true);
                                 ("expiry_date", JStr "2026-01-01")])))
                 (snd (activate_license (lib := DateTime.iso_lib)
                         (Scenario.online_at Scenario.jan_1 200
                            (Some (JObj [])))
                         "KEY" (Scenario.fresh default_trial_days))))).
Proof.
  apply (file_follows_data (lib := DateTime.iso_lib) _ "").
  apply (file_follows_data (lib := DateTime.iso_lib) _ "KEY").
  right. split; reflexivity.
Defined.

(** A trial activated against a server that answers with the license
    type ['team']: the activation says VALID, the next check
    NO_LICENSE. *)
Lemma validate_unknown_type_witness :
  let activated :=
    snd (activate_license (lib := DateTime.iso_lib)
           (Scenario.online_at Scenario.jan_1 200
              (Some (JObj [("license_type", JStr "team")])))
           "KEY" (Scenario.on_trial Scenario.jan_1)) in
  get_status activated = VALID /\
  fst (validate (lib := DateTime.iso_lib)
         (Scenario.offline_at Scenario.jan_11) activated) = Ok NO_LICENSE /\
  fst (can_use_app (lib := DateTime.iso_lib)
         (Scenario.offline_at Scenario.jan_11) activated) = Ok false.
Proof.
  intros activated.
  destruct (validate_unknown_type (lib := DateTime.iso_lib)
              (Scenario.offline_at Scenario.jan_11) activated) as (V & C).
  - unfold known_types. intros ty [<-|[<-|[<-|[<-|[]]]]]; reflexivity.
  - rewrite V, C. repeat split.
Defined.

Lemma activate_license_keeps_witness :
  let activated :=
    snd (activate_license (lib := DateTime.iso_lib)
           (Scenario.online_at Scenario.jan_11 200 (Some (JObj [])))
           "KEY" (Scenario.on_trial Scenario.jan_1)) in
  get_email activated = Some (JStr "a@b.c") /\
  dict_lookup activated.(_license_data) "license_type" = Some (JStr "pro").
Proof.
  intros activated.
  destruct (activate_license_keeps (lib := DateTime.iso_lib)
              (Scenario.online_at Scenario.jan_11 200 (Some (JObj [])))
              "KEY" (Scenario.on_trial Scenario.jan_1) [] eq_refl)
    as (E & _ & _ & T & _).
  split; [exact E | exact T].
Defined.

End LicenseMore.

(* ===================================================================== *)
(** * The bridge: starting, stopping, and the shape of a query            *)
(* ===================================================================== *)

Module BridgeMore.
Import Text ClaudeBridge BridgeControl.
#[local] Close Scope string_scope.

(** X9.  The bridge sends a query only while it is running: a bridge
    that was never started, whose start failed (the command is missing or
    the version check raised), or that has been stopped hands nothing to
    a thread; after a start that succeeded it hands over exactly the
    query.  A failed start leaves the bridge as it was, and [stop] leaves
    no child process behind. *)
Theorem send_only_while_running (command query : text) (self : t) :
  send query (init command) = [] /\
  (forall v,
     let '(_, ok, started) := start v self in
     match v with
     | Completed _ =>
         ok = true /\ is_running started = true /\
         send query started = [ThreadStart query]
     | _ =>
         ok = false /\ started = self /\
         send query started = send query self
     end) /\
  is_running (snd (stop self)) = false /\
  (snd (stop self)).(current_process) = false /\
  send query (snd (stop self)) = [].
Proof.
  split; [reflexivity|]. split.
  - intros [out| |msg]; cbn; auto.
  - unfold stop, send, is_running. cbn.
    destruct (current_process self) eqn:E; cbn; rewrite ?E; auto.
Qed.

Lemma filter_call (f : event -> bool) (c : bool) (e : event) :
  f e = false -> filter f (call c e) = [].
Proof. intros E. destruct c; simpl; [rewrite E|]; reflexivity. Qed.

Lemma filter_streamed (f : event -> bool) (self : t) (lines : list text) :
  (forall line, f (OnOutput line) = false) ->
  filter f (flat_map (fun line => call self.(on_output) (OnOutput line)) lines)
  = [].
Proof.
  intros Hf. induction lines as [|line rest IH]; simpl; [reflexivity|].
  rewrite filter_app, IH, filter_call by apply Hf. reflexivity.
Qed.

(** X10.  Whatever the child does and whichever callbacks are connected,
    one query launches the command exactly once, leaves the bridge
    without a process and otherwise unchanged, signals completion at most
    once and then as its last act, and never signals both completion and
    an error. *)
Theorem execute_query_shape (c : child) (query : text) (self : t) :
  let trace := fst (_execute_query c query self) in
  filter is_popen trace
    = [Popen [self.(command); of_string "--print"; query]] /\
  (filter is_complete trace = [] \/
   exists response front,
     trace = front ++ [OnResponseComplete response] /\
     filter is_complete front = []) /\
  (filter is_complete trace = [] \/ filter is_error trace = []) /\
  snd (_execute_query c query self) = set_current_process false self.
Proof.
  unfold _execute_query. destruct c as [stdout stderr|msg].
  - rewrite BridgeFacts.read_output_spec. cbn [fst snd].
    set (streamed :=
      flat_map (fun line => call (on_output self) (OnOutput line)) stdout).
    assert (Sp : filter is_popen streamed = [])
      by (apply filter_streamed; reflexivity).
    assert (Sc : filter is_complete streamed = [])
      by (apply filter_streamed; reflexivity).
    assert (Se : filter is_error streamed = [])
      by (apply filter_streamed; reflexivity).
    assert (Np : forall f, f (OnOutput processing_notice) = false ->
      filter f (call (on_output self) (OnOutput processing_notice)) = [])
      by (intros f Hf; apply filter_call; exact Hf).
    split; [|split; [|split]].
    + rewrite !filter_app, Np, Sp by reflexivity. cbn.
      match goal with |- context [if ?b then _ else _] => destruct b end;
        reflexivity.
    + destruct (on_response_complete self &&
                nonempty (strip ([] ++ List.concat stdout))).
      * right. eexists. eexists. split.
        -- rewrite !app_assoc. reflexivity.
        -- rewrite !filter_app, Np, Sc by reflexivity. reflexivity.
      * left. rewrite !filter_app, Np, Sc by reflexivity. reflexivity.
    + right. rewrite !filter_app, Np, Se by reflexivity. cbn.
      match goal with |- context [if ?b then _ else _] => destruct b end;
        reflexivity.
    + reflexivity.
  - cbn [fst snd]. split; [|split; [|split]].
    + rewrite !filter_app, !filter_call by reflexivity. reflexivity.
    + left. rewrite !filter_app, !filter_call by reflexivity. reflexivity.
    + left. rewrite !filter_app, !filter_call by reflexivity. reflexivity.
    + reflexivity.
Qed.

End BridgeMore.

(* ===================================================================== *)
(** * A dictation from the button to the transcript                       *)
(* ===================================================================== *)

Module STTMore.
Import STTEngine STTSession.

Lemma record_blocks_fields (blocks : list block) (self : t) :
  let r := record_blocks blocks self in
  r.(state) = self.(state) /\
  r.(_audio_buffer) = (self.(_audio_buffer) ++ blocks)%list /\
  r.(api_key) = self.(api_key) /\ r.(api_url) = self.(api_url) /\
  r.(channels) = self.(channels) /\ r.(sample_rate) = self.(sample_rate) /\
  r.(language) = self.(language).
Proof.
  unfold record_blocks. revert self.
  induction blocks as [|b blocks IH]; intros self; simpl.
  - rewrite List.app_nil_r. repeat split.
  - destruct (IH (audio_callback b self)) as (A & B & C & D & E & F & G).
    rewrite A, B, C, D, E, F, G. simpl. rewrite <- List.app_assoc.
    repeat split.
Qed.

(** X11.  A dictation uploads what was recorded during it and nothing
    else: starting from an idle engine with an API key, whatever its
    buffer held before, the blocks delivered between [start_recording]
    and [stop_recording] are written to the WAV file, concatenated in the
    order of their arrival, and that file is posted. *)
Theorem recording_session (env : Env) (blocks : list block) (self : t)
    (path : string) :
  self.(state) = IDLE ->
  self.(api_key) <> "" ->
  blocks <> [] ->
  env.(temp_wav) = Written path ->
  let recording := record_blocks blocks (snd (start_recording self)) in
  let stopped := snd (stop_recording env recording) in
  recording.(state) = RECORDING /\
  stopped.(state) = PROCESSING /\
  exists rest,
    fst (_transcribe_audio env stopped) =
      WriteWav path self.(channels) 2 self.(sample_rate) (List.concat blocks) ::
      HttpPost self.(api_url) self.(api_key) path "whisper-large-v3"
        self.(language) :: rest.
Proof.
  intros Hs Hk Hb Hw recording stopped.
  destruct (record_blocks_fields blocks (snd (start_recording self)))
    as (A & B & C & D & E & F & G).
  fold recording in A, B, C, D, E, F, G.
  assert (S0 : (snd (start_recording self)).(state) = RECORDING /\
               (snd (start_recording self)).(_audio_buffer) = [] /\
               (snd (start_recording self)).(api_key) = self.(api_key) /\
               (snd (start_recording self)).(api_url) = self.(api_url) /\
               (snd (start_recording self)).(channels) = self.(channels) /\
               (snd (start_recording self)).(sample_rate) = self.(sample_rate) /\
               (snd (start_recording self)).(language) = self.(language)).
  { unfold start_recording. rewrite Hs. cbn. repeat split. }
  destruct S0 as (A0 & B0 & C0 & D0 & E0 & F0 & G0).
  rewrite A0 in A. rewrite B0 in B. simpl in B.
  rewrite C0 in C. rewrite D0 in D. rewrite E0 in E. rewrite F0 in F.
  rewrite G0 in G.
  clearbody recording.
  split; [exact A|].
  assert (Hbuf : recording.(_audio_buffer) <> []) by (rewrite B; exact Hb).
  destruct (STTFacts.stop_recording_processing env recording A Hbuf)
    as (P1 & P2 & P3 & _).
  fold stopped in P1, P2, P3.
  assert (Hf : stopped.(channels) = recording.(channels) /\
               stopped.(sample_rate) = recording.(sample_rate) /\
               stopped.(api_url) = recording.(api_url) /\
               stopped.(language) = recording.(language)).
  { subst stopped. unfold stop_recording. rewrite A. simpl.
    destruct (_audio_buffer recording); [contradiction|]. repeat split. }
  destruct Hf as (H1 & H2 & H3 & H4). clearbody stopped.
  split; [exact P1|].
  rewrite <- B, <- P2, <- C, <- P3, <- D, <- H3, <- E, <- H1, <- F, <- H2,
    <- G, <- H4.
  apply STTFacts.transcribe_audio_uploads; congruence.
Qed.

Lemma recording_session_witness :
  let recording :=
    record_blocks [[1; 2]; [3]] (snd (start_recording (init "gsk_key"))) in
  let stopped := snd (stop_recording Scenario.quiet recording) in
  exists rest,
    fst (_transcribe_audio Scenario.quiet stopped) =
      WriteWav "/tmp/claude_stt_0.wav" 1 2 16000 [1; 2; 3] ::
      HttpPost default_api_url "gsk_key" "/tmp/claude_stt_0.wav"
        "whisper-large-v3" "pl" :: rest.
Proof.
  intros recording stopped.
  destruct (recording_session Scenario.quiet [[1; 2]; [3]] (init "gsk_key")
              "/tmp/claude_stt_0.wav") as (_ & _ & U);
    [reflexivity | discriminate | discriminate | reflexivity | exact U].
Defined.

Lemma filter_call_stt (f : event -> bool) (c : bool) (e : event) :
  f e = false -> filter f (call c e) = [].
Proof. intros E. destruct c; simpl; [rewrite E|]; reflexivity. Qed.

(** X12.  A WAV file that has been written is removed after the upload,
    whether the upload succeeds or fails: in every run of
    [_transcribe_audio] the files removed are exactly the files written.
    A temporary file whose writing fails is not removed: [_save_wav]
    creates it before it writes, outside the [try]/[finally] that
    removes the file, so it is left behind. *)
Theorem wav_cleanup (env : Env) (self : t) :
  let trace := fst (_transcribe_audio env self) in
  map (fun e => match e with WriteWav p _ _ _ _ => p | _ => "" end)
      (filter is_wav trace)
  = map (fun e => match e with RemoveFile p => p | _ => "" end)
      (filter is_remove trace) /\
  (forall path msg,
     self.(api_key) <> "" ->
     self.(_audio_buffer) <> [] ->
     env.(temp_wav) = WriteAborted path msg ->
     In (TempWav path) trace /\ filter is_remove trace = []).
Proof.
  cbv zeta. split.
  - unfold _transcribe_audio, _set_state, _save_wav, _send_to_groq.
    destruct (String.eqb (api_key self) "");
      [|destruct (_audio_buffer self) as [|b l];
        [|destruct (temp_wav env) as [path|msg|path msg];
          [destruct (post env) as [code text|msg];
             [destruct (code =? 200)|]| |]]];
      cbn [fst]; rewrite !filter_app; unfold call; cbn;
      repeat match goal with
             | |- context [if ?b then _ else _] => destruct b
             end; reflexivity.
  - intros path msg Hk Hb Hw.
    unfold _transcribe_audio, _set_state, _save_wav.
    destruct (String.eqb_spec (api_key self) ""); [contradiction|].
    destruct (_audio_buffer self) as [|b l]; [contradiction|].
    rewrite Hw. cbn [fst]. split.
    + left. reflexivity.
    + rewrite !filter_app. unfold call. cbn.
      destruct (on_error self), (on_state_changed self); reflexivity.
Qed.

(** A recording whose file cannot be filled: the file stays. *)
Lemma wav_cleanup_witness :
  let engine :=
    mk "gsk_key" default_api_url 16000 1 "pl" PROCESSING [[1; 2; 3]]
       true true false true true in
  let trace := fst (_transcribe_audio Cases.disk_full engine) in
  In (TempWav "/tmp/claude_stt_0.wav") trace /\
  filter is_remove trace = [].
Proof.
  intros engine trace.
  assert (Hk : engine.(api_key) <> "") by discriminate.
  assert (Hb : engine.(_audio_buffer) <> []) by discriminate.
  exact (proj2 (wav_cleanup Cases.disk_full engine)
           "/tmp/claude_stt_0.wav" "[Errno 28] No space left on device"
           Hk Hb eq_refl).
Defined.

(** X13.  What the caller hears of a transcription, once the audio has
    been written: [on_transcription] is called exactly when the server
    answers 200 with a text that is not blank, and then with that text
    stripped; [on_error] is called exactly when the server does not
    answer 200; a blank transcript is dropped in silence.  The two are
    never both called. *)
Theorem transcription_outcome (env : Env) (self : t) (path : string) :
  self.(api_key) <> "" ->
  self.(_audio_buffer) <> [] ->
  env.(temp_wav) = Written path ->
  self.(on_transcription) = true ->
  self.(on_error) = true ->
  let trace := fst (_transcribe_audio env self) in
  (forall text, answered env text ->
     filter is_error trace = [] /\
     filter is_transcription trace =
       if String.eqb (strip text) "" then []
       else [OnTranscription (strip text)]) /\
  ((forall text, ~ answered env text) ->
     filter is_transcription trace = [] /\
     exists msg, filter is_error trace = [OnError msg]).
Proof.
  intros Hk Hb Hw Ht He. cbv zeta.
  unfold _transcribe_audio, answered, _set_state, call.
  destruct (String.eqb_spec (api_key self) ""); [contradiction|].
  destruct (_audio_buffer self) as [|b l]; [contradiction|].
  unfold _save_wav, _send_to_groq. rewrite Hw, Ht, He.
  destruct (post env) as [code text|msg].
  - destruct (Z.eqb_spec code 200) as [->|Hc].
    + split.
      * intros text' E. inversion E; subst text'. cbn [fst].
        rewrite !filter_app. cbn.
        destruct (String.eqb (strip text) "");
          destruct (on_state_changed self); split; reflexivity.
      * intros Hn. exfalso. apply (Hn text). reflexivity.
    + split.
      * intros text' E. inversion E. contradiction.
      * intros _. cbn [fst]. rewrite !filter_app. cbn.
        destruct (on_state_changed self); split;
          try reflexivity; eexists; reflexivity.
  - split.
    + intros text' E. discriminate.
    + intros _. cbn [fst]. rewrite !filter_app. cbn.
      destruct (on_state_changed self); split;
        try reflexivity; eexists; reflexivity.
Qed.

Lemma transcription_outcome_witness :
  let engine :=
    mk "gsk_key" default_api_url 16000 1 "pl" PROCESSING [[1; 2; 3]]
       true true false true true in
  filter is_transcription (fst (_transcribe_audio Scenario.quiet engine))
    = [OnTranscription "dzien dobry"].
Proof.
  intros engine.
  assert (Hk : engine.(api_key) <> "") by discriminate.
  assert (Hb : engine.(_audio_buffer) <> []) by discriminate.
  destruct (transcription_outcome Scenario.quiet engine "/tmp/claude_stt_0.wav"
              Hk Hb eq_refl eq_refl eq_refl) as (A & _).
  destruct (A "dzien dobry " eq_refl) as (_ & T). exact T.
Defined.

(** X14.  [cancel_recording] drops the recording from any state: the
    engine is IDLE with an empty buffer, no transcription is started,
    nothing is written or posted, and a [stop_recording] that comes
    afterwards does nothing. *)
Theorem cancel_recording_discards (env env' : Env) (self : t) :
  let cancelled := snd (cancel_recording env self) in
  cancelled.(state) = IDLE /\
  cancelled.(_audio_buffer) = [] /\
  ~ In (ThreadStart transcribe_audio) (fst (cancel_recording env self)) /\
  existsb is_upload (fst (cancel_recording env self)) = false /\
  stop_recording env' cancelled = ([], cancelled).
Proof.
  cbv zeta. unfold cancel_recording, _set_state, call. cbn.
  repeat split.
  - intros Hin. apply in_app_or in Hin. destruct Hin as [Hin|Hin].
    + destruct (_recording_thread self && recording_alive env);
        simpl in Hin; intuition discriminate.
    + destruct (on_state_changed self); simpl in Hin; intuition discriminate.
  - rewrite existsb_app.
    destruct (_recording_thread self && recording_alive env);
      destruct (on_state_changed self); reflexivity.
Qed.

(** X15.  The dictation button never starts a recording without an API
    key: after [_toggle_dictation] the engine is RECORDING exactly when
    it was IDLE and a key is set.  Without a key (and no recording under
    way) the handler raises an [AttributeError] and leaves the engine as
    it is; while a transcription is under way the button does nothing. *)
Theorem toggle_dictation_needs_key (env : Env) (stt : t) :
  ((snd (MainWindow._toggle_dictation env stt)).(state) = RECORDING <->
   stt.(state) = IDLE /\ stt.(api_key) <> "") /\
  (stt.(state) <> RECORDING -> stt.(api_key) = "" ->
   MainWindow._toggle_dictation env stt = (Py.Raise Py.AttributeError, stt)) /\
  (stt.(state) = PROCESSING -> stt.(api_key) <> "" ->
   MainWindow._toggle_dictation env stt = (Py.Ok [], stt)).
Proof.
  unfold MainWindow._toggle_dictation, stop_recording, start_recording,
    _set_state.
  destruct (state stt) eqn:S; cbn [STTState_eqb negb].
  - (* IDLE *)
    destruct (String.eqb_spec (api_key stt) "") as [E|E].
    + split; [|split].
      * cbn. rewrite S. split; [discriminate | intros (_ & H); contradiction].
      * reflexivity.
      * discriminate.
    + split; [|split].
      * cbn. split; auto.
      * intros _ H. contradiction.
      * discriminate.
  - (* RECORDING *)
    split; [|split].
    + split.
      * destruct (_audio_buffer (set_stop_recording true stt)); cbn;
          discriminate.
      * intros (H & _). discriminate.
    + intros H. contradiction.
    + discriminate.
  - (* PROCESSING *)
    destruct (String.eqb_spec (api_key stt) "") as [E|E].
    + split; [|split].
      * cbn. rewrite S. split; [discriminate | intros (H & _); discriminate].
      * reflexivity.
      * intros _ H. contradiction.
    + split; [|split].
      * cbn. rewrite S. split; [discriminate | intros (H & _); discriminate].
      * intros _ H. contradiction.
      * reflexivity.
Qed.

Lemma toggle_dictation_needs_key_witness :
  (snd (MainWindow._toggle_dictation Scenario.quiet (init "gsk_key"))).(state)
    = RECORDING /\
  MainWindow._toggle_dictation Scenario.quiet (init "")
    = (Py.Raise Py.AttributeError, init "").
Proof.
  split.
  - apply (proj1 (toggle_dictation_needs_key Scenario.quiet (init "gsk_key"))).
    split; [reflexivity | discriminate].
  - apply (proj1 (proj2 (toggle_dictation_needs_key Scenario.quiet (init ""))));
      [discriminate | reflexivity].
Defined.

End STTMore.

(* ===================================================================== *)
(** * The input devices offered to the user                               *)
(* ===================================================================== *)

Module DeviceFacts.
Import STTDevices.

Section Devices.
Variable rate : Type.

Lemma devices_from_spec (l : list (device rate)) (i : Z) (x : input rate) :
  In x (devices_from i l) <->
  exists k d,
    nth_error l k = Some d /\ 0 < d.(max_input_channels) /\
    x = {| id := i + Z.of_nat k; input_name := d.(name);
           channels := d.(max_input_channels);
           sample_rate := d.(default_samplerate) |}.
Proof.
  revert i. induction l as [|d l IH]; intros i; simpl.
  - split; [contradiction|]. intros (k & d & E & _). destruct k; discriminate.
  - assert (Tail : In x (devices_from (i + 1) l) <->
      exists k d', nth_error (d :: l) (S k) = Some d' /\
        0 < max_input_channels d' /\
        x = {| id := i + Z.of_nat (S k); input_name := name d';
               channels := max_input_channels d';
               sample_rate := default_samplerate d' |}).
    { rewrite IH. split; intros (k & d' & E & C & X); exists k, d';
        (split; [exact E|]); (split; [exact C|]); subst x; f_equal; lia. }
    destruct (Z.gtb_spec (max_input_channels d) 0) as [C|C].
    + simpl. rewrite Tail. split.
      * intros [<-|(k & d' & E & C' & X)].
        -- exists O, d. split; [reflexivity|]. split; [lia|].
           f_equal. simpl. lia.
        -- exists (S k), d'. auto.
      * intros (k & d' & E & C' & X). destruct k as [|k].
        -- left. simpl in E. inversion E; subst d'. subst x. f_equal.
           simpl. lia.
        -- right. exists k, d'. auto.
    + rewrite Tail. split.
      * intros (k & d' & E & C' & X). exists (S k), d'. auto.
      * intros (k & d' & E & C' & X). destruct k as [|k].
        -- simpl in E. inversion E; subst d'. lia.
        -- exists k, d'. auto.
Qed.

Lemma devices_from_ids (l : list (device rate)) (i : Z) :
  (forall x, In x (devices_from i l) -> i <= x.(id)) /\
  NoDup (map (@id rate) (devices_from i l)).
Proof.
  revert i. induction l as [|d l IH]; intros i; simpl.
  - split; [contradiction | constructor].
  - destruct (IH (i + 1)) as (Lo & Nd).
    destruct (max_input_channels d >? 0).
    + split.
      * intros x [<-|Hin]; [simpl; lia | specialize (Lo x Hin); lia].
      * simpl. constructor; [|exact Nd].
        intros Hin. apply in_map_iff in Hin. destruct Hin as (x & E & Hin).
        specialize (Lo x Hin). lia.
    + split; [|exact Nd]. intros x Hin. specialize (Lo x Hin). lia.
Qed.

(** X16.  [get_available_devices] offers exactly the devices that have
    input channels, each under its position in the list of all devices
    (the number that [set_device] hands to the audio library), with its
    own name, channel count and sample rate; no identifier is offered
    twice. *)
Theorem available_devices (l : list (device rate)) :
  (forall x,
     In x (get_available_devices l) <->
     exists k d,
       nth_error l k = Some d /\ 0 < d.(max_input_channels) /\
       x = {| id := Z.of_nat k; input_name := d.(name);
              channels := d.(max_input_channels);
              sample_rate := d.(default_samplerate) |}) /\
  NoDup (map (@id rate) (get_available_devices l)).
Proof.
  unfold get_available_devices. split.
  - intros x. apply (devices_from_spec l 0 x).
  - apply devices_from_ids.
Qed.

End Devices.

End DeviceFacts.

(* ===================================================================== *)
(** * The sentences that are read aloud                                   *)
(* ===================================================================== *)

Module SentenceFacts.
Import Text TTSPlayback.
#[local] Close Scope string_scope.

(** ** Stripping *)

Lemma ink_lstrip (s : text) : ink (lstrip s) = ink s.
Proof.
  induction s as [|c s IH]; simpl; [reflexivity|].
  destruct (isspace c) eqn:E; simpl; [exact IH|].
  rewrite E. reflexivity.
Qed.

Lemma ink_rev (s : text) : ink (rev s) = rev (ink s).
Proof.
  unfold ink. induction s as [|c s IH]; simpl; [reflexivity|].
  rewrite filter_app, IH. simpl.
  destruct (negb (isspace c)); simpl; [reflexivity|].
  rewrite List.app_nil_r. reflexivity.
Qed.

Lemma ink_strip (s : text) : ink (strip s) = ink s.
Proof.
  unfold strip, rstrip.
  rewrite ink_rev, ink_lstrip, ink_rev, rev_involutive. apply ink_lstrip.
Qed.

Lemma ink_nil_iff (s : text) : ink s = [] <-> forallb isspace s = true.
Proof.
  unfold ink. induction s as [|c s IH]; simpl; [tauto|].
  destruct (isspace c); simpl; [exact IH|]. split; discriminate.
Qed.

Lemma lstrip_fixed (c : N) (s : text) :
  isspace c = false -> lstrip (c :: s) = c :: s.
Proof. intros E. simpl. rewrite E. reflexivity. Qed.

(** The last character of a text survives [lstrip] when it is not
    whitespace. *)
Lemma rev_lstrip_head (s : text) (c : N) (r : text) :
  rev s = c :: r -> isspace c = false ->
  exists r', rev (lstrip s) = c :: r'.
Proof.
  revert r. induction s as [|a s IH]; intros r E Hc; [discriminate|].
  simpl in E. simpl. destruct (isspace a) eqn:Ha.
  - destruct (rev s) as [|c' r''] eqn:R.
    + simpl in E. inversion E; subst. congruence.
    + simpl in E. inversion E; subst c'. eapply IH; [reflexivity | exact Hc].
  - simpl. rewrite E. eauto.
Qed.

(** A text whose last character is not whitespace keeps it, and is not
    emptied, by [strip]. *)
Lemma rev_strip_head (s : text) (c : N) (r : text) :
  rev s = c :: r -> isspace c = false ->
  exists r', rev (strip s) = c :: r'.
Proof.
  intros E Hc. unfold strip, rstrip. rewrite rev_involutive.
  destruct (rev_lstrip_head s c r E Hc) as (r' & E').
  rewrite E'. rewrite lstrip_fixed by exact Hc. eauto.
Qed.

(** A stripped text is empty or begins and ends with a character that is
    not whitespace. *)
Lemma strip_trimmed (s : text) :
  strip s = [] \/
  exists a u c r,
    strip s = a :: u /\ isspace a = false /\
    rev (strip s) = c :: r /\ isspace c = false.
Proof.
  unfold strip, rstrip.
  destruct (lstrip (rev (lstrip s))) as [|c r] eqn:L; [left; reflexivity|].
  right.
  assert (Hc : isspace c = false).
  { clear -L. induction (rev (lstrip s)) as [|x l IH]; [discriminate|].
    simpl in L. destruct (isspace x) eqn:X; [auto|].
    inversion L; subst. exact X. }
  assert (Hs : exists k, lstrip s = rev (c :: r) ++ k /\ forallb isspace k = true).
  { assert (G : forall l, lstrip l = c :: r ->
                exists k, l = k ++ c :: r /\ forallb isspace k = true).
    { clear. induction l as [|x l IH]; [discriminate|]. simpl.
      destruct (isspace x) eqn:X.
      - intros E. destruct (IH E) as (k & -> & F). exists (x :: k).
        simpl. rewrite X. auto.
      - intros E. exists []. simpl. auto. }
    destruct (G _ L) as (k & E & F).
    apply (f_equal (@rev N)) in E. rewrite rev_involutive in E.
    rewrite rev_app_distr in E. exists (rev k). split; [exact E|].
    rewrite BridgeFacts.forallb_rev. exact F. }
  destruct Hs as (k & E & F).
  destruct (rev (c :: r)) as [|a u] eqn:R.
  { apply (f_equal (@List.length N)) in R. rewrite List.length_rev in R.
    discriminate. }
  exists a, u, c, r. repeat split.
  - (* the head of [lstrip s] is not whitespace *)
    simpl in E. clear -E.
    induction s as [|x s IH]; [discriminate|]. simpl in E.
    destruct (isspace x) eqn:X; [auto|]. inversion E; subst. exact X.
  - rewrite <- R. apply rev_involutive.
  - exact Hc.
Qed.

Lemma strip_idempotent (s : text) : strip (strip s) = strip s.
Proof.
  destruct (strip_trimmed s) as [E|(a & u & c & r & E & Ha & R & Hc)].
  - rewrite E. reflexivity.
  - unfold strip at 1. rewrite E, lstrip_fixed by exact Ha.
    unfold rstrip. rewrite <- E, R, lstrip_fixed by exact Hc.
    rewrite <- R. apply rev_involutive.
Qed.

(** ** Splitting *)

Lemma re_split_nonempty (sk ae : bool) (s : text) : re_split sk ae s <> [].
Proof.
  revert sk ae. induction s as [|c s IH]; intros sk ae; simpl; [discriminate|].
  destruct (isspace c); [destruct sk; [apply IH | destruct ae]|].
  - discriminate.
  - specialize (IH false false). destruct (re_split false false s);
      [contradiction | discriminate].
  - specialize (IH false (ends_sentence c)).
    destruct (re_split false (ends_sentence c) s);
      [contradiction | discriminate].
Qed.

Lemma concat_cons_head (c : N) (ps : list text) :
  ps <> [] -> List.concat (cons_head c ps) = c :: List.concat ps.
Proof. destruct ps as [|p ps]; [contradiction | reflexivity]. Qed.

Lemma ink_app (a b : text) : ink (a ++ b) = ink a ++ ink b.
Proof. apply filter_app. Qed.

Lemma ink_cons (c : N) (s : text) :
  ink (c :: s) = if isspace c then ink s else c :: ink s.
Proof. unfold ink. simpl. destruct (isspace c); reflexivity. Qed.

Lemma ink_re_split (sk ae : bool) (s : text) :
  ink (List.concat (re_split sk ae s)) = ink s.
Proof.
  revert sk ae. induction s as [|c s IH]; intros sk ae; [reflexivity|].
  cbn [re_split]. rewrite ink_cons.
  destruct (isspace c) eqn:E.
  - destruct sk; [apply IH | destruct ae].
    + cbn [List.concat app]. apply IH.
    + rewrite concat_cons_head by apply re_split_nonempty.
      rewrite ink_cons, E. apply IH.
  - rewrite concat_cons_head by apply re_split_nonempty.
    rewrite ink_cons, E. f_equal. apply IH.
Qed.

Lemma ink_sentences (ps : list text) :
  ink (List.concat (filter nonempty (map strip ps))) = ink (List.concat ps).
Proof.
  induction ps as [|p ps IH]; [reflexivity|].
  cbn [map filter List.concat].
  rewrite (ink_app p), <- (ink_strip p), <- IH.
  destruct (strip p) as [|a u]; cbn [nonempty List.concat].
  - reflexivity.
  - apply ink_app.
Qed.

(** X17.  Splitting a text into sentences loses nothing that is to be
    said: the characters of the sentences that are not whitespace are,
    in order, the characters of the text that are not whitespace. *)
Theorem split_keeps_ink (txt : text) :
  ink (List.concat (_split_into_sentences txt)) = ink txt.
Proof.
  unfold _split_into_sentences.
  pose proof (ink_sentences (re_split false false txt)) as E.
  rewrite ink_re_split in E.
  destruct (filter nonempty (map strip (re_split false false txt))) as [|s l].
  - simpl. rewrite List.app_nil_r. reflexivity.
  - exact E.
Qed.

Lemma sentences_trimmed (ps : list text) :
  Forall (fun s => s <> [] /\ strip s = s) (filter nonempty (map strip ps)).
Proof.
  induction ps as [|p ps IH]; simpl; [constructor|].
  destruct (strip p) as [|a u] eqn:E; simpl; [exact IH|].
  constructor; [|exact IH]. split; [discriminate|].
  rewrite <- E. apply strip_idempotent.
Qed.

(** X18.  [_split_into_sentences] never answers with an empty list; for
    a text that is not blank every sentence is non-empty and has no
    whitespace at either end; a blank text comes back as it is, as the
    only sentence. *)
Theorem split_sentences_trimmed (txt : text) :
  _split_into_sentences txt <> [] /\
  (forallb isspace txt = true -> _split_into_sentences txt = [txt]) /\
  (forallb isspace txt = false ->
   Forall (fun s => s <> [] /\ strip s = s) (_split_into_sentences txt)).
Proof.
  pose proof (sentences_trimmed (re_split false false txt)) as T.
  unfold _split_into_sentences.
  destruct (filter nonempty (map strip (re_split false false txt)))
    as [|s l] eqn:F.
  - split; [discriminate|]. split; [reflexivity|].
    pose proof (ink_sentences (re_split false false txt)) as E.
    rewrite F, ink_re_split in E. simpl in E. symmetry in E.
    apply ink_nil_iff in E. intros B. congruence.
  - split; [discriminate|]. split; [|intros _; exact T].
    pose proof (ink_sentences (re_split false false txt)) as K.
    rewrite F, ink_re_split in K.
    intros B. exfalso. apply ink_nil_iff in B. rewrite B in K.
    inversion T as [|? ? (Hs & Hstrip) _]; subst.
    destruct (strip_trimmed s) as [E|(a & u & c & r & E & Ha & _)];
      rewrite Hstrip in E; [contradiction|].
    subst s. simpl in K. unfold ink in K. simpl in K. rewrite Ha in K.
    discriminate.
Qed.

Lemma split_sentences_trimmed_witness :
  Forall (fun s => s <> [] /\ strip s = s)
    (_split_into_sentences (of_string "Hello world.  How are you? ")).
Proof.
  apply (proj2 (proj2 (split_sentences_trimmed
                         (of_string "Hello world.  How are you? ")))).
  reflexivity.
Defined.

Lemma ends_sentence_ink (c : N) : ends_sentence c = true -> isspace c = false.
Proof.
  unfold ends_sentence. intros E.
  apply orb_true_iff in E. destruct E as [E|E];
    [apply orb_true_iff in E; destruct E as [E|E]|];
    apply N.eqb_eq in E; subst; reflexivity.
Qed.

Lemma ends_with_mark_cons (c : N) (p : text) :
  p <> [] -> ends_with_mark (c :: p) = ends_with_mark p.
Proof.
  intros Hp. unfold ends_with_mark. simpl.
  destruct (rev p) as [|x r] eqn:R; [|reflexivity].
  apply (f_equal (@rev N)) in R. rewrite rev_involutive in R. contradiction.
Qed.

(** The pieces of [re_split]: every piece but the first and the last
    ends with a mark, and so does the first when it is not the only one,
    unless it is empty and the scan started right after a mark. *)
Lemma re_split_marks (s : text) (sk ae : bool) :
  exists p0 rest,
    re_split sk ae s = p0 :: rest /\
    cut_after_marks rest = true /\
    (rest <> [] -> (p0 = [] /\ ae = true) \/ ends_with_mark p0 = true).
Proof.
  assert (Cut : forall p0 rest,
    cut_after_marks rest = true ->
    (rest <> [] -> (p0 = [] /\ false = true) \/ ends_with_mark p0 = true) ->
    cut_after_marks (p0 :: rest) = true).
  { intros p0 rest C H. simpl. destruct rest as [|p1 rest]; [reflexivity|].
    destruct H as [(_ & H)|H]; [discriminate | discriminate |].
    rewrite H. exact C. }
  revert sk ae. induction s as [|c s IH]; intros sk ae.
  - exists [], []. repeat split. intros H. contradiction.
  - cbn [re_split]. destruct (isspace c) eqn:E.
    + destruct sk.
      * destruct (IH true false) as (p0 & rest & R & C & H).
        exists p0, rest. split; [exact R|]. split; [exact C|].
        intros Hr. destruct (H Hr) as [(_ & F)|M]; [discriminate | auto].
      * destruct ae.
        -- destruct (IH true false) as (p0 & rest & R & C & H).
           exists [], (p0 :: rest). rewrite R. split; [reflexivity|].
           split; [apply Cut; assumption | auto].
        -- destruct (IH false false) as (p0 & rest & R & C & H).
           exists (c :: p0), rest. rewrite R. split; [reflexivity|].
           split; [exact C|]. intros Hr.
           destruct (H Hr) as [(_ & F)|M]; [discriminate|]. right.
           rewrite ends_with_mark_cons; [exact M|].
           intros ->. discriminate.
    + destruct (IH false (ends_sentence c)) as (p0 & rest & R & C & H).
      exists (c :: p0), rest. rewrite R. split; [reflexivity|].
      split; [exact C|]. intros Hr. right.
      destruct (H Hr) as [(-> & M)|M].
      * unfold ends_with_mark. simpl. exact M.
      * rewrite ends_with_mark_cons; [exact M|]. intros ->. discriminate.
Qed.

Lemma strip_keeps_mark (p : text) :
  ends_with_mark p = true ->
  nonempty (strip p) = true /\ ends_with_mark (strip p) = true.
Proof.
  unfold ends_with_mark. destruct (rev p) as [|c r] eqn:R; [discriminate|].
  intros M. destruct (rev_strip_head p c r R (ends_sentence_ink c M))
    as (r' & E).
  rewrite E. split; [|exact M].
  destruct (strip p); [discriminate | reflexivity].
Qed.

Lemma sentences_cut (ps : list text) :
  cut_after_marks ps = true ->
  cut_after_marks (filter nonempty (map strip ps)) = true.
Proof.
  induction ps as [|p ps IH]; [reflexivity|].
  intros C. cbn [map filter].
  destruct ps as [|q ps].
  - simpl. destruct (nonempty (strip p)); reflexivity.
  - simpl in C. apply andb_true_iff in C. destruct C as (M & C).
    destruct (strip_keeps_mark p M) as (Hn & Hm). rewrite Hn.
    specialize (IH C).
    destruct (filter nonempty (map strip (q :: ps))) as [|x l] eqn:F;
      [reflexivity|].
    change (ends_with_mark (strip p) && cut_after_marks (x :: l) = true).
    rewrite Hm. exact IH.
Qed.

(** X19.  Sentences are cut only after a full stop, an exclamation mark
    or a question mark: every sentence that [_split_into_sentences]
    returns, the last one apart, ends with one of these. *)
Theorem split_after_marks (txt : text) :
  cut_after_marks (_split_into_sentences txt) = true.
Proof.
  unfold _split_into_sentences.
  destruct (re_split_marks txt false false) as (p0 & rest & R & C & H).
  assert (P : cut_after_marks (re_split false false txt) = true).
  { rewrite R. simpl. destruct rest as [|p1 rest]; [reflexivity|].
    destruct H as [(_ & F)|M]; [discriminate | discriminate |].
    rewrite M. exact C. }
  apply sentences_cut in P.
  destruct (filter nonempty (map strip (re_split false false txt)));
    [reflexivity | exact P].
Qed.

End SentenceFacts.

(* ===================================================================== *)
(** * Playback: the flags and the playback thread                         *)
(* ===================================================================== *)

Module PlaybackFacts.
Import Text TTSEngine TTSPlayback.
#[local] Close Scope string_scope.

Lemma flags_agree_init : flags_agree init.
Proof. reflexivity. Qed.

(** X20.  The methods called from the window keep the pause flag in step
    with the state: if the flag is clear exactly when the engine is
    PAUSED, it is so again after [pause], [resume], [toggle_pause],
    [stop] and [speak]. *)
Theorem pause_flag_invariant (env : Env) (text : string) (self : t) :
  flags_agree self ->
  flags_agree (snd (pause self)) /\
  flags_agree (snd (resume self)) /\
  flags_agree (snd (toggle_pause self)) /\
  flags_agree (snd (stop env self)) /\
  flags_agree (snd (speak env text self)).
Proof.
  unfold flags_agree, speak.
  destruct (negb (nonempty (strip (of_string text))));
    destruct self as [v r vo st ct se ix tf pt sp pe cb];
    cbn [_pause_event state]; intros ->;
    destruct st; repeat split.
Qed.

Lemma pause_flag_invariant_witness :
  flags_agree (snd (pause Scenario.playing)) /\
  flags_agree (snd (toggle_pause (snd (pause Scenario.playing)))).
Proof.
  split.
  - apply (pause_flag_invariant Scenario.no_files "" Scenario.playing).
    reflexivity.
  - apply (pause_flag_invariant Scenario.no_files ""
             (snd (pause Scenario.playing))).
    reflexivity.
Defined.

(** X21.  With the pause flag in step with the state, [toggle_pause]
    called twice gives the engine back as it was. *)
Theorem toggle_pause_twice (self : t) :
  flags_agree self ->
  snd (toggle_pause (snd (toggle_pause self))) = self.
Proof.
  unfold flags_agree. destruct self as [v r vo st ct se ix tf pt sp pe cb].
  cbn [_pause_event state]. intros ->.
  destruct st; reflexivity.
Qed.

Lemma toggle_pause_twice_witness :
  snd (toggle_pause (snd (toggle_pause Scenario.playing))) = Scenario.playing.
Proof.
  apply (toggle_pause_twice Scenario.playing). reflexivity.
Defined.

Lemma filter_engine (f : step -> bool) (evs : list event) :
  (forall e, f (Engine e) = false) ->
  filter f (engine_steps evs) = [].
Proof.
  intros F. unfold engine_steps.
  induction evs as [|e evs IH]; [reflexivity|].
  cbn [map filter]. rewrite F. exact IH.
Qed.

Lemma filter_call_other (f : step -> bool) (connected : bool) (e : step) :
  f e = false -> filter f (call connected e) = [].
Proof.
  intros F. unfold call. destruct connected; [|reflexivity].
  cbn [filter]. rewrite F. reflexivity.
Qed.

Lemma filter_generate (f : step -> bool) (cb : callbacks) (g : generation)
    (sentence : string) (self : t) :
  (forall a b c d e, f (Synthesize a b c d e) = false) ->
  (forall m, f (OnError m) = false) ->
  filter f (fst (fst (_generate_audio cb g sentence self))) = [].
Proof.
  intros S E. destruct g; cbn [_generate_audio fst filter].
  - rewrite S. reflexivity.
  - apply filter_call_other, E.
  - rewrite S. apply filter_call_other, E.
Qed.

Lemma filter_play (f : step -> bool) (cb : callbacks) (g : generation)
    (path : string) :
  (forall p, f (LoadAndPlay p) = false) ->
  (forall m, f (OnError m) = false) ->
  filter f (_play_audio_file cb g path) = [].
Proof.
  intros L E. destruct g as [p [msg|]| |]; cbn [_play_audio_file filter];
    rewrite L; try reflexivity.
  apply filter_call_other, E.
Qed.

Lemma generate_keeps (cb : callbacks) (g : generation) (sentence : string)
    (self : t) :
  let self' := snd (_generate_audio cb g sentence self) in
  self'.(state) = self.(state) /\
  self'.(_sentences) = self.(_sentences) /\
  self'.(_current_sentence_index) = self.(_current_sentence_index) /\
  self'.(_stop_event) = self.(_stop_event) /\
  self'.(_pause_event) = self.(_pause_event) /\
  self'.(on_state_changed) = self.(on_state_changed).
Proof. destruct g; repeat split. Qed.

(** One turn of the loop of [_play_sentences]. *)
Lemma play_loop_cons (cb : callbacks) (world : list generation) (total : Z)
    (sentence : string) (todo : list string) (self : t) :
  exists (before : list step) (next : t),
    play_loop cb world total (sentence :: todo) self =
      ((before ++
        call cb.(on_progress)
          (OnProgress (self.(_current_sentence_index) + 1) total) ++
        fst (play_loop cb (tl world) total todo next))%list,
       snd (play_loop cb (tl world) total todo next)) /\
    filter is_progress before = [] /\
    filter is_finished before = [] /\
    next.(_current_sentence_index) = self.(_current_sentence_index) + 1 /\
    next.(_sentences) = self.(_sentences) /\
    next.(_stop_event) = self.(_stop_event) /\
    next.(_pause_event) = self.(_pause_event) /\
    next.(on_state_changed) = self.(on_state_changed).
Proof.
  cbn [play_loop].
  set (g := match world with g :: _ => g | [] => NoTempFile "" end).
  unfold _set_state at 1.
  pose proof (generate_keeps cb g sentence (set_state_field GENERATING self))
    as K.
  pose proof (filter_generate is_progress cb g sentence
                (set_state_field GENERATING self)
                (fun _ _ _ _ _ => eq_refl) (fun _ => eq_refl)) as FP.
  pose proof (filter_generate is_finished cb g sentence
                (set_state_field GENERATING self)
                (fun _ _ _ _ _ => eq_refl) (fun _ => eq_refl)) as FF.
  destruct (_generate_audio cb g sentence (set_state_field GENERATING self))
    as [[s2 audio_file] self2].
  cbn [fst snd] in K, FP, FF.
  destruct K as (_ & K1 & K2 & K3 & K4 & K5).
  cbn [set_state_field _sentences _current_sentence_index _stop_event
       _pause_event on_state_changed] in K1, K2, K3, K4, K5.
  destruct audio_file as [path|].
  - unfold _set_state.
    match goal with
    | |- context [play_loop cb (tl world) total todo ?n] =>
        destruct (play_loop cb (tl world) total todo n) as [rest self'] eqn:PL;
        eexists _, n
    end.
    rewrite PL. cbn [fst snd].
    split.
    + cbn [set_state_field _current_sentence_index]. rewrite K2.
      rewrite !List.app_assoc. reflexivity.
    + rewrite !filter_app, FP, FF.
      rewrite !(filter_engine is_progress), !(filter_engine is_finished)
        by reflexivity.
      rewrite (filter_play is_progress), (filter_play is_finished)
        by reflexivity.
      cbn [set_index set_state_field _current_sentence_index _sentences
           _stop_event _pause_event on_state_changed].
      rewrite K1, K2, K3, K4, K5. repeat split.
  - match goal with
    | |- context [play_loop cb (tl world) total todo ?n] =>
        destruct (play_loop cb (tl world) total todo n) as [rest self'] eqn:PL;
        eexists _, n
    end.
    rewrite PL. cbn [fst snd].
    split.
    + rewrite K2. cbn [app]. rewrite !List.app_assoc. reflexivity.
    + rewrite !filter_app, FP, FF.
      rewrite !(filter_engine is_progress), !(filter_engine is_finished)
        by reflexivity.
      cbn [set_index _current_sentence_index _sentences
           _stop_event _pause_event on_state_changed].
      rewrite K1, K2, K3, K4, K5. repeat split.
Qed.

Lemma play_loop_spec (cb : callbacks) (total : Z) (todo : list string) :
  forall (world : list generation) (self : t),
    let r := play_loop cb world total todo self in
    filter is_progress (fst r) =
      (if cb.(on_progress)
       then progress_from (self.(_current_sentence_index) + 1) total
              (List.length todo)
       else []) /\
    filter is_finished (fst r) = [] /\
    (snd r).(_current_sentence_index) =
      self.(_current_sentence_index) + Z.of_nat (List.length todo) /\
    (snd r).(_sentences) = self.(_sentences) /\
    (snd r).(_stop_event) = self.(_stop_event) /\
    (snd r).(_pause_event) = self.(_pause_event) /\
    (snd r).(on_state_changed) = self.(on_state_changed).
Proof.
  induction todo as [|sentence todo IH]; intros world self r.
  - subst r. cbn [play_loop fst snd filter List.length progress_from].
    rewrite Z.add_0_r. destruct (on_progress cb); repeat split.
  - subst r.
    destruct (play_loop_cons cb world total sentence todo self)
      as (before & next & E & BP & BF & N1 & N2 & N3 & N4 & N5).
    rewrite E. cbn [fst snd].
    destruct (IH (tl world) next) as (P & F & I1 & I2 & I3 & I4 & I5).
    rewrite !filter_app, BP, BF, P, F, I1, I2, I3, I4, I5, N1, N2, N3, N4, N5.
    cbn [List.length progress_from]. unfold call.
    destruct (on_progress cb); cbn [filter is_progress is_finished app];
      repeat split; lia.
Qed.

Lemma play_sentences_spec (env : Env) (cb : callbacks)
    (world : list generation) (self : t) :
  self.(_stop_event) = false ->
  self.(_pause_event) = true ->
  0 <= self.(_current_sentence_index)
    <= Z.of_nat (List.length self.(_sentences)) ->
  let total := Z.of_nat (List.length self.(_sentences)) in
  let r := _play_sentences env cb world self in
  snd (fst r) = Done /\
  filter is_progress (fst (fst r)) =
    (if cb.(on_progress)
     then progress_from (self.(_current_sentence_index) + 1) total
            (Z.to_nat (total - self.(_current_sentence_index)))
     else []) /\
  filter is_finished (fst (fst r)) = call cb.(on_finished) OnFinished /\
  (snd r).(state) = IDLE /\
  (snd r).(_temp_files) = [] /\
  (snd r).(_current_sentence_index) = total.
Proof.
  intros Hs Hp Hi total r. subst r. unfold _play_sentences. fold total.
  rewrite Hs, Hp. cbn [negb].
  pose proof (List.length_skipn
                (Z.to_nat self.(_current_sentence_index)) self.(_sentences))
    as L.
  assert (N : Z.to_nat (total - self.(_current_sentence_index)) =
              List.length (skipn (Z.to_nat self.(_current_sentence_index))
                             self.(_sentences))).
  { rewrite L. subst total. lia. }
  rewrite N.
  destruct (skipn (Z.to_nat self.(_current_sentence_index)) self.(_sentences))
    as [|sentence todo] eqn:T.
  - cbn [List.length] in N.
    unfold _set_state, _cleanup_temp_files. cbn [fst snd].
    rewrite !filter_app.
    rewrite !(filter_engine is_progress), !(filter_engine is_finished)
      by reflexivity.
    rewrite (filter_call_other is_progress) by reflexivity.
    rewrite List.app_nil_r. cbn [app List.length progress_from].
    split; [reflexivity|]. split; [destruct (on_progress cb); reflexivity|].
    split; [unfold call; destruct (on_finished cb); reflexivity|].
    split; [reflexivity|]. split; [reflexivity|].
    cbn [set_temp_files set_state_field _current_sentence_index].
    subst total. lia.
  - pose proof (play_loop_spec cb total (sentence :: todo) world self)
      as (P & F & I & _).
    destruct (play_loop cb world total (sentence :: todo) self)
      as [played self'].
    cbn [fst snd] in P, F, I.
    unfold _set_state, _cleanup_temp_files. cbn [fst snd].
    rewrite !filter_app, P, F.
    rewrite !(filter_engine is_progress), !(filter_engine is_finished)
      by reflexivity.
    rewrite (filter_call_other is_progress) by reflexivity.
    rewrite !List.app_nil_r. cbn [app].
    split; [reflexivity|]. split; [reflexivity|].
    split; [unfold call; destruct (on_finished cb); reflexivity|].
    split; [reflexivity|]. split; [reflexivity|].
    cbn [set_temp_files set_state_field _current_sentence_index].
    rewrite I, <- N. subst total. lia.
Qed.

(** X22.  A playback thread that nobody stops or pauses, started at any
    position of the queue, goes through all the sentences left: it
    reports the progress of each one in turn, up to the last, whether
    the generation and the playback of the sentences succeed or fail,
    calls [on_finished] once, and leaves the engine IDLE at the end of
    the queue with no temporary file recorded. *)
Theorem play_sentences_run (env : Env) (cb : callbacks)
    (world : list generation) (self : t) :
  self.(_stop_event) = false ->
  self.(_pause_event) = true ->
  0 <= self.(_current_sentence_index)
    <= Z.of_nat (List.length self.(_sentences)) ->
  let total := Z.of_nat (List.length self.(_sentences)) in
  let r := _play_sentences env cb world self in
  snd (fst r) = Done /\
  filter is_progress (fst (fst r)) =
    (if cb.(on_progress)
     then progress_from (self.(_current_sentence_index) + 1) total
            (Z.to_nat (total - self.(_current_sentence_index)))
     else []) /\
  filter is_finished (fst (fst r)) = call cb.(on_finished) OnFinished /\
  (snd r).(state) = IDLE /\
  (snd r).(_temp_files) = [] /\
  (snd r).(_current_sentence_index) = total.
Proof. exact (play_sentences_spec env cb world self). Qed.

(** A queue of two sentences played from the start. *)
Lemma play_sentences_run_witness :
  let self := snd (speak Scenario.no_files Cases.answer init) in
  let r := _play_sentences Scenario.no_files Cases.listening
             Cases.half_spoken self in
  filter is_progress (fst (fst r)) = [OnProgress 1 2; OnProgress 2 2] /\
  filter is_finished (fst (fst r)) = [OnFinished] /\
  (snd r).(state) = IDLE.
Proof.
  intros self r.
  assert (Hi : 0 <= self.(_current_sentence_index)
                 <= Z.of_nat (List.length self.(_sentences)))
    by (vm_compute; split; discriminate).
  destruct (play_sentences_run Scenario.no_files Cases.listening
              Cases.half_spoken self eq_refl eq_refl Hi)
    as (_ & P & F & S & _).
  split; [exact P|]. split; [exact F | exact S].
Defined.

Lemma split_nonempty (txt : text) : _split_into_sentences txt <> [].
Proof.
  unfold _split_into_sentences.
  destruct (filter nonempty (map strip (re_split false false txt)));
    discriminate.
Qed.

(** X23.  [_on_claude_response] reads an answer aloud only when reading
    is switched on and the answer is not blank; otherwise it leaves the
    engine alone, a playback under way included.  When it does, the
    queue holds the sentences of the answer, at least one, and the
    playback thread that [speak] starts, left alone, reports the
    progress of every one of them, from 1 to their number, and ends
    IDLE. *)
Theorem response_read_aloud (auto_read : bool) (env env' : Env)
    (cb : callbacks) (world : list generation) (text : string) (tts : t) :
  let sentences := _split_into_sentences (of_string text) in
  let n := List.length sentences in
  let r := MainWindow._on_claude_response auto_read env text tts in
  (auto_read && nonempty (strip (of_string text)) = false ->
   r = ([], false, tts)) /\
  (auto_read && nonempty (strip (of_string text)) = true ->
   snd (fst r) = true /\
   (snd r).(_sentences) = map to_string sentences /\
   (1 <= n)%nat /\
   let played := _play_sentences env' cb world (snd r) in
   snd (fst played) = Done /\
   filter is_progress (fst (fst played)) =
     (if cb.(on_progress) then progress_from 1 (Z.of_nat n) n else []) /\
   (snd played).(state) = IDLE).
Proof.
  intros sentences n r. subst r. unfold MainWindow._on_claude_response.
  split; intros A; rewrite A; [reflexivity|].
  apply andb_true_iff in A. destruct A as (_ & B).
  unfold speak. rewrite B. cbn [negb].
  unfold stop, _cleanup_temp_files, _set_state. cbn [fst snd].
  fold sentences.
  assert (N : (1 <= n)%nat).
  { subst n. pose proof (split_nonempty (of_string text)) as E.
    fold sentences in E. destruct sentences; [contradiction | simpl; lia]. }
  split; [reflexivity|]. split; [reflexivity|]. split; [exact N|].
  match goal with
  | |- context [_play_sentences env' cb world ?s] =>
      pose proof (play_sentences_spec env' cb world s eq_refl eq_refl) as R
  end.
  cbn [set_play_thread set_pause_event set_stop_event set_queue
       _current_sentence_index _sentences] in R.
  rewrite List.length_map in R. fold n in R.
  destruct R as (D & P & _ & S & _); [lia|].
  cbv zeta. split; [exact D|]. split; [|exact S].
  rewrite P. replace (Z.to_nat (Z.of_nat n - 0)) with n by lia.
  reflexivity.
Qed.

(** An answer of two sentences, read aloud, and a blank one. *)
Lemma response_read_aloud_witness :
  let r := MainWindow._on_claude_response true Scenario.no_files
             Cases.answer init in
  (snd r).(_sentences) = ["Hi."; "There!"]%string /\
  filter is_progress
    (fst (fst (_play_sentences Scenario.no_files Cases.listening
                 Cases.half_spoken (snd r))))
    = [OnProgress 1 2; OnProgress 2 2] /\
  MainWindow._on_claude_response true Scenario.no_files " "%string
    Scenario.playing = ([], false, Scenario.playing).
Proof.
  intros r.
  destruct (response_read_aloud true Scenario.no_files Scenario.no_files
              Cases.listening Cases.half_spoken Cases.answer init)
    as (_ & A).
  destruct (A eq_refl) as (_ & Q & _ & _ & P & _).
  destruct (response_read_aloud true Scenario.no_files Scenario.no_files
              Cases.listening Cases.half_spoken " "%string Scenario.playing)
    as (B & _).
  split; [exact Q|]. split; [exact P | exact (B eq_refl)].
Defined.

End PlaybackFacts.

(* ===================================================================== *)
(** * The window: the license check at start-up                           *)
(* ===================================================================== *)

Module WindowFacts.
Import Py Py.Notations Json LicenseManager MainWindow.

Section Check.
Context {lib : DateTime.Lib}.
Variable world : nat -> LicenseManager.Env.
Variable user : User.

Lemma check_license_S (depth tick : nat) (lm : LicenseManager.t) :
  _check_license world user (S depth) tick lm =
  match validate (world tick) lm with
  | (Raise e, lm) => Some ([], Raise e, lm)
  | (Ok NO_LICENSE, lm) =>
      if user.(trial_ok) && negb (String.eqb user.(trial_email) "") then
        match start_trial (world (S tick)) user.(trial_email) lm with
        | (Raise e, lm) => Some ([TrialDialog], Raise e, lm)
        | (Ok true, lm) =>
            match _check_license world user depth (S (S tick)) lm with
            | Some (shown, Ok _, lm) =>
                Some ((TrialDialog :: shown ++
                       [TrialActivated user.(trial_email)])%list,
                      Ok tt, lm)
            | Some (shown, Raise e, lm) =>
                Some (TrialDialog :: shown, Raise e, lm)
            | None => None
            end
        | (Ok false, lm) => Some ([TrialDialog; TrialFailed], Ok tt, lm)
        end
      else Some ([TrialDialog], Ok tt, lm)
  | (Ok TRIAL_EXPIRED, lm)
  | (Ok EXPIRED, lm) =>
      Some (_show_license_expired_dialog user, Ok tt, lm)
  | (Ok _, lm) => Some ([], Ok tt, lm)
  end.
Proof. reflexivity. Qed.

Lemma no_trial_dialog_expired :
  filter is_trial_dialog (_show_license_expired_dialog user) = [].
Proof.
  unfold _show_license_expired_dialog. destruct (buys user); reflexivity.
Qed.

(** The check of a manager that holds a trial: no trial dialog. *)
Lemma check_on_trial (depth tick : nat) (lm : LicenseManager.t) (ty : string) :
  dict_lookup lm.(_license_data) "license_type" = Some (JStr ty) ->
  ty = "trial" \/ ty = "trial_offline" ->
  exists shown r lm',
    _check_license world user (S depth) tick lm = Some (shown, r, lm') /\
    filter is_trial_dialog shown = [].
Proof.
  intros E T. rewrite check_license_S.
  rewrite (LicenseFacts.validate_trial (world tick) lm ty E T).
  destruct (get_trial_days_left (world tick) lm) as [n|e].
  - cbv zeta. destruct (n >? 0).
    + eexists _, _, _. split; reflexivity.
    + eexists _, _, _. split; [reflexivity | apply no_trial_dialog_expired].
  - eexists _, _, _. split; reflexivity.
Qed.

(** X24.  [_check_license] and [_show_trial_dialog] call each other, but
    never more than one level deep: the manager that [start_trial]
    leaves holds a trial, which [validate] never answers with
    NO_LICENSE.  So the check at start-up always comes to an end, and
    shows the trial dialog at most once. *)
Theorem check_license_ends (depth tick : nat) (lm : LicenseManager.t) :
  exists shown r lm',
    _check_license world user (S (S depth)) tick lm = Some (shown, r, lm') /\
    _check_license world user 2 tick lm = Some (shown, r, lm') /\
    (List.length (filter is_trial_dialog shown) <= 1)%nat.
Proof.
  rewrite (check_license_S (S depth)), (check_license_S 1).
  destruct (validate (world tick) lm) as [[s|e] lm1].
  2: { eexists _, _, _. repeat split. simpl. lia. }
  destruct s;
    try (eexists _, _, _; split; [reflexivity|]; split; [reflexivity|];
         try rewrite no_trial_dialog_expired; simpl; lia).
  destruct (trial_ok user && negb (String.eqb (trial_email user) "")).
  2: { eexists _, _, _. repeat split. simpl. lia. }
  pose proof (LicenseMore.start_trial_started (world (S tick))
                (trial_email user) lm1) as St.
  cbv zeta in St.
  destruct St as (Ok1 & _ & _ & _ & _ & _ & _ & _ & _ & Ty).
  destruct (start_trial (world (S tick)) (trial_email user) lm1)
    as [[b|e] lm2].
  2: { discriminate Ok1. }
  cbn [fst snd] in Ok1, Ty. injection Ok1 as ->.
  assert (exists ty,
            dict_lookup lm2.(_license_data) "license_type" = Some (JStr ty) /\
            (ty = "trial" \/ ty = "trial_offline")) as (ty & E & T).
  { destruct Ty as [Ty|Ty]; eexists; split; eauto. }
  destruct (check_on_trial depth (S (S tick)) lm2 ty E T)
    as (shown & r & lm' & C & F).
  destruct (check_on_trial 0 (S (S tick)) lm2 ty E T)
    as (shown0 & r0 & lm0 & C0 & F0).
  assert (Same : _check_license world user (S depth) (S (S tick)) lm2 =
                 _check_license world user 1 (S (S tick)) lm2).
  { rewrite !check_license_S.
    rewrite (LicenseFacts.validate_trial (world (S (S tick))) lm2 ty E T).
    destruct (get_trial_days_left (world (S (S tick))) lm2) as [n|e];
      [cbv zeta; destruct (n >? 0)|]; reflexivity. }
  rewrite <- Same, C.
  destruct r as [u|e].
  - eexists _, _, _. split; [reflexivity|]. split; [reflexivity|].
    cbn [filter is_trial_dialog List.length].
    rewrite filter_app, F. simpl. lia.
  - eexists _, _, _. split; [reflexivity|]. split; [reflexivity|].
    cbn [filter is_trial_dialog List.length]. rewrite F. simpl. lia.
Qed.

(** X25.  A paid license that the server answers is not valid raises no
    dialog: [_check_license] shows nothing and lets the window start,
    with the status INVALID, in a state where [can_use_app] answers
    False. *)
Theorem check_license_invalid_silent (depth tick : nat)
    (lm : LicenseManager.t) (d : dict) :
  paid lm ->
  validate_request (world tick) lm = Responds 200 (Some (JObj d)) ->
  truthy (dict_get d "valid" JNull) = false ->
  _check_license world user (S depth) tick lm
    = Some ([], Ok tt, set_status INVALID lm) /\
  can_use_app (world tick) lm = (Ok false, set_status INVALID lm).
Proof.
  intros P R V.
  pose proof (LicenseMore.validate_paid_online (world tick) lm _ P R) as E.
  cbv beta iota in E. rewrite V in E.
  rewrite check_license_S, LicenseFacts.can_use_app_validate, E.
  split; reflexivity.
Qed.

End Check.

(** A lifetime license that the server no longer accepts. *)
Lemma check_license_invalid_silent_witness :
  let env :=
    Scenario.online_at Scenario.jan_1 200
      (Some (JObj [("valid", JBool false)])) in
  _check_license (lib := DateTime.iso_lib) (fun _ => env) Cases.keen 1 0
    Scenario.lifetime
    = Some ([], Ok tt, set_status INVALID Scenario.lifetime) /\
  fst (can_use_app (lib := DateTime.iso_lib) env Scenario.lifetime) = Ok false.
Proof.
  intros env.
  assert (P : paid Scenario.lifetime) by (right; reflexivity).
  destruct (check_license_invalid_silent (lib := DateTime.iso_lib)
              (fun _ => env) Cases.keen 0 0 Scenario.lifetime
              [("valid", JBool false)] P eq_refl eq_refl) as (A & B).
  split; [exact A | rewrite B; reflexivity].
Defined.

(** X26.  [_stop_all] (without the embedded terminal) leaves the speech
    engine IDLE with the stop flag set and no temporary file recorded,
    so that the pause button does nothing; it leaves the recorder IDLE
    with an empty buffer, having written and posted nothing; and it
    tells the child process to terminate exactly when there is one. *)
Theorem stop_all_quiet (tenv : TTSEngine.Env) (senv : STTEngine.Env)
    (tts : TTSEngine.t) (stt : STTEngine.t) (claude : ClaudeBridge.t) :
  let r := _stop_all tenv senv tts stt claude in
  let tts' := fst (snd r) in
  let stt' := snd (snd r) in
  TTSEngine.is_playing tts' = false /\
  tts'.(TTSEngine._stop_event) = true /\
  tts'.(TTSEngine._temp_files) = [] /\
  TTSEngine.toggle_pause tts' = ([], tts') /\
  stt'.(STTEngine.state) = STTEngine.IDLE /\
  stt'.(STTEngine._audio_buffer) = [] /\
  existsb STTEngine.is_upload (snd (fst (fst r))) = false /\
  snd (fst r) =
    (if claude.(ClaudeBridge.current_process)
     then [BridgeControl.Terminate] else []).
Proof.
  cbv zeta. unfold _stop_all, TTSEngine.stop, TTSEngine._cleanup_temp_files,
    TTSEngine._set_state, STTEngine.cancel_recording, STTEngine._set_state.
  cbn [fst snd].
  repeat (split; [reflexivity|]).
  split; [|reflexivity].
  rewrite existsb_app.
  destruct (STTEngine._recording_thread _ && STTEngine.recording_alive senv);
    destruct (STTEngine.on_state_changed _); reflexivity.
Qed.

End WindowFacts.
